(** * Toxella worker: report normalisation, scoring and the Pub/Sub job handler

    A shallow embedding of [src/worker/index.js] (the current worker, the
    first of the two versions kept in that file).

    Conventions of the embedding.

    - JavaScript numbers are modelled by [number]: exact rationals extended
      with [NaN] and the two infinities.  Arithmetic is exact: the rounding
      error of binary64 and the sign of zero are not modelled.  Where the
      source rounds a computed number to an integer, the statements compare
      the result with the exact value of the formula up to [rounding_slack]
      and do not say to which side a tie goes.
    - JavaScript strings are modelled by [string], every character standing
      for one code unit below 256.
    - Values reaching the worker come from [JSON.parse] or from Firestore
      documents, hence [value] is the type of JSON-like data: no functions,
      no symbols, no cyclic structures, objects with own data properties
      only. *)

From Stdlib Require Import ZArith QArith Qround Qabs Qminmax Lqa Lia List Bool.
From Stdlib Require Import Ascii String DecimalString.
From stdpp Require Import base option gmap strings.

Import ListNotations.
Set Warnings "-register-all".
Local Open Scope string_scope.
Local Open Scope list_scope.
Local Open Scope Z_scope.

(* ================================================================== *)
(** ** Numbers *)
(* ================================================================== *)

Inductive number : Type :=
| NaN
| PosInf
| NegInf
| Fin (q : Q).

Definition num_of_Z (z : Z) : number := Fin (inject_Z z).
Definition num_of_nat (n : nat) : number := num_of_Z (Z.of_nat n).

(** [a < b], [a <= b] and [a > b] of JavaScript: false as soon as one side
    is [NaN]. *)
Definition num_ltb (a b : number) : bool :=
  match a, b with
  | NaN, _ | _, NaN => false
  | _, NegInf => false
  | NegInf, _ => true
  | PosInf, _ => false
  | _, PosInf => true
  | Fin x, Fin y => negb (Qle_bool y x)
  end.

Definition num_leb (a b : number) : bool :=
  match a, b with
  | NaN, _ | _, NaN => false
  | NegInf, _ => true
  | _, PosInf => true
  | _, NegInf => false
  | PosInf, _ => false
  | Fin x, Fin y => Qle_bool x y
  end.

Definition num_gtb (a b : number) : bool := num_ltb b a.

Definition Math_min (a b : number) : number :=
  match a, b with
  | NaN, _ | _, NaN => NaN
  | _, _ => if num_leb a b then a else b
  end.

Definition Math_max (a b : number) : number :=
  match a, b with
  | NaN, _ | _, NaN => NaN
  | _, _ => if num_leb a b then b else a
  end.

(** [Math.round]: the nearest integer, halves towards plus infinity. *)
Definition Math_round (a : number) : number :=
  match a with
  | Fin q => num_of_Z (Qfloor (q + (1 # 2)))
  | _ => a
  end.

Definition Qsign_pos (q : Q) : bool := negb (Qle_bool q 0).
Definition Qis_zero (q : Q) : bool := Qeq_bool q 0.

Definition num_neg (a : number) : number :=
  match a with
  | NaN => NaN
  | PosInf => NegInf
  | NegInf => PosInf
  | Fin q => Fin (- q)
  end.

Definition num_add (a b : number) : number :=
  match a, b with
  | NaN, _ | _, NaN => NaN
  | PosInf, NegInf | NegInf, PosInf => NaN
  | PosInf, _ | _, PosInf => PosInf
  | NegInf, _ | _, NegInf => NegInf
  | Fin x, Fin y => Fin (x + y)
  end.

Definition num_sub (a b : number) : number := num_add a (num_neg b).

(** An infinity of the sign of [q] times the sign [pos]; [NaN] for zero. *)
Definition inf_signed (pos : bool) (q : Q) : number :=
  if Qis_zero q then NaN
  else if Bool.eqb pos (Qsign_pos q) then PosInf else NegInf.

Definition num_mul (a b : number) : number :=
  match a, b with
  | NaN, _ | _, NaN => NaN
  | PosInf, PosInf | NegInf, NegInf => PosInf
  | PosInf, NegInf | NegInf, PosInf => NegInf
  | PosInf, Fin q | Fin q, PosInf => inf_signed true q
  | NegInf, Fin q | Fin q, NegInf => inf_signed false q
  | Fin x, Fin y => Fin (x * y)
  end.

(** Division.  The sign of a zero divisor is not modelled: it counts as
    positive. *)
Definition num_div (a b : number) : number :=
  match a, b with
  | NaN, _ | _, NaN => NaN
  | (PosInf | NegInf), (PosInf | NegInf) => NaN
  | PosInf, Fin q => if Qis_zero q then PosInf else inf_signed true q
  | NegInf, Fin q => if Qis_zero q then NegInf else inf_signed false q
  | Fin _, (PosInf | NegInf) => Fin 0
  | Fin x, Fin y => if Qis_zero y then inf_signed true x else Fin (x / y)
  end.

(** ToBoolean on a number. *)
Definition num_truthy (a : number) : bool :=
  match a with
  | NaN => false
  | Fin q => negb (Qis_zero q)
  | _ => true
  end.

Declare Scope js_scope.
Delimit Scope js_scope with js.
Bind Scope js_scope with number.
Infix "+" := num_add : js_scope.
Infix "-" := num_sub : js_scope.
Infix "*" := num_mul : js_scope.
Infix "/" := num_div : js_scope.

(* ================================================================== *)
(** ** Strings *)
(* ================================================================== *)

Definition chars (s : string) : list ascii := list_ascii_of_string s.
Definition str (l : list ascii) : string := string_of_list_ascii l.

Definition code (c : ascii) : N := N_of_ascii c.

Definition in_range (lo hi : N) (c : ascii) : bool :=
  ((lo <=? code c) && (code c <=? hi))%N.

Definition is_digit (c : ascii) : bool := in_range 48 57 c.
Definition is_lower (c : ascii) : bool := in_range 97 122 c.
Definition is_upper (c : ascii) : bool := in_range 65 90 c.

(** [\w] of a regular expression without the unicode flag. *)
Definition is_word (c : ascii) : bool :=
  is_digit c || is_lower c || is_upper c || (code c =? 95)%N.

(** White space and line terminators among the code units below 256. *)
Definition is_white (c : ascii) : bool :=
  in_range 9 13 c || (code c =? 32)%N || (code c =? 160)%N.

Definition lower_char (c : ascii) : ascii :=
  if is_upper c || (in_range 192 222 c && negb (code c =? 215)%N)
  then ascii_of_N (code c + 32) else c.

Definition upper_word_char (c : ascii) : ascii :=
  if is_lower c then ascii_of_N (code c - 32) else c.

Definition toLowerCase (s : string) : string := str (map lower_char (chars s)).

Fixpoint drop_white (l : list ascii) : list ascii :=
  match l with
  | c :: r => if is_white c then drop_white r else l
  | [] => []
  end.

Definition trim_chars (l : list ascii) : list ascii :=
  rev (drop_white (rev (drop_white l))).

Definition trim (s : string) : string := str (trim_chars (chars s)).

Definition str_nonempty (s : string) : bool :=
  match s with EmptyString => false | _ => true end.

(** [s.slice(0, n)] for [0 <= n]. *)
Definition slice0 (n : nat) (s : string) : string := String.substring 0 n s.

(** [id.replace(/(^|[-_])(\w)/g, (_,a,b) => (a ? " " : "") + b.toUpperCase())]:
    [start] tells whether the scan stands at index 0. *)
Fixpoint title_scan (start : bool) (l : list ascii) : list ascii :=
  match l with
  | [] => []
  | c :: r =>
      if start && is_word c then upper_word_char c :: title_scan false r
      else if (code c =? 45)%N || (code c =? 95)%N then
        match r with
        | d :: r' =>
            if is_word d then " "%char :: upper_word_char d :: title_scan false r'
            else c :: title_scan false r
        | [] => [c]
        end
      else c :: title_scan false r
  end.

Definition titleCase (s : string) : string := str (title_scan true (chars s)).

(* ================================================================== *)
(** ** Values, exceptions *)
(* ================================================================== *)

Inductive value : Type :=
| VUndefined
| VNull
| VBool (b : bool)
| VNum (n : number)
| VStr (s : string)
| VArr (xs : list value)
| VObj (fields : list (string * value)).

(** A thrown [Error]: its [name] and its [message]. *)
Record exn : Type := Exn { exn_name : string; exn_message : string }.

Definition TypeError (msg : string) : exn := Exn "TypeError" msg.

(** The outcome of an evaluation that may throw. *)
Inductive result (A : Type) : Type :=
| Ok (a : A)
| Throw (e : exn).
Arguments Ok {A} a.
Arguments Throw {A} e.

Definition bind {A B : Type} (r : result A) (k : A -> result B) : result B :=
  match r with
  | Ok a => k a
  | Throw e => Throw e
  end.

Notation "x <- r ;; k" := (bind r (fun x => k))
  (at level 100, r at next level, right associativity).

Fixpoint mapM {A B : Type} (f : A -> result B) (l : list A) : result (list B) :=
  match l with
  | [] => Ok []
  | a :: r => b <- f a ;; bs <- mapM f r ;; Ok (b :: bs)
  end.

(** Own property lookup in an object; the first binding of a key counts. *)
Fixpoint lookup_field (k : string) (fs : list (string * value)) : option value :=
  match fs with
  | [] => None
  | (k', v) :: r => if String.eqb k k' then Some v else lookup_field k r
  end.

Definition has_field (k : string) (fs : list (string * value)) : bool :=
  match lookup_field k fs with Some _ => true | None => false end.

(** [v.k] on a value that is neither [null] nor [undefined], for the
    property names the worker reads ([length] and plain data names; no
    index and no method name). *)
Definition prop (v : value) (k : string) : value :=
  match v with
  | VObj fs => match lookup_field k fs with Some x => x | None => VUndefined end
  | VArr xs => if String.eqb k "length" then VNum (num_of_nat (length xs)) else VUndefined
  | VStr s => if String.eqb k "length" then VNum (num_of_nat (String.length s)) else VUndefined
  | _ => VUndefined
  end.

Definition nullish (v : value) : bool :=
  match v with VUndefined | VNull => true | _ => false end.

(** [v.k]: a [TypeError] on [null] and [undefined]. *)
Definition get (v : value) (k : string) : result value :=
  if nullish v then Throw (TypeError ("Cannot read properties of null or undefined: " +:+ k))
  else Ok (prop v k).

(** [v?.k] *)
Definition get_opt (v : value) (k : string) : value :=
  if nullish v then VUndefined else prop v k.

(** ToBoolean *)
Definition truthy (v : value) : bool :=
  match v with
  | VUndefined | VNull => false
  | VBool b => b
  | VNum n => num_truthy n
  | VStr s => str_nonempty s
  | VArr _ | VObj _ => true
  end.

(** [a || b] and [a ?? b] on values already evaluated (the right operands
    in the worker have no effect of their own). *)
Definition or_else (a b : value) : value := if truthy a then a else b.
Definition coalesce (a b : value) : value := if nullish a then b else a.

Definition isArray (v : value) : bool :=
  match v with VArr _ => true | _ => false end.

Definition is_string (v : value) : bool :=
  match v with VStr _ => true | _ => false end.

(* ================================================================== *)
(** ** Conversions of the language: Number(), String() *)
(* ================================================================== *)

(** *** StringToNumber (decimal, hexadecimal, octal and binary literals) *)

Definition digit_val (c : ascii) : Z :=
  if is_digit c then Z.of_N (code c) - 48
  else if is_lower c then Z.of_N (code c) - 87
  else if is_upper c then Z.of_N (code c) - 55
  else 99.

Definition is_digit_in (base : Z) (c : ascii) : bool :=
  (is_digit c || is_lower c || is_upper c) && (digit_val c <? base).

Definition digits_val (base : Z) (ds : list ascii) : Z :=
  fold_left (fun acc c => base * acc + digit_val c) ds 0.

Fixpoint span_digits (l : list ascii) : list ascii * list ascii :=
  match l with
  | c :: r => if is_digit c then let (ds, rest) := span_digits r in (c :: ds, rest)
              else ([], l)
  | [] => ([], [])
  end.

Definition all_digits_in (base : Z) (l : list ascii) : bool :=
  match l with [] => false | _ => forallb (is_digit_in base) l end.

(** [0x..], [0o..], [0b..] *)
Definition non_decimal (l : list ascii) : option Z :=
  match l with
  | "0"%char :: p :: ds =>
      let base :=
        if (code (lower_char p) =? 120)%N then 16
        else if (code (lower_char p) =? 111)%N then 8
        else if (code (lower_char p) =? 98)%N then 2 else 0 in
      if all_digits_in base ds then Some (digits_val base ds) else None
  | _ => None
  end.

Definition exponent (l : list ascii) : option Z :=
  match l with
  | [] => Some 0
  | e :: r =>
      if (code (lower_char e) =? 101)%N then
        let (neg, ds) :=
          match r with
          | "-"%char :: ds => (true, ds)
          | "+"%char :: ds => (false, ds)
          | _ => (false, r)
          end in
        if all_digits_in 10 ds
        then Some (if neg : bool then - digits_val 10 ds else digits_val 10 ds)
        else None
      else None
  end.

(** StrUnsignedDecimalLiteral *)
Definition unsigned_decimal (l : list ascii) : option number :=
  if String.eqb (str l) "Infinity" then Some PosInf
  else
    let (ip, r1) := span_digits l in
    let (fp, r2) :=
      match r1 with
      | "."%char :: r => span_digits r
      | _ => ([], r1)
      end in
    match ip ++ fp, exponent r2 with
    | _ :: _, Some e =>
        Some (Fin (inject_Z (digits_val 10 (ip ++ fp))
                   * Qpower (10 # 1) (e - Z.of_nat (length fp))))
    | _, _ => None
    end.

(** The value of a literal is the rational it denotes: the rounding to
    binary64, with the overflow to an infinity and the underflow to zero
    that come with it, is not modelled. *)
Definition StringToNumber (s : string) : number :=
  let l := trim_chars (chars s) in
  match l with
  | [] => Fin 0
  | c :: r =>
      match non_decimal l with
      | Some z => num_of_Z z
      | None =>
          let parsed :=
            if (code c =? 45)%N then option_map num_neg (unsigned_decimal r)
            else if (code c =? 43)%N then unsigned_decimal r
            else unsigned_decimal l in
          match parsed with Some n => n | None => NaN end
      end
  end.

(** *** Number::toString *)

Definition digits_of (z : Z) : string := NilZero.string_of_uint (N.to_uint (Z.to_N z)).

Fixpoint find_scale (fuel : nat) (a b j : Z) : option (Z * Z) :=
  if (a mod b =? 0) then Some (a / b, j)
  else match fuel with
       | O => None
       | S f => find_scale f (10 * a) b (j + 1)
       end.

Fixpoint strip_zeros (fuel : nat) (m z : Z) : Z * Z :=
  match fuel with
  | O => (m, z)
  | S f => if (m mod 10 =? 0) then strip_zeros f (m / 10) (z + 1) else (m, z)
  end.

Definition zeros (n : Z) : string := str (repeat "0"%char (Z.to_nat n)).

(** The digits [ds] (there are [k] of them) of a positive number
    [0.ds * 10^n], laid out as Number::toString does. *)
Definition layout (ds : string) (n : Z) : string :=
  let k := Z.of_nat (String.length ds) in
  if (k <=? n) && (n <=? 21) then ds +:+ zeros (n - k)
  else if (0 <? n) && (n <=? 21) then
    String.substring 0 (Z.to_nat n) ds +:+ "." +:+ String.substring (Z.to_nat n) (Z.to_nat (k - n)) ds
  else if (-6 <? n) && (n <=? 0) then "0." +:+ zeros (- n) +:+ ds
  else
    let e := (if n - 1 <? 0 then "-" else "+") +:+ digits_of (Z.abs (n - 1)) in
    if k =? 1 then ds +:+ "e" +:+ e
    else String.substring 0 1 ds +:+ "." +:+ String.substring 1 (Z.to_nat (k - 1)) ds +:+ "e" +:+ e.

(** A positive rational [a/b].  One that has no finite decimal expansion is
    the value of no JSON number; it is printed as the quotient. *)
Definition positive_to_string (a b : Z) : string :=
  match find_scale (Z.to_nat (Z.log2 b) + 1) a b 0 with
  | Some (m, j) =>
      let (s, z) := strip_zeros (Z.to_nat (Z.log2 m) + 1) m 0 in
      let ds := digits_of s in
      layout ds (Z.of_nat (String.length ds) + z - j)
  | None => digits_of a +:+ "/" +:+ digits_of b
  end.

Definition NumberToString (n : number) : string :=
  match n with
  | NaN => "NaN"
  | PosInf => "Infinity"
  | NegInf => "-Infinity"
  | Fin q =>
      let r := Qred q in
      match Qnum r with
      | Z0 => "0"
      | Zpos a => positive_to_string (Zpos a) (Zpos (Qden r))
      | Zneg a => "-" +:+ positive_to_string (Zpos a) (Zpos (Qden r))
      end
  end.

(** *** ToString, ToNumber *)

(** ToString.  An object is converted by its [toString] method: the
    inherited one answers ["[object Object]"]; an own property of that
    name holds JSON data, which is not callable, and [valueOf] returns the
    object itself, so the conversion throws.  An array is joined with
    commas, [null] and [undefined] elements giving the empty string. *)
Fixpoint ToString (v : value) : result string :=
  match v with
  | VUndefined => Ok "undefined"
  | VNull => Ok "null"
  | VBool b => Ok (if b then "true" else "false")
  | VNum n => Ok (NumberToString n)
  | VStr s => Ok s
  | VObj fs =>
      if has_field "toString" fs
      then Throw (TypeError "Cannot convert object to primitive value")
      else Ok "[object Object]"
  | VArr xs =>
      (fix join (l : list value) : result string :=
         match l with
         | [] => Ok ""
         | x :: r =>
             s <- (if nullish x then Ok "" else ToString x) ;;
             match r with
             | [] => Ok s
             | _ => t <- join r ;; Ok (s +:+ "," +:+ t)
             end
         end) xs
  end.

(** ToNumber, that is [Number(v)]. *)
Definition ToNumber (v : value) : result number :=
  match v with
  | VUndefined => Ok NaN
  | VNull => Ok (Fin 0)
  | VBool b => Ok (Fin (if b then 1 else 0))
  | VNum n => Ok n
  | VStr s => Ok (StringToNumber s)
  | VArr _ | VObj _ => s <- ToString v ;; Ok (StringToNumber s)
  end.

(* ================================================================== *)
(** ** 12-tactic scoring (worker/index.js, lines 60-133) *)
(* ================================================================== *)

Definition TACTIC_IDS : list string :=
  [ "gaslighting"; "darvo"; "blame-shifting"; "minimization"; "stonewalling"; "contempt";
    "guilt-tripping"; "threats"; "coercion"; "triangulation"; "boundaries"; "projection" ].

Definition RISK_WEIGHTS : list (string * number) :=
  [ ("threats", Fin 1.40); ("coercion", Fin 1.30); ("gaslighting", Fin 1.20);
    ("darvo", Fin 1.10);
    ("blame-shifting", Fin 1.00); ("minimization", Fin 1.00); ("stonewalling", Fin 0.95);
    ("contempt", Fin 1.05); ("guilt-tripping", Fin 1.00); ("triangulation", Fin 1.00);
    ("boundaries", Fin 1.00); ("projection", Fin 1.00) ].

Definition includes (l : list string) (s : string) : bool :=
  existsb (String.eqb s) l.

Fixpoint table_get {A : Type} (k : string) (tbl : list (string * A)) : option A :=
  match tbl with
  | [] => None
  | (k', a) :: r => if String.eqb k k' then Some a else table_get k r
  end.

(** [function clamp(n, lo, hi)] *)
Definition clamp (n : value) (lo hi : number) : result number :=
  x <- ToNumber (or_else n (VNum (Fin 0))) ;;
  Ok (Math_max lo (Math_min hi x)).

(** [function tacticScore(t)] *)
Definition tacticScore (t : value) : result number :=
  tl <- get t "likelihood" ;;
  p <- clamp tl (Fin 0) (Fin 1) ;;
  ts <- get t "severity" ;;
  s <- clamp ts (Fin 1) (Fin 5) ;;
  tf <- get t "frequency" ;;
  te <- get t "examples" ;;
  fn <- ToNumber (coalesce tf (or_else (get_opt te "length") (VNum (Fin 0)))) ;;
  let f := Math_min (Fin 5) fn in
  Ok (Math_round (Fin 40 * p + Fin 35 * ((s - Fin 1) / Fin 4)
                  + Fin 25 * Math_min (Fin 1) (f / Fin 5))%js).

(** [function riskLabel(score)] *)
Definition riskLabel (score : number) : string :=
  if num_ltb score (Fin 34) then "low"
  else if num_leb score (Fin 66) then "medium" else "high".

(** The object built for one entry of [raw.tactics] (lines 98-107). *)
Module Tactic.
Record t : Type := mk {
  id : string;
  name : value;
  likelihood : number;
  severity : number;
  frequency : number;
  examples : list value;
  score : number
}.

(** The object literal [obj] as [tacticScore] receives it. *)
Definition literal (i : string) (n : value) (l s f : number) (ex : list value) : value :=
  VObj [ ("id", VStr i); ("name", n); ("likelihood", VNum l); ("severity", VNum s);
         ("frequency", VNum f); ("examples", VArr ex) ].
End Tactic.

(** The callback of [list.map] (lines 95-108). *)
Definition normalizeTactic (t : value) : result Tactic.t :=
  t_id <- get t "id" ;;
  t_name <- get t "name" ;;
  ids <- ToString (or_else (or_else t_id t_name) (VStr "")) ;;
  let id := toLowerCase ids in
  let name := or_else t_name (VStr (if str_nonempty id then titleCase id else "Other")) in
  t_likelihood <- get t "likelihood" ;;
  t_p <- get t "p" ;;
  likelihood <- clamp (coalesce (coalesce t_likelihood t_p) (VNum (Fin 0))) (Fin 0) (Fin 1) ;;
  t_severity <- get t "severity" ;;
  severity <- clamp (coalesce t_severity (VNum (Fin 3))) (Fin 1) (Fin 5) ;;
  t_frequency <- get t "frequency" ;;
  t_examples <- get t "examples" ;;
  fn <- ToNumber (coalesce t_frequency (or_else (get_opt t_examples "length") (VNum (Fin 0)))) ;;
  let frequency := Math_max (Fin 0) (Math_min (Fin 5) fn) in
  let examples := match t_examples with VArr l => firstn 5 l | _ => [] end in
  let oid := if str_nonempty id && includes TACTIC_IDS id then id else "other" in
  score <- tacticScore (Tactic.literal oid name likelihood severity frequency examples) ;;
  Ok (Tactic.mk oid name likelihood severity frequency examples score).

(** A tactic of the finished report: the object above, with the
    [contribution_pct] the last loop writes into it. *)
Record tactic : Type := mk_tactic {
  obj :> Tactic.t;
  contribution_pct : number
}.

Module Report.
Record t : Type := mk {
  risk_score : number;
  risk_label : value;
  confidence : number;
  tactics : list tactic;
  receipts : list value;
  kpis : value;
  narrative_md : value
}.
End Report.

(** [RISK_WEIGHTS[t.id] || 1.0] *)
Definition weight (id : string) : number :=
  match table_get id RISK_WEIGHTS with
  | Some w => if num_truthy w then w else Fin 1
  | None => Fin 1
  end.

(** The three accumulators [num], [den], [sumWeightScore] of the loop
    over [seen] (lines 112-118); an entry of [seen] is read through its
    [id] and [score] only. *)
Record sums : Type := mk_sums { num : number; den : number; sumWeightScore : number }.

Definition accumulate (acc : sums) (t : string * number) : sums :=
  let w := weight (fst t) in
  mk_sums (num acc + (snd t / Fin 100) * w)%js
          (den acc + w)%js
          (sumWeightScore acc + snd t * w)%js.

Definition overall (seen : list (string * number)) : sums :=
  fold_left accumulate seen (mk_sums (Fin 0) (Fin 0) (Fin 0)).

Definition overall_score (s : sums) : number :=
  Math_round (Fin 100 * (if num_truthy (den s) then num s / den s else Fin 0))%js.

(** The body of the last loop (lines 121-125). *)
Definition contribution (sumWS : number) (t : Tactic.t) : number :=
  let w := weight (Tactic.id t) in
  let part := (Tactic.score t * w)%js in
  if num_gtb sumWS (Fin 0)
  then (Math_round ((part / sumWS) * Fin 1000) / Fin 10)%js
  else Fin 0.

(** [out.tactics.length ? out.tactics : [{ id:"other", score:0 }]], each
    entry as the pair of its [id] and [score]. *)
Definition seen_entries (ts : list Tactic.t) : list (string * number) :=
  match ts with
  | [] => [("other", Fin 0)]
  | _ => map (fun t => (Tactic.id t, Tactic.score t)) ts
  end.

(** The narrative is carried through when it is a string that is not blank. *)
Definition narrative_of (v : value) : value :=
  match v with
  | VStr s => if str_nonempty (trim s) then v else VNull
  | _ => VNull
  end.

(** Receipts: a flat array, or the array under [highlights]. *)
Definition receipts_of (v : value) : list value :=
  match v with
  | VArr l => firstn 30 l
  | _ => match get_opt v "highlights" with
         | VArr l => firstn 30 l
         | _ => []
         end
  end.

(** [function normalizeReport(raw)] *)
Definition normalizeReport (raw : value) : result Report.t :=
  raw_confidence <- get raw "confidence" ;;
  confidence <- clamp (coalesce raw_confidence (VNum (Fin 0.85))) (Fin 0) (Fin 1) ;;
  raw_kpis <- get raw "kpis" ;;
  let kpis := or_else raw_kpis (VObj []) in
  raw_narrative <- get raw "narrative_md" ;;
  let narrative_md := narrative_of raw_narrative in
  raw_tactics <- get raw "tactics" ;;
  let list := match raw_tactics with VArr l => l | _ => [] end in
  out_tactics <- mapM normalizeTactic list ;;
  let acc := overall (seen_entries out_tactics) in
  let risk_score := overall_score acc in
  raw_label <- get raw "risk_label" ;;
  let risk_label := or_else raw_label (VStr (riskLabel risk_score)) in
  let tactics :=
    map (fun t => mk_tactic t (contribution (sumWeightScore acc) t)) out_tactics in
  raw_receipts <- get raw "receipts" ;;
  let receipts := receipts_of raw_receipts in
  Ok (Report.mk risk_score risk_label confidence tactics receipts kpis narrative_md).

(* ================================================================== *)
(** ** The worker's surroundings: documents, external calls *)
(* ================================================================== *)

(** An entry of [job.files]; the worker reads its [path] only. *)
Record file : Type := mk_file { path : string }.

(** [job.error]: the object written for a plan violation, or the
    truncated text written by the last-resort handler. *)
Inductive job_error : Type :=
| ErrorCode (code message : string)
| ErrorText (text : string).

Module Job.
Record t : Type := mk {
  plan : value;
  files : option (list file);      (* [None]: the field is absent *)
  userId : value;
  instructions : value;
  status : string;
  reportId : option string;
  error : option job_error;
  warn : option string
}.

(** The argument of [jobRef.update]: [status] is always written, the
    other fields when present ([updatedAt] is left out). *)
Record patch : Type := mk_patch {
  p_status : string;
  p_reportId : option string;
  p_error : option job_error;
  p_warn : option string
}.

Definition keep {A : Type} (new old : option A) : option A :=
  match new with Some _ => new | None => old end.

Definition update (p : patch) (j : t) : t :=
  mk (plan j) (files j) (userId j) (instructions j)
     (p_status p) (keep (p_reportId p) (reportId j))
     (keep (p_error p) (error j)) (keep (p_warn p) (warn j)).
End Job.

Module ReportDoc.
Record t : Type := mk {
  reportId : string;
  userId : value;
  jobId : string;
  json : Report.t;
  images_deleted : bool
}.

Definition set_images_deleted (b : bool) (r : t) : t :=
  mk (reportId r) (userId r) (jobId r) (json r) b.
End ReportDoc.

(** The awaited calls of the handler, indexed by what they resolve to. *)
Inductive call : Type -> Type :=
| JobGet (id : string) : call (option Job.t)
    (* [jobsCol.doc(id).get()]: the data of the snapshot, [None] when [!exists] *)
| JobUpdate (id : string) (p : Job.patch) : call unit
| ReportSet (id : string) (r : ReportDoc.t) : call unit
| ReportUpdate (id : string) (images_deleted : bool) : call unit
| Preprocess (path : string) : call string
    (* [preprocessImageToBuffer(UPLOAD_BUCKET, path)] *)
| Ocr (buf : string) : call (option string)
    (* [documentTextDetection]: [res.fullTextAnnotation?.text] *)
| ChatCompletion (instr user : string) : call (option string)
    (* [openai.chat.completions.create]: [resp.choices?.[0]?.message?.content] *)
| Delete (path : string) : call unit.
    (* [bucket.file(path).delete({ ignoreNotFound: true })] *)

(** The same calls without their index, as a trace records them. *)
Inductive event : Type :=
| EJobGet (id : string)
| EJobUpdate (id : string) (p : Job.patch)
| EReportSet (id : string) (r : ReportDoc.t)
| EReportUpdate (id : string) (images_deleted : bool)
| EPreprocess (path : string)
| EOcr (buf : string)
| EChatCompletion (instr user : string)
| EDelete (path : string).

Definition event_of {X : Type} (c : call X) : event :=
  match c with
  | JobGet id => EJobGet id
  | JobUpdate id p => EJobUpdate id p
  | ReportSet id r => EReportSet id r
  | ReportUpdate id b => EReportUpdate id b
  | Preprocess p => EPreprocess p
  | Ocr b => EOcr b
  | ChatCompletion i u => EChatCompletion i u
  | Delete p => EDelete p
  end.

(** Work on the images and on their text. *)
Definition downstream (e : event) : bool :=
  match e with
  | EPreprocess _ | EOcr _ | EChatCompletion _ _ | EReportSet _ _
  | EReportUpdate _ _ | EDelete _ => true
  | EJobGet _ | EJobUpdate _ _ => false
  end.

(** *** Programs: awaited calls and exceptions *)

Inductive prog (A : Type) : Type :=
| Return (a : A)
| Raise (e : exn)
| Await {X : Type} (c : call X) (k : result X -> prog A).
Arguments Return {A} a.
Arguments Raise {A} e.
Arguments Await {A X} c k.

Fixpoint pbind {A B : Type} (p : prog A) (f : A -> prog B) : prog B :=
  match p with
  | Return a => f a
  | Raise e => Raise e
  | Await c k => Await c (fun r => pbind (k r) f)
  end.

(** [try { p } catch (e) { h e }] *)
Fixpoint try_catch {A : Type} (p : prog A) (h : exn -> prog A) : prog A :=
  match p with
  | Return a => Return a
  | Raise e => h e
  | Await c k => Await c (fun r => try_catch (k r) h)
  end.

(** [await c]: a rejection is thrown at the [await]. *)
Definition await {X : Type} (c : call X) : prog X :=
  Await c (fun r => match r with Ok x => Return x | Throw e => Raise e end).

(** A promise started and left to settle: the outcome is kept. *)
Definition settle {X : Type} (c : call X) : prog (result X) :=
  Await c (fun r => Return r).

Definition lift {A : Type} (r : result A) : prog A :=
  match r with Ok a => Return a | Throw e => Raise e end.

Notation "x <~ p ;; k" := (pbind p (fun x => k))
  (at level 100, p at next level, right associativity).

(* ================================================================== *)
(** ** The worker (worker/index.js, lines 11-29 and 172-306) *)
(* ================================================================== *)

(** What the process reads from its environment, and the functions of the
    platform the handler calls.  [cleanOcr] (lines 49-58) rewrites a string
    with regular expressions; it is pure and total, and is kept abstract. *)
Record env : Type := mk_env {
  FREE_MAX : number;               (* [parseInt(process.env.FREE_MAX_IMAGES || '3', 10)] *)
  PRO_MAX : number;
  openai : bool;                   (* [OPENAI_API_KEY] is set *)
  DEFAULT_INSTRUCTIONS : string;
  cleanOcr : string -> string;
  b64 : value -> result string;    (* [Buffer.from(str, 'base64').toString('utf8')] *)
  JSON_parse : string -> result value
}.

Definition LF : string := String (ascii_of_nat 10) EmptyString.

(** [function maxForPlan(plan)] *)
Definition maxForPlan (E : env) (plan : value) : number :=
  match plan with
  | VStr s => if String.eqb s "pro" then PRO_MAX E else FREE_MAX E
  | _ => FREE_MAX E
  end.

Fixpoint indexOf (c : ascii) (l : list ascii) : option nat :=
  match l with
  | [] => None
  | d :: r => if Ascii.eqb c d then Some O else option_map S (indexOf c r)
  end.

Fixpoint lastIndexOf (c : ascii) (l : list ascii) : option nat :=
  match l with
  | [] => None
  | d :: r =>
      match lastIndexOf c r with
      | Some i => Some (S i)
      | None => if Ascii.eqb c d then Some O else None
      end
  end.

(** [function extractJson(text)] *)
Definition extractJson (E : env) (text : string) : value :=
  match indexOf "{"%char (chars text), lastIndexOf "}"%char (chars text) with
  | Some s, Some e =>
      if (s <? e)%nat then
        match JSON_parse E (String.substring s (e + 1 - s) text) with
        | Ok v => v
        | Throw _ => VObj []
        end
      else VObj []
  | _, _ => VObj []
  end.

(** [(instructions && String(instructions).trim()) || DEFAULT_INSTRUCTIONS] *)
Definition instructions_text (E : env) (instructions : value) : result string :=
  if truthy instructions
  then s <- ToString instructions ;;
       Ok (if str_nonempty (trim s) then trim s else DEFAULT_INSTRUCTIONS E)
  else Ok (DEFAULT_INSTRUCTIONS E).

(** The content of the user message. *)
Definition user_prompt (ocrText : string) : string :=
  "Analyze the following conversation text and return STRICT JSON only."
    +:+ LF +:+ LF +:+ ocrText.

(** [extractJson(resp.choices?.[0]?.message?.content || "{}") || {}] *)
Definition raw_of_content (E : env) (content : option string) : value :=
  let text := match content with
              | Some c => if str_nonempty c then c else "{}"
              | None => "{}"
              end in
  or_else (extractJson E text) (VObj []).

(** [async function analyzeWithOpenAI({ ocrText, instructions })] *)
Definition analyzeWithOpenAI (E : env) (ocrText : string) (instructions : value)
  : prog Report.t :=
  if negb (openai E) then Raise (Exn "Error" "OPENAI_API_KEY not set")
  else
    instr <~ lift (instructions_text E instructions) ;;
    content <~ await (ChatCompletion instr (user_prompt ocrText)) ;;
    lift (normalizeReport (raw_of_content E content)).

Definition is_ok {A : Type} (r : result A) : bool :=
  match r with Ok _ => true | Throw _ => false end.

(** The promises of [files.map(f => ...delete(...))], all of them started. *)
Fixpoint start_deletes (fs : list file) : prog (list (result unit)) :=
  match fs with
  | [] => Return []
  | f :: r =>
      o <~ settle (Delete (path f)) ;;
      os <~ start_deletes r ;;
      Return (o :: os)
  end.

Definition files_or_empty (files : option (list file)) : list file :=
  match files with Some l => l | None => [] end.

(** [async function purgeImages(files)]: [Promise.all] fulfils when every
    promise does; its rejection is caught and answered by [false]. *)
Definition purgeImages (files : option (list file)) : prog bool :=
  os <~ start_deletes (files_or_empty files) ;;
  Return (forallb is_ok os).

(** The loop over the files (lines 243-253): a file that fails is skipped. *)
Fixpoint ocr_files (fs : list file) (texts : list string) : prog (list string) :=
  match fs with
  | [] => Return texts
  | f :: r =>
      texts' <~ try_catch
                  (buf <~ await (Preprocess (path f)) ;;
                   res <~ await (Ocr buf) ;;
                   Return (texts ++ [match res with Some t => t | None => "" end]))
                  (fun _ => Return texts) ;;
      ocr_files r texts'
  end.

(** [texts.join('\n\n')] *)
Fixpoint join_texts (texts : list string) : string :=
  match texts with
  | [] => ""
  | [t] => t
  | t :: r => t +:+ LF +:+ LF +:+ join_texts r
  end.

Record response : Type := mk_response { status_code : Z; sent : string }.

(** [JSON.parse(b64(data))] followed by [const { jobId } = ...] *)
Definition decode_jobId (E : env) (data : value) : result value :=
  txt <- b64 E data ;;
  d <- JSON_parse E txt ;;
  get d "jobId".

(** [jobsCol.doc(jobId)]: the client library refuses what is not a
    non-empty string (further checks on the path are not modelled). *)
Definition doc (jobId : value) : result string :=
  match jobId with
  | VStr s => if str_nonempty s then Ok s
              else Throw (Exn "Error" "documentPath must be a non-empty string")
  | _ => Throw (Exn "Error" "documentPath must be a non-empty string")
  end.

Definition too_many_files (maxAllowed : number) : Job.patch :=
  Job.mk_patch "error" None
    (Some (ErrorCode "too_many_files" ("max " +:+ NumberToString maxAllowed +:+ " for plan")))
    None.

Definition processing : Job.patch := Job.mk_patch "processing" None None None.

Definition complete (reportId : string) (deleted : bool) : Job.patch :=
  Job.mk_patch "complete" (Some reportId) None
    (if deleted then None else Some "purge_failed_lifecycle_will_cleanup").

(** [String(e.message || e).slice(0, 500)] *)
Definition diagnostic (e : exn) : string :=
  slice0 500 (if str_nonempty (exn_message e) then exn_message e else exn_name e).

Definition failed (e : exn) : Job.patch :=
  Job.mk_patch "error" None (Some (ErrorText (diagnostic e))) None.

(** The [try] block of the handler (lines 219-289). *)
Definition main (E : env) (body : value) : prog response :=
  let msg := get_opt body "message" in
  if negb (truthy msg) || negb (truthy (get_opt msg "data"))
  then Return (mk_response 200 "no-message")
  else
    jobId <~ lift (decode_jobId E (get_opt msg "data")) ;;
    id <~ lift (doc jobId) ;;
    snap <~ await (JobGet id) ;;
    match snap with
    | None => Return (mk_response 200 "job-not-found")
    | Some job =>
        let maxAllowed := maxForPlan E (Job.plan job) in
        let files := files_or_empty (Job.files job) in
        if num_gtb (num_of_nat (length files)) maxAllowed then
          _ <~ await (JobUpdate id (too_many_files maxAllowed)) ;;
          Return (mk_response 200 "ok")
        else
          _ <~ await (JobUpdate id processing) ;;
          texts <~ ocr_files files [] ;;
          let ocrCombined := cleanOcr E (join_texts texts) in
          reportJson <~ analyzeWithOpenAI E
                          (if str_nonempty ocrCombined then ocrCombined
                           else "NO_TEXT_EXTRACTED")
                          (Job.instructions job) ;;
          _ <~ await (ReportSet id
                        (ReportDoc.mk id (or_else (Job.userId job) VNull) id reportJson false)) ;;
          deleted <~ purgeImages (Job.files job) ;;
          _ <~ await (JobUpdate id (complete id deleted)) ;;
          _ <~ (if deleted : bool then await (ReportUpdate id true) else Return tt) ;;
          Return (mk_response 200 "ok")
    end.

(** The [catch] block of the handler (lines 290-305). *)
Definition recover (E : env) (body : value) (e : exn) : prog response :=
  _ <~ try_catch
         (let data := get_opt (get_opt body "message") "data" in
          jobId <~ lift (if truthy data then decode_jobId E data else Ok VUndefined) ;;
          if truthy jobId then
            id <~ lift (doc jobId) ;;
            await (JobUpdate id (failed e))
          else Return tt)
         (fun _ => Return tt) ;;
  Return (mk_response 200 "ok").

(** [app.post('/_pubsub/analyze', async (req, res) => ...)], on [req.body]. *)
Definition handler (E : env) (body : value) : prog response :=
  try_catch (main E body) (recover E body).

(** *** The document store and the external services *)

Inductive deletion : Type :=
| Deleted
| NotFound
| DeleteFailed (e : exn).

(** How the surroundings answer during one run.  [fault n] makes the call
    number [n] of the run reject when it addresses the document store. *)
Record service : Type := mk_service {
  fault : nat -> option exn;
  preprocess : string -> result string;
  ocr : string -> result (option string);
  chat : string -> string -> result (option string);
  remove : string -> deletion
}.

Record world : Type := mk_world {
  jobs : gmap string Job.t;
  reports : gmap string ReportDoc.t
}.

Record state : Type := mk_state { docs : world; trace : list event }.

Definition NOT_FOUND : exn := Exn "Error" "5 NOT_FOUND: No document to update".

Definition store {X : Type} (sv : service) (st : state) (op : world -> result X * world)
  : result X * world :=
  match fault sv (length (trace st)) with
  | Some e => (Throw e, docs st)
  | None => op (docs st)
  end.

Definition perform {X : Type} (sv : service) (st : state) (c : call X) : result X * world :=
  match c in call X return result X * world with
  | JobGet id => store sv st (fun w => (Ok (jobs w !! id), w))
  | JobUpdate id p =>
      store sv st (fun w =>
        match jobs w !! id with
        | Some j => (Ok tt, mk_world (<[id := Job.update p j]> (jobs w)) (reports w))
        | None => (Throw NOT_FOUND, w)
        end)
  | ReportSet id r =>
      store sv st (fun w => (Ok tt, mk_world (jobs w) (<[id := r]> (reports w))))
  | ReportUpdate id b =>
      store sv st (fun w =>
        match reports w !! id with
        | Some r => (Ok tt, mk_world (jobs w)
                              (<[id := ReportDoc.set_images_deleted b r]> (reports w)))
        | None => (Throw NOT_FOUND, w)
        end)
  | Preprocess p => (preprocess sv p, docs st)
  | Ocr b => (ocr sv b, docs st)
  | ChatCompletion i u => (chat sv i u, docs st)
  | Delete p =>
      (match remove sv p with
       | Deleted | NotFound => Ok tt        (* [ignoreNotFound: true] *)
       | DeleteFailed e => Throw e
       end, docs st)
  end.

Fixpoint run {A : Type} (sv : service) (p : prog A) (st : state) : result A * state :=
  match p with
  | Return a => (Ok a, st)
  | Raise e => (Throw e, st)
  | Await c k =>
      let (r, w) := perform sv st c in
      run sv (k r) (mk_state w (trace st ++ [event_of c]))
  end.

(* ================================================================== *)
(** ** Regular expressions and the string methods that take one *)
(* ================================================================== *)

Definition is_char (c : ascii) : ascii -> bool := Ascii.eqb c.

Definition is_blank (c : ascii) : bool := is_char " "%char c || (code c =? 9)%N.

Definition is_newline (c : ascii) : bool := (code c =? 10)%N.

Module Re.

(** A position in a text: the code unit before it ([None] at the start)
    and the text from it on. *)
Definition position : Type := option ascii * list ascii.

(** A pattern, as the backtracking matcher runs it: from a position, the
    positions at which a match may end, in the order in which the matcher
    reaches them.  The first one is the match. *)
Definition pattern : Type := position -> list position.

(** One code unit of a class. *)
Definition lit (p : ascii -> bool) : pattern :=
  fun x => match snd x with
           | c :: r => if p c then [(Some c, r)] else []
           | [] => []
           end.

Definition eps : pattern := fun x => [x].

Definition fail : pattern := fun _ => [].

(** [ab] *)
Definition seq (a b : pattern) : pattern := fun x => flat_map b (a x).

(** [a|b] *)
Definition alt (a b : pattern) : pattern := fun x => a x ++ b x.

(** [a?], greedy *)
Definition opt (a : pattern) : pattern := alt a eps.

(** [c*] on a class, greedy: the longest run first. *)
Fixpoint many_from (p : ascii -> bool) (prev : option ascii) (l : list ascii) : list position :=
  match l with
  | c :: r => if p c then many_from p (Some c) r ++ [(prev, l)] else [(prev, l)]
  | [] => [(prev, l)]
  end.

Definition many (p : ascii -> bool) : pattern := fun x => many_from p (fst x) (snd x).

(** [c{n,}] on a class *)
Fixpoint at_least (n : nat) (p : ascii -> bool) : pattern :=
  match n with
  | O => many p
  | S k => seq (lit p) (at_least k p)
  end.

(** [\b]: a word character on one side only. *)
Definition word_boundary : pattern :=
  fun x =>
    let before := match fst x with Some c => is_word c | None => false end in
    let after := match snd x with c :: _ => is_word c | [] => false end in
    if xorb before after then [x] else [].

Definition seqs (ps : list pattern) : pattern := fold_right seq eps ps.

Definition alts (ps : list pattern) : pattern := fold_right alt fail ps.

(** A code unit of the pattern under the flag [i]: a letter matches in
    both cases. *)
Definition letter (c : ascii) : pattern :=
  lit (fun d => Ascii.eqb (upper_word_char d) (upper_word_char c)).

(** A literal text under the flag [i]. *)
Definition phrase (w : string) : pattern := seqs (map letter (chars w)).

(** How far the match at a position reaches, in code units. *)
Definition match_length (re : pattern) (x : position) : option nat :=
  match re x with
  | y :: _ => Some (length (snd x) - length (snd y))%nat
  | [] => None
  end.

End Re.

(** [s.replace(re, by)] for a global [re] and a text [by] without [$]:
    the text is scanned from the left; at a match the replacement is
    written and the scan goes on behind the match (one code unit further
    when the match is empty).  [skip] counts the code units of a match that
    are still to be passed. *)
Fixpoint replace_from (re : Re.pattern) (by_ : list ascii) (prev : option ascii) (skip : nat)
                      (l : list ascii) : list ascii :=
  match skip with
  | S k =>
      match l with
      | c :: r => replace_from re by_ (Some c) k r
      | [] => []
      end
  | O =>
      match Re.match_length re (prev, l), l with
      | Some (S n), c :: r => by_ ++ replace_from re by_ (Some c) n r
      | Some _, c :: r => by_ ++ c :: replace_from re by_ (Some c) 0 r
      | Some _, [] => by_
      | None, c :: r => c :: replace_from re by_ (Some c) 0 r
      | None, [] => []
      end
  end.

Definition replace (re : Re.pattern) (by_ : string) (s : string) : string :=
  str (replace_from re (chars by_) None 0 (chars s)).

(** [s.split(re)] for a text that is not empty: the pieces between the
    matches of [re], sought from the left at one position after the other.
    [cur] holds the piece under way, last code unit first; [skip] counts
    the code units of a match that are still to be passed. *)
Fixpoint split_from (re : Re.pattern) (prev : option ascii) (skip : nat) (cur l : list ascii)
  : list (list ascii) :=
  match skip with
  | S k =>
      match l with
      | c :: r => split_from re (Some c) k cur r
      | [] => [rev cur]
      end
  | O =>
      match l with
      | [] => [rev cur]
      | c :: r =>
          match Re.match_length re (prev, l), cur with
          | Some (S n), _ => rev cur :: split_from re (Some c) n [] r
          | Some O, _ :: _ => rev cur :: split_from re (Some c) 0 [c] r
          | Some O, [] => split_from re (Some c) 0 [c] r
          | None, _ => split_from re (Some c) 0 (c :: cur) r
          end
      end
  end.

(** [s.split(re)] *)
Definition split (re : Re.pattern) (s : string) : list string :=
  match chars s with
  | [] => match Re.match_length re (None, []) with Some _ => [] | None => [""] end
  | l => map str (split_from re None 0 [] l)
  end.

(* ================================================================== *)
(** ** The cleaning of the OCR text (worker/index.js, lines 49-58) *)
(* ================================================================== *)

(** [/\b(Messages|iMessage|Text Message|Delivered|Read)\b/gi] *)
Definition re_labels : Re.pattern :=
  Re.seqs [ Re.word_boundary;
            Re.alts [Re.phrase "Messages"; Re.phrase "iMessage"; Re.phrase "Text Message";
                     Re.phrase "Delivered"; Re.phrase "Read"];
            Re.word_boundary ].

(** [/\b(Today|Yesterday)\b/gi] *)
Definition re_days : Re.pattern :=
  Re.seqs [ Re.word_boundary; Re.alts [Re.phrase "Today"; Re.phrase "Yesterday"];
            Re.word_boundary ].

(** [/\b([0-1]?\d:[0-5]\d\s?(AM|PM))\b/gi] *)
Definition re_times : Re.pattern :=
  Re.seqs [ Re.word_boundary;
            Re.opt (Re.lit (in_range 48 49)); Re.lit is_digit; Re.lit (is_char ":"%char);
            Re.lit (in_range 48 53); Re.lit is_digit;
            Re.opt (Re.lit is_white); Re.alts [Re.phrase "AM"; Re.phrase "PM"];
            Re.word_boundary ].

(** [/[ \t]+\n/g] *)
Definition re_line_ends : Re.pattern := Re.seqs [ Re.at_least 1 is_blank; Re.lit is_newline ].

(** [/\n{3,}/g] *)
Definition re_blank_lines : Re.pattern := Re.at_least 3 is_newline.

Module OcrHelpers.

(** [function cleanOcr(s)]; the handler reaches it through the field
    [cleanOcr] of its environment. *)
Definition cleanOcr (s : string) : string :=
  if negb (str_nonempty s) then ""
  else trim (replace re_blank_lines (LF +:+ LF)
            (replace re_line_ends LF
            (replace re_times " "
            (replace re_days " "
            (replace re_labels " " s))))).

End OcrHelpers.

(* ================================================================== *)
(** ** The timeline of the earlier worker (worker/index.js, lines 356-363) *)
(* ================================================================== *)

(** [/\n{2,}/] *)
Definition re_paragraphs : Re.pattern := Re.at_least 2 is_newline.

Module Turn.
Record t : Type := mk {
  turn_id : number;
  speaker : string;
  text : string
}.
End Turn.

(** [lines.map((text, i) => f(i, text))], the count starting at [i]. *)
Fixpoint map_indexed {A B : Type} (f : nat -> A -> B) (i : nat) (l : list A) : list B :=
  match l with
  | [] => []
  | a :: r => f i a :: map_indexed f (S i) r
  end.

(** [function normalizeTimeline(fullText)] *)
Definition normalizeTimeline (fullText : string) : list Turn.t :=
  let lines := List.filter str_nonempty (map trim (split re_paragraphs fullText)) in
  map_indexed (fun i text => Turn.mk (num_of_nat (i + 1)) "unknown" text) 0 lines.

(* ================================================================== *)
(** ** Vocabulary of the statements *)
(* ================================================================== *)

(** Equality of numbers, rationals being compared by value. *)
Definition num_eq (a b : number) : Prop :=
  match a, b with
  | NaN, NaN | PosInf, PosInf | NegInf, NegInf => True
  | Fin x, Fin y => (x == y)%Q
  | _, _ => False
  end.

(** A finite number of the interval [lo, hi]. *)
Definition within (lo hi : Q) (a : number) : Prop :=
  exists q, a = Fin q /\ (lo <= q <= hi)%Q.

(** An integer of the interval [lo, hi]. *)
Definition integer_within (lo hi : Z) (a : number) : Prop :=
  exists z, a = num_of_Z z /\ lo <= z <= hi.

(** [y] is [x] clamped to [lo, hi]. *)
Definition clamped_to (lo hi : Q) (x y : number) : Prop :=
  within lo hi y
  /\ (num_ltb x (Fin lo) = true -> y = Fin lo)
  /\ (num_ltb (Fin hi) x = true -> y = Fin hi)
  /\ (num_leb (Fin lo) x = true -> num_leb x (Fin hi) = true -> num_eq y x).

(** A field that holds a number, or holds nothing ([null], absent). *)
Definition numeric (v : value) : bool :=
  match v with
  | VUndefined | VNull => true
  | VNum NaN => false
  | VNum _ => true
  | _ => false
  end.

(** A field that holds a primitive value, or holds nothing. *)
Definition primitive (v : value) : bool :=
  match v with
  | VArr _ | VObj _ => false
  | _ => true
  end.

(** A field that holds an array, or holds nothing. *)
Definition array_or_nothing (v : value) : bool :=
  match v with
  | VUndefined | VNull | VArr _ => true
  | _ => false
  end.

(** A field that holds an object, or holds nothing. *)
Definition object_or_nothing (v : value) : bool :=
  match v with
  | VUndefined | VNull | VObj _ => true
  | _ => false
  end.

(** An entry of [tactics] as the classification schema types its fields:
    the entry is there, its numeric fields are numbers, its examples an
    array, its labels primitive; every field may be missing. *)
Definition typed_entry (t : value) : bool :=
  negb (nullish t)
  && primitive (prop t "id") && primitive (prop t "name")
  && numeric (prop t "likelihood") && numeric (prop t "p")
  && numeric (prop t "severity") && numeric (prop t "frequency")
  && array_or_nothing (prop t "examples").

Definition typed_tactics (v : value) : bool :=
  match v with
  | VArr l => forallb typed_entry l
  | _ => true
  end.

(** A raw report as the classification schema types it, any field missing. *)
Definition typed_report (raw : value) : bool :=
  negb (nullish raw)
  && numeric (prop raw "confidence")
  && object_or_nothing (prop raw "kpis")
  && typed_tactics (prop raw "tactics").

(** The number a numeric field supplies, [d] when it holds nothing. *)
Definition number_or (v : value) (d : number) : number :=
  match v with VNum x => x | _ => d end.

(** The count of the examples an entry provides. *)
Definition examples_count (t : value) : number :=
  match prop t "examples" with
  | VArr l => num_of_nat (length l)
  | _ => Fin 0
  end.

(** The score of the specification, on rationals:
    round(40 l + 35 (s - 1)/4 + 25 min(1, f/5)). *)
Definition spec_score (l s f : Q) : Z :=
  Qfloor (40 * l + 35 * ((s - 1) / 4) + 25 * Qmin 1 (f / 5) + (1 # 2))%Q.

(** The weight table of the specification. *)
Definition spec_weight (id : string) : Q :=
  if String.eqb id "threats" then 1.40
  else if String.eqb id "coercion" then 1.30
  else if String.eqb id "gaslighting" then 1.20
  else if String.eqb id "darvo" then 1.10
  else if String.eqb id "contempt" then 1.05
  else if String.eqb id "stonewalling" then 0.95
  else 1.00.

Definition Qsum (l : list Q) : Q := fold_right Qplus 0%Q l.

(** The weighted average of the specification, as a percentage:
    round(100 * sum (score_i / 100 * w_i) / sum w_i). *)
Definition spec_average (l : list (string * Q)) : Z :=
  Qfloor (100 * (Qsum (map (fun t => snd t / 100 * spec_weight (fst t)) l)
                 / Qsum (map (fun t => spec_weight (fst t)) l)) + (1 # 2))%Q.

(** What normalisation makes of an entry typed as the schema says. *)
Definition entry_contract (t : value) : Prop :=
  exists (o : Tactic.t) (l s f : Q),
    normalizeTactic t = Ok o
    /\ Tactic.likelihood o = Fin l /\ Tactic.severity o = Fin s
    /\ Tactic.frequency o = Fin f
    /\ clamped_to 0 1
         (number_or (prop t "likelihood") (number_or (prop t "p") (Fin 0))) (Fin l)
    /\ clamped_to 1 5 (number_or (prop t "severity") (Fin 3)) (Fin s)
    /\ clamped_to 0 5 (number_or (prop t "frequency") (examples_count t)) (Fin f)
    /\ Tactic.examples o
       = firstn 5 (match prop t "examples" with VArr ex => ex | _ => [] end)
    /\ (length (Tactic.examples o) <= 5)%nat
    /\ Tactic.score o = num_of_Z (spec_score l s f)
    /\ (0 <= spec_score l s f <= 100)%Z.

(** The identifiers an output tactic may carry. *)
Definition output_ids : list string := "other" :: TACTIC_IDS.

(** The value of a number that is finite (0 otherwise). *)
Definition num_value (a : number) : Q :=
  match a with Fin q => q | _ => 0%Q end.

(** The report [normalizeReport] returns, given the clamped confidence and
    the objects of the tactics. *)
Definition assemble (raw : value) (c : number) (objs : list Tactic.t) : Report.t :=
  let acc := overall (seen_entries objs) in
  Report.mk (overall_score acc)
            (or_else (prop raw "risk_label") (VStr (riskLabel (overall_score acc))))
            c
            (map (fun t => mk_tactic t (contribution (sumWeightScore acc) t)) objs)
            (receipts_of (prop raw "receipts"))
            (or_else (prop raw "kpis") (VObj []))
            (narrative_of (prop raw "narrative_md")).

Definition raw_entries (raw : value) : list value :=
  match prop raw "tactics" with VArr l => l | _ => [] end.

(** A list of (id, score) pairs with rational scores, as the loop reads it. *)
Definition as_seen (l : list (string * Q)) : list (string * number) :=
  map (fun t => (fst t, Fin (snd t))) l.

(** Objects whose scores are all numbers. *)
Definition scored (objs : list Tactic.t) : Prop :=
  Forall (fun o => Tactic.score o <> NaN) objs.

(** The (id, score) pairs of a list of objects, scores as rationals. *)
Definition entries_of (objs : list Tactic.t) : list (string * Q) :=
  map (fun o => (Tactic.id o, num_value (Tactic.score o))) objs.

(** The sum of score times weight over (id, score) pairs. *)
Definition total_weighted (es : list (string * Q)) : Q :=
  Qsum (map (fun t => (snd t * spec_weight (fst t))%Q) es).

(** The share of the specification, in percent, to one decimal:
    round(1000 * score * weight / total) / 10. *)
Definition spec_share (total : Q) (id : string) (score : Q) : Q :=
  (inject_Z (Qfloor (score * spec_weight id / total * 1000 + (1 # 2))) / 10)%Q.







Definition with_contributions (s : number) (objs : list Tactic.t) : list tactic :=
  map (fun o => mk_tactic o (contribution s o)) objs.

(** The answer of a call and the state after it. *)
Definition after {X : Type} (sv : service) (st : state) (c : call X) : result X * state :=
  (fst (perform sv st c), mk_state (snd (perform sv st c)) (trace st ++ [event_of c])).


(** [msg.data] of the request body. *)
Definition message_data (body : value) : value :=
  get_opt (get_opt body "message") "data".

(** The message decodes to the identifier [id] of a job document. *)
Definition carries (E : env) (body : value) (id : string) : Prop :=
  truthy (message_data body) = true
  /\ decode_jobId E (message_data body) = Ok (VStr id)
  /\ str_nonempty id = true.

(** An identifier of one path segment: it holds no slash, so that
    [jobsCol.doc(id)] is the path of a document of the collection. *)
Definition plain_id (id : string) : bool :=
  forallb (fun c => negb (Ascii.eqb c "/"%char)) (chars id).

(** The job has more files than its plan allows. *)
Definition over_limit (E : env) (job : Job.t) : bool :=
  num_gtb (num_of_nat (length (files_or_empty (Job.files job))))
          (maxForPlan E (Job.plan job)).

(** The texts the loop over the files collects, given the answers of the
    services. *)
Fixpoint extracted (sv : service) (fs : list file) (texts : list string) : list string :=
  match fs with
  | [] => texts
  | f :: r =>
      extracted sv r
        match preprocess sv (path f) with
        | Ok buf =>
            match ocr sv buf with
            | Ok res => texts ++ [match res with Some t => t | None => "" end]
            | Throw _ => texts
            end
        | Throw _ => texts
        end
  end.

(** The text handed to the classification. *)
Definition ocr_text (E : env) (sv : service) (job : Job.t) : string :=
  let cleaned := cleanOcr E (join_texts (extracted sv (files_or_empty (Job.files job)) [])) in
  if str_nonempty cleaned then cleaned else "NO_TEXT_EXTRACTED".

(** What [analyzeWithOpenAI] yields, given the answers of the services. *)
Definition classified (E : env) (sv : service) (ocrText : string) (instructions : value)
  : result Report.t :=
  if negb (openai E) then Throw (Exn "Error" "OPENAI_API_KEY not set")
  else
    instr <- instructions_text E instructions ;;
    content <- chat sv instr (user_prompt ocrText) ;;
    normalizeReport (raw_of_content E content).

(** The deletion of a file succeeds or reports not-found. *)
Definition deletion_ok (sv : service) (f : file) : bool :=
  match remove sv (path f) with
  | Deleted | NotFound => true
  | DeleteFailed _ => false
  end.

Definition purge_ok (sv : service) (files : option (list file)) : bool :=
  forallb (deletion_ok sv) (files_or_empty files).

(** [Math.max(lo, Math.min(hi, x))] on rationals. *)
Definition clampQ (lo hi x : Q) : Q := Qmax lo (Qmin hi x).


(** The length of the run of code units of a class at the head of a text. *)
Fixpoint leading (p : ascii -> bool) (l : list ascii) : nat :=
  match l with
  | c :: r => if p c then S (leading p r) else O
  | [] => O
  end.

(** No run of [n] code units of a class anywhere in a text. *)
Fixpoint no_run (n : nat) (p : ascii -> bool) (l : list ascii) : bool :=
  match l with
  | c :: r => (leading p l <? n)%nat && no_run n p r
  | [] => true
  end.

Definition starts_with (p : ascii -> bool) (l : list ascii) : bool :=
  match l with c :: _ => p c | [] => false end.

(** Nowhere in a text does a line feed follow a space or a tab. *)
Fixpoint tidy_line_ends (l : list ascii) : bool :=
  match l with
  | c :: r => negb (is_blank c && starts_with is_newline r) && tidy_line_ends r
  | [] => true
  end.

(** Every match of a pattern is at least [n] code units long. *)
Definition consumes (n : nat) (re : Re.pattern) : Prop :=
  forall x y, In y (re x) -> (length (snd y) + n <= length (snd x))%nat.

(** A run of spaces and tabs that ends a line stands at the head of a text. *)
Definition line_end_at (l : list ascii) : bool :=
  (0 <? leading is_blank l)%nat && starts_with is_newline (skipn (leading is_blank l) l).

(** The lower-case form of a code unit, letters a-z only. *)
Definition lower_word_char (c : ascii) : ascii :=
  if is_upper c then ascii_of_N (code c + 32) else c.

(** The spellings of a text that differ in the case of its letters only. *)
Fixpoint casings (l : list ascii) : list (list ascii) :=
  match l with
  | [] => [[]]
  | c :: r =>
      flat_map (fun t => [upper_word_char c :: t; lower_word_char (upper_word_char c) :: t])
               (casings r)
  end.

(** Two texts that differ in the case of their letters only. *)
Definition same_letters (u w : string) : Prop :=
  map upper_word_char (chars u) = map upper_word_char (chars w).

(** The labels and the day words [cleanOcr] removes. *)
Definition phone_words : list string :=
  ["Messages"; "iMessage"; "Text Message"; "Delivered"; "Read"; "Today"; "Yesterday"].

(** The code units of a text that are no white space. *)
Definition visible (l : list ascii) : list ascii :=
  List.filter (fun c => negb (is_white c)) l.

(** The texts read from one file: one when preprocessing and OCR both
    succeed, none otherwise. *)
Definition readable (sv : service) (f : file) : list string :=
  match preprocess sv (path f) with
  | Ok buf =>
      match ocr sv buf with
      | Ok res => [match res with Some t => t | None => "" end]
      | Throw _ => []
      end
  | Throw _ => []
  end.

(** The calls of the loop over the files. *)
Fixpoint ocr_events (sv : service) (fs : list file) : list event :=
  match fs with
  | [] => []
  | f :: r =>
      EPreprocess (path f)
      :: match preprocess sv (path f) with
         | Ok buf => [EOcr buf]
         | Throw _ => []
         end ++ ocr_events sv r
  end.

(** The call of [analyzeWithOpenAI], when it comes to it. *)
Definition chat_events (E : env) (text : string) (instructions : value) : list event :=
  if openai E then
    match instructions_text E instructions with
    | Ok instr => [EChatCompletion instr (user_prompt text)]
    | Throw _ => []
    end
  else [].

(** The document of the store an event addresses. *)
Definition store_id (e : event) : option string :=
  match e with
  | EJobGet id | EJobUpdate id _ | EReportSet id _ | EReportUpdate id _ => Some id
  | _ => None
  end.

(** Every call a program may await satisfies [P]. *)
Inductive awaits_only {A : Type} (P : event -> Prop) : prog A -> Prop :=
| ao_return (a : A) : awaits_only P (Return a)
| ao_raise (e : exn) : awaits_only P (Raise e)
| ao_await {X : Type} (c : call X) (k : result X -> prog A) :
    P (event_of c) -> (forall r, awaits_only P (k r)) -> awaits_only P (Await c k).

(** The report of an empty classification. *)
Definition empty_report : Report.t :=
  Report.mk (Fin 0) (VStr "low") (Fin 0.85) [] [] (VObj []) VNull.

(** A tactic of a report, as the object the worker stores. *)
Definition tactic_value (t : tactic) : value :=
  VObj [ ("id", VStr (Tactic.id t)); ("name", Tactic.name t);
         ("likelihood", VNum (Tactic.likelihood t)); ("severity", VNum (Tactic.severity t));
         ("frequency", VNum (Tactic.frequency t)); ("examples", VArr (Tactic.examples t));
         ("score", VNum (Tactic.score t)); ("contribution_pct", VNum (contribution_pct t)) ].

(** A report, as the object the worker stores. *)
Definition report_value (r : Report.t) : value :=
  VObj [ ("risk_score", VNum (Report.risk_score r)); ("risk_label", Report.risk_label r);
         ("confidence", VNum (Report.confidence r));
         ("tactics", VArr (map tactic_value (Report.tactics r)));
         ("receipts", VArr (Report.receipts r)); ("kpis", Report.kpis r);
         ("narrative_md", Report.narrative_md r) ].

(* ================================================================== *)
(** ** Sample data *)
(* ================================================================== *)

(** An entry with an out-of-range likelihood and severity, no frequency and
    seven examples. *)
Definition sample_entry : value :=
  VObj [ ("id", VStr "Threats"); ("likelihood", VNum (Fin 1.7)); ("severity", VNum (Fin 0));
         ("examples", VArr (map VStr ["a"; "b"; "c"; "d"; "e"; "f"; "g"])) ].

(** A report with a [null] field, out-of-range numbers and missing fields. *)
Definition sample_report : value :=
  VObj [ ("confidence", VNum (Fin 7)); ("kpis", VNull);
         ("tactics", VArr [ sample_entry; VObj [("name", VStr "Gaslighting");
                                                ("likelihood", VNum (Fin (-3)));
                                                ("frequency", VNum (Fin 99))];
                            VObj [] ]) ].

(** Seven entries, two of them equal. *)
Definition seven_entries : value :=
  VObj [("tactics", VArr [ VObj [("id", VStr "threats")]; VObj [("id", VStr "threats")];
                           VObj [("id", VStr "darvo")]; VObj []; VObj [("p", VNum (Fin 1))];
                           VObj [("id", VStr "contempt")]; VObj [("name", VStr "x")] ])].


(** In the samples the decoding of the platform is replaced by a stand-in:
    the data of a message is the identifier itself, and every text parses
    to an object holding it. *)
Definition sample_env : env :=
  mk_env (Fin 3) (Fin 15) true "Return STRICT JSON only." trim
         (fun v => match v with
                   | VStr s => Ok s
                   | _ => Throw (TypeError "The first argument must be of type string")
                   end)
         (fun s => Ok (VObj [("jobId", VStr s)])).

Definition body_for (id : string) : value :=
  VObj [("message", VObj [("data", VStr id)])].

Definition sample_job (paths : list string) : Job.t :=
  Job.mk (VStr "free") (Some (map mk_file paths)) VNull VUndefined "uploaded" None None None.

Definition job_small : Job.t := sample_job ["a.png"; "gone.png"].

Definition job_big : Job.t := sample_job ["a.png"; "b.png"; "c.png"; "d.png"].

Definition job_locked : Job.t := sample_job ["a.png"; "locked.png"].

Definition sample_state : state :=
  mk_state (mk_world (<["job-1" := job_small]> (<["job-2" := job_big]>
                        (<["job-3" := job_locked]> empty))) empty) [].

(** Every service answers; one file is gone already, one cannot be deleted. *)
Definition sample_service : service :=
  mk_service (fun _ => None) (fun p => Ok p) (fun b => Ok (Some b))
             (fun _ _ => Ok (Some "{}"))
             (fun p => if String.eqb p "gone.png" then NotFound
                       else if String.eqb p "locked.png"
                            then DeleteFailed (Exn "Error" "403 Forbidden")
                            else Deleted).



(** Entries labelled by an identifier in capitals, by a name only, by an
    identifier outside the taxonomy, and by a number with an empty name. *)
Definition labelled_entries : value :=
  VObj [("tactics", VArr [ VObj [("id", VStr "Blame-Shifting")];
                           VObj [("name", VStr "DARVO")];
                           VObj [("id", VStr "love_bombing")];
                           VObj [("id", VNum (Fin 7)); ("name", VStr "")] ])].

(** An entry whose frequency is a word. *)
Definition unread_frequency : value :=
  VObj [("tactics", VArr [ VObj [("id", VStr "threats"); ("frequency", VStr "often")];
                           VObj [("id", VStr "darvo"); ("likelihood", VNum (Fin 1))] ])].

(** Three entries, with the scores 58, 65 and 40. *)
Definition scores_40_to_65 : value :=
  VObj [("tactics", VArr [ VObj [("id", VStr "threats"); ("likelihood", VNum (Fin 1))];
                           VObj [("id", VStr "darvo"); ("likelihood", VNum (Fin 0.5));
                                 ("severity", VNum (Fin 5)); ("frequency", VNum (Fin 2))];
                           VObj [("likelihood", VNum (Fin 0.55))] ])].

(** The worker's own text cleaning in the sample environment. *)
Definition worker_env : env :=
  mk_env (FREE_MAX sample_env) (PRO_MAX sample_env) true (DEFAULT_INSTRUCTIONS sample_env)
         OcrHelpers.cleanOcr (b64 sample_env) (JSON_parse sample_env).

(** The same without an API key. *)
Definition keyless_env : env :=
  mk_env (FREE_MAX sample_env) (PRO_MAX sample_env) false (DEFAULT_INSTRUCTIONS sample_env)
         OcrHelpers.cleanOcr (b64 sample_env) (JSON_parse sample_env).

(** One image cannot be fetched, the text of another cannot be read. *)
Definition patchy_service : service :=
  mk_service (fun _ => None)
             (fun p => if String.eqb p "gone.png" then Throw (Exn "Error" "No such object")
                       else Ok p)
             (fun b => if String.eqb b "b.png" then Throw (Exn "Error" "13 INTERNAL")
                       else Ok (Some (b +:+ " Delivered")))
             (fun _ _ => Ok (Some "{}"))
             (fun _ => Deleted).

(** No image holds a text. *)
Definition wordless_service : service :=
  mk_service (fun _ => None) (fun p => Ok p) (fun _ => Ok None)
             (fun _ _ => Ok (Some "{}")) (fun _ => Deleted).

(* ================================================================== *)
(** ** Numbers: facts *)
(* ================================================================== *)

Lemma num_eq_refl (a : number) : num_eq a a.
Proof. destruct a; simpl; auto with qarith. Qed.

Lemma Qis_zero_true (q : Q) : Qis_zero q = true <-> (q == 0)%Q.
Proof. unfold Qis_zero. apply Qeq_bool_iff. Qed.

Lemma Qis_zero_false (q : Q) : Qis_zero q = false <-> ~ (q == 0)%Q.
Proof.
  rewrite <- Qis_zero_true. destruct (Qis_zero q); split; congruence.
Qed.

Lemma Qle_bool_false (x y : Q) : Qle_bool x y = false <-> (y < x)%Q.
Proof.
  destruct (Qle_bool x y) eqn:E.
  - apply Qle_bool_iff in E. split; [discriminate|]. intros H. lra.
  - split; [intros _|reflexivity]. apply Qnot_le_lt. intros H.
    apply Qle_bool_iff in H. congruence.
Qed.

Ltac qbool :=
  repeat match goal with
  | H : Qle_bool _ _ = true |- _ => apply Qle_bool_iff in H
  | H : Qle_bool _ _ = false |- _ => apply Qle_bool_false in H
  | H : negb _ = true |- _ => apply negb_true_iff in H
  | H : negb _ = false |- _ => apply negb_false_iff in H
  | H : context [Qle_bool ?a ?b] |- _ => destruct (Qle_bool a b) eqn:?; simpl in H
  | |- context [Qle_bool ?a ?b] => destruct (Qle_bool a b) eqn:?; simpl
  end.

Section NumberFacts.
Local Open Scope Q_scope.

Lemma num_leb_Fin (x y : Q) : num_leb (Fin x) (Fin y) = true <-> x <= y.
Proof. apply Qle_bool_iff. Qed.

Lemma num_ltb_Fin (x y : Q) : num_ltb (Fin x) (Fin y) = true <-> x < y.
Proof.
  simpl. rewrite negb_true_iff. apply Qle_bool_false.
Qed.

(** [Math.max(lo, Math.min(hi, x))] clamps whatever is not [NaN]. *)
Lemma max_min_clamps (lo hi : Q) (x : number) :
  lo <= hi -> x <> NaN ->
  clamped_to lo hi x (Math_max (Fin lo) (Math_min (Fin hi) x)).
Proof.
  intros Hlh Hx. unfold clamped_to, within.
  destruct x as [| | |q]; try congruence; simpl; qbool;
    repeat split; intros; simpl; qbool;
    try discriminate; try lra; try (f_equal; lra); eauto;
    try (eexists; split; [reflexivity|lra]).
Qed.

(** Whatever [x] is, the clamp yields [NaN] or a number of the interval. *)
Lemma max_min_range (lo hi : Q) (x : number) :
  lo <= hi ->
  Math_max (Fin lo) (Math_min (Fin hi) x) = NaN
  \/ within lo hi (Math_max (Fin lo) (Math_min (Fin hi) x)).
Proof.
  intros Hlh. destruct x as [| | |q]; [left; reflexivity| | |];
    right; apply max_min_clamps; congruence.
Qed.

Lemma round_between (q : Q) (a b : Z) :
  inject_Z a <= q -> q <= inject_Z b -> (a <= Qfloor (q + (1 # 2)) <= b)%Z.
Proof.
  intros Ha Hb. split.
  - rewrite <- (Qfloor_Z a). apply Qfloor_resp_le. lra.
  - assert (H := Qfloor_le (q + (1 # 2))).
    assert (H0 : inject_Z (Qfloor (q + (1 # 2))) < inject_Z (b + 1)).
    { rewrite inject_Z_plus. change (inject_Z 1) with 1. lra. }
    rewrite <- Zlt_Qlt in H0. lia.
Qed.




End NumberFacts.

(* ================================================================== *)
(** ** Property reads and conversions: facts *)
(* ================================================================== *)

Section ValueFacts.
Local Open Scope Q_scope.

Lemma get_ok (v : value) (k : string) : nullish v = false -> get v k = Ok (prop v k).
Proof. unfold get. intros ->. reflexivity. Qed.

Lemma get_returns (v : value) (k : string) (x : value) :
  get v k = Ok x -> nullish v = false /\ x = prop v k.
Proof. unfold get. destruct (nullish v); [discriminate|]. intros [= <-]. auto. Qed.

Lemma bind_returns {A B : Type} (r : result A) (k : A -> result B) (b : B) :
  bind r k = Ok b -> exists a, r = Ok a /\ k a = Ok b.
Proof. destruct r; simpl; [eauto|discriminate]. Qed.

Lemma ToString_primitive (v : value) :
  primitive v = true -> exists s, ToString v = Ok s.
Proof. destruct v; simpl; try discriminate; eauto. Qed.

Lemma or_else_primitive (a b : value) :
  primitive a = true -> primitive b = true -> primitive (or_else a b) = true.
Proof. unfold or_else. destruct (truthy a); auto. Qed.

Lemma num_eq_sym (a b : number) : num_eq a b -> num_eq b a.
Proof. destruct a, b; simpl; auto with qarith. Qed.

Lemma num_eq_trans (a b c : number) : num_eq a b -> num_eq b c -> num_eq a c.
Proof. destruct a, b, c; simpl; try tauto. intros. lra. Qed.

Lemma num_ltb_eq_l (a a' b : number) : num_eq a a' -> num_ltb a b = num_ltb a' b.
Proof.
  destruct a, a', b; simpl; try tauto. intros H.
  f_equal. destruct (Qle_bool q1 q) eqn:E1, (Qle_bool q1 q0) eqn:E2; qbool; auto; lra.
Qed.

Lemma num_ltb_eq_r (a b b' : number) : num_eq b b' -> num_ltb a b = num_ltb a b'.
Proof.
  destruct a, b, b'; simpl; try tauto. intros H.
  f_equal. destruct (Qle_bool q0 q) eqn:E1, (Qle_bool q1 q) eqn:E2; qbool; auto; lra.
Qed.

Lemma num_leb_eq_l (a a' b : number) : num_eq a a' -> num_leb a b = num_leb a' b.
Proof.
  destruct a, a', b; simpl; try tauto. intros H.
  destruct (Qle_bool q q1) eqn:E1, (Qle_bool q0 q1) eqn:E2; qbool; auto; lra.
Qed.

Lemma num_leb_eq_r (a b b' : number) : num_eq b b' -> num_leb a b = num_leb a b'.
Proof.
  destruct a, b, b'; simpl; try tauto. intros H.
  destruct (Qle_bool q q0) eqn:E1, (Qle_bool q q1) eqn:E2; qbool; auto; lra.
Qed.

Lemma clamped_to_eq (lo hi : Q) (x x' y : number) :
  num_eq x x' -> clamped_to lo hi x y -> clamped_to lo hi x' y.
Proof.
  intros E (H1 & H2 & H3 & H4). repeat split; auto.
  - rewrite <- (num_ltb_eq_l _ _ _ E). auto.
  - rewrite <- (num_ltb_eq_r _ _ _ E). auto.
  - rewrite <- (num_leb_eq_r _ _ _ E), <- (num_leb_eq_l _ _ _ E). intros.
    eapply num_eq_trans; eauto.
Qed.

(** [n || 0] on a number is the number itself, up to the value of zero. *)
Lemma or_zero_number (x : number) :
  x <> NaN ->
  exists x', or_else (VNum x) (VNum (Fin 0)) = VNum x' /\ x' <> NaN /\ num_eq x' x.
Proof.
  intros Hx. unfold or_else. simpl.
  destruct x as [| | |q]; try congruence; simpl.
  - exists PosInf. repeat split; congruence.
  - exists NegInf. repeat split; congruence.
  - destruct (Qis_zero q) eqn:E; simpl.
    + apply Qis_zero_true in E. exists (Fin 0).
      split; [reflexivity|]. split; [congruence|]. simpl. lra.
    + exists (Fin q).
      split; [reflexivity|]. split; [congruence|]. simpl. lra.
Qed.

(** [clamp] on a number that is not [NaN]. *)
Lemma clamp_number (x : number) (lo hi : Q) :
  lo <= hi -> x <> NaN ->
  exists y, clamp (VNum x) (Fin lo) (Fin hi) = Ok y /\ clamped_to lo hi x y.
Proof.
  intros Hlh Hx. destruct (or_zero_number x Hx) as (x' & E & Hx' & Heq).
  unfold clamp. rewrite E. simpl. eexists. split; [reflexivity|].
  eapply clamped_to_eq; [exact Heq|]. apply max_min_clamps; auto.
Qed.

(** [clamp] on [NaN]: the number read is zero. *)
Lemma clamp_NaN (lo hi : Q) :
  lo <= hi ->
  exists y, clamp (VNum NaN) (Fin lo) (Fin hi) = Ok y /\ clamped_to lo hi (Fin 0) y.
Proof.
  intros Hlh. unfold clamp, or_else. simpl ToNumber. simpl bind.
  eexists. split; [reflexivity|]. apply max_min_clamps; [auto|congruence].
Qed.

Lemma clamped_to_within (lo hi : Q) (x y : number) : clamped_to lo hi x y -> within lo hi y.
Proof. intros H. apply H. Qed.

(** A number of the interval is its own clamp. *)
Lemma clamped_to_fixed (lo hi q : Q) (y : number) :
  lo <= q <= hi -> clamped_to lo hi (Fin q) y -> exists q', y = Fin q' /\ q' == q.
Proof.
  intros Hq ((q' & -> & Hq') & _ & _ & H).
  exists q'. split; [reflexivity|].
  apply H; apply num_leb_Fin; lra.
Qed.

Lemma numeric_cases (v : value) :
  numeric v = true -> nullish v = true \/ exists x, v = VNum x /\ x <> NaN.
Proof.
  destruct v as [| | |x| | |]; simpl; try discriminate; auto.
  destruct x; try discriminate; intros _; right; eexists; split; eauto; congruence.
Qed.

(** [clamp(v ?? d, lo, hi)] on a numeric field. *)
Lemma clamp_default (v : value) (d : number) (lo hi : Q) :
  lo <= hi -> numeric v = true -> d <> NaN ->
  exists y, clamp (coalesce v (VNum d)) (Fin lo) (Fin hi) = Ok y
            /\ clamped_to lo hi (number_or v d) y.
Proof.
  intros Hlh Hv Hd. destruct (numeric_cases v Hv) as [Hn | (x & -> & Hx)].
  - unfold coalesce. rewrite Hn.
    replace (number_or v d) with d by (destruct v; simpl in *; congruence).
    apply clamp_number; auto.
  - simpl. apply clamp_number; auto.
Qed.

End ValueFacts.

(* ================================================================== *)
(** ** The score of one tactic *)
(* ================================================================== *)

(** Division by the constants of the program, for [lra]. *)
Ltac qconst :=
  unfold Qdiv in *;
  change (/ 4)%Q with (1 # 4)%Q in *; change (/ 5)%Q with (1 # 5)%Q in *;
  change (/ 10)%Q with (1 # 10)%Q in *; change (/ 20)%Q with (1 # 20)%Q in *;
  change (/ 100)%Q with (1 # 100)%Q in *.

Section TacticFacts.
Local Open Scope Q_scope.

Lemma Math_min_Fin (a b : Q) : exists m, Math_min (Fin a) (Fin b) = Fin m /\ m == Qmin a b.
Proof.
  simpl. destruct (Qle_bool a b) eqn:E; qbool; eexists; (split; [reflexivity|]).
  - symmetry. apply Q.min_l. assumption.
  - symmetry. apply Q.min_r. lra.
Qed.

Lemma Qmin_eq (a b b' : Q) : b == b' -> Qmin a b == Qmin a b'.
Proof.
  intros H. destruct (Q.min_spec a b) as [[? H1]|[? H1]],
    (Q.min_spec a b') as [[? H2]|[? H2]]; rewrite H1, H2; clear H1 H2; lra.
Qed.

Lemma spec_score_range (l s f : Q) :
  0 <= l <= 1 -> 1 <= s <= 5 -> 0 <= f <= 5 -> (0 <= spec_score l s f <= 100)%Z.
Proof.
  intros Hl Hs Hf. unfold spec_score. apply round_between.
  - change (inject_Z 0) with 0.
    destruct (Q.min_spec 1 (f / 5)) as [[? H]|[? H]]; rewrite H; clear H; qconst; lra.
  - change (inject_Z 100) with 100.
    destruct (Q.min_spec 1 (f / 5)) as [[? H]|[? H]]; rewrite H; clear H; qconst; lra.
Qed.

(** [tacticScore] on the object literal of a normalised entry: the second
    clamping changes nothing, and the score is the formula. *)
Lemma tacticScore_literal (i : string) (n : value) (l s f : Q) (ex : list value) :
  0 <= l <= 1 -> 1 <= s <= 5 -> 0 <= f <= 5 ->
  tacticScore (Tactic.literal i n (Fin l) (Fin s) (Fin f) ex)
  = Ok (num_of_Z (spec_score l s f)).
Proof.
  intros Hl Hs Hf. unfold tacticScore, Tactic.literal.
  rewrite !get_ok by reflexivity. cbn [bind].
  change (prop _ "likelihood") with (VNum (Fin l)).
  change (prop _ "severity") with (VNum (Fin s)).
  change (prop _ "frequency") with (VNum (Fin f)).
  change (prop _ "examples") with (VArr ex).
  destruct (clamp_number (Fin l) 0 1) as (p & -> & Hp); [lra|congruence|].
  destruct (clamp_number (Fin s) 1 5) as (sv & -> & Hsv); [lra|congruence|].
  destruct (clamped_to_fixed _ _ _ _ Hl Hp) as (l' & -> & El).
  destruct (clamped_to_fixed _ _ _ _ Hs Hsv) as (s' & -> & Es).
  cbn [bind coalesce nullish ToNumber].
  destruct (Math_min_Fin 5 f) as (f' & -> & Ef).
  assert (Ef' : f' == f) by (rewrite Ef; apply Q.min_r; lra).
  cbn [num_mul num_sub num_neg num_add num_div].
  change (Qis_zero 4) with false. change (Qis_zero 5) with false. cbv iota.
  destruct (Math_min_Fin 1 (f' / 5)) as (m & -> & Em).
  cbn [num_mul num_add Math_round]. unfold num_of_Z. do 3 f_equal.
  unfold spec_score. apply Qfloor_comp.
  rewrite Em, (Qmin_eq 1 (f' / 5) (f / 5)) by (rewrite Ef'; reflexivity).
  rewrite El, Es. unfold Qminus. reflexivity.
Qed.

End TacticFacts.

Section EntryFacts.
Local Open Scope Q_scope.

Lemma coalesce_numeric (a b : value) (d : number) :
  numeric a = true -> numeric b = true ->
  numeric (coalesce a b) = true
  /\ number_or (coalesce a b) d = number_or a (number_or b d).
Proof.
  intros Ha Hb. destruct (numeric_cases a Ha) as [Hn | (x & -> & Hx)].
  - unfold coalesce. rewrite Hn. split; [assumption|].
    destruct a; simpl in *; congruence.
  - simpl. split; [assumption|reflexivity].
Qed.

(** The number [t.frequency ?? (t.examples?.length || 0)] of a typed entry. *)
Lemma frequency_number (t : value) :
  numeric (prop t "frequency") = true ->
  array_or_nothing (prop t "examples") = true ->
  exists n,
    ToNumber (coalesce (prop t "frequency")
                (or_else (get_opt (prop t "examples") "length") (VNum (Fin 0)))) = Ok n
    /\ n <> NaN
    /\ num_eq n (number_or (prop t "frequency") (examples_count t)).
Proof.
  intros Hf He. unfold examples_count.
  destruct (numeric_cases _ Hf) as [Hn | (x & -> & Hx)].
  - unfold coalesce. rewrite Hn.
    replace (number_or (prop t "frequency") _) with
      (match prop t "examples" with VArr l => num_of_nat (length l) | _ => Fin 0 end)
      by (destruct (prop t "frequency"); simpl in *; congruence).
    destruct (prop t "examples") as [| | | | |l|]; simpl in He; try discriminate.
    + exists (Fin 0). repeat split; simpl; try congruence; lra.
    + exists (Fin 0). repeat split; simpl; try congruence; lra.
    + change (get_opt (VArr l) "length") with (VNum (num_of_nat (length l))).
      destruct (or_zero_number (num_of_nat (length l))) as (n & -> & Hn' & E);
        [unfold num_of_nat, num_of_Z; congruence|].
      exists n. auto.
  - exists x. simpl. repeat split; auto. apply num_eq_refl.
Qed.

Lemma firstn_length_le {A : Type} (n : nat) (l : list A) : (length (firstn n l) <= n)%nat.
Proof. rewrite length_firstn. lia. Qed.

End EntryFacts.

(** Splits a conjunction of boolean tests into its parts. *)
Ltac split_andb :=
  repeat match goal with
  | H : _ && _ = true |- _ => apply andb_true_iff in H; destruct H
  end.

Section TypedEntries.
Local Open Scope Q_scope.

Lemma normalizeTactic_typed (t : value) : typed_entry t = true -> entry_contract t.
Proof.
  intros H. unfold entry_contract. unfold typed_entry in H. split_andb.
  match goal with H : negb (nullish t) = true |- _ => apply negb_true_iff in H; rename H into Hn end.
  unfold normalizeTactic. rewrite !(get_ok t) by assumption. cbn [bind].
  (* the identifier *)
  destruct (ToString_primitive (or_else (or_else (prop t "id") (prop t "name")) (VStr "")))
    as (ids & ->); [repeat apply or_else_primitive; auto|]. cbn [bind].
  (* likelihood *)
  destruct (coalesce_numeric (prop t "likelihood") (prop t "p") (Fin 0)) as (Hlp & Elp); auto.
  destruct (clamp_default (coalesce (prop t "likelihood") (prop t "p")) (Fin 0) 0 1)
    as (yl & -> & Cl); [lra|assumption|congruence|]. rewrite Elp in Cl. cbn [bind].
  (* severity *)
  destruct (clamp_default (prop t "severity") (Fin 3) 1 5)
    as (ys & -> & Cs); [lra|assumption|congruence|]. cbn [bind].
  (* frequency *)
  destruct (frequency_number t) as (n & -> & Hn' & En); auto. cbn [bind].
  assert (Cf := max_min_clamps 0 5 n ltac:(lra) Hn').
  apply (clamped_to_eq _ _ _ _ _ En) in Cf.
  destruct (clamped_to_within _ _ _ _ Cl) as (l & El & Hl).
  destruct (clamped_to_within _ _ _ _ Cs) as (s & Es & Hs).
  destruct (clamped_to_within _ _ _ _ Cf) as (f & Ef & Hf).
  rewrite El, Es, Ef in *. rewrite tacticScore_literal by assumption. cbn [bind].
  exists (Tactic.mk
            (if str_nonempty (toLowerCase ids) && includes TACTIC_IDS (toLowerCase ids)
             then toLowerCase ids else "other")
            (or_else (prop t "name")
               (VStr (if str_nonempty (toLowerCase ids) then titleCase (toLowerCase ids)
                      else "Other")))
            (Fin l) (Fin s) (Fin f)
            (match prop t "examples" with VArr ex => firstn 5 ex | _ => [] end)
            (num_of_Z (spec_score l s f))), l, s, f.
  cbn [Tactic.likelihood Tactic.severity Tactic.frequency Tactic.examples Tactic.score].
  split; [reflexivity|]. do 3 (split; [reflexivity|]).
  split; [exact Cl|]. split; [exact Cs|]. split; [exact Cf|].
  split; [destruct (prop t "examples"); reflexivity|].
  split; [destruct (prop t "examples"); simpl; try lia; apply firstn_length_le|].
  split; [reflexivity|].
  apply spec_score_range; assumption.
Qed.

End TypedEntries.

(* ================================================================== *)
(** ** Normalisation of any entry; the list of entries *)
(* ================================================================== *)

Section AnyEntry.
Local Open Scope Q_scope.

Lemma NaN_dec (a : number) : a = NaN \/ a <> NaN.
Proof. destruct a; auto; right; congruence. Qed.

(** [clamp] on a number never throws, and never yields [NaN]. *)
Lemma clamp_num_within (x : number) (lo hi : Q) :
  lo <= hi -> exists y, clamp (VNum x) (Fin lo) (Fin hi) = Ok (Fin y) /\ lo <= y <= hi.
Proof.
  intros Hlh. destruct x as [| | |q].
  - destruct (clamp_NaN lo hi Hlh) as (y & -> & (q' & -> & Hq') & _). eauto.
  - destruct (clamp_number PosInf lo hi Hlh) as (y & -> & (q' & -> & Hq') & _);
      [congruence|eauto].
  - destruct (clamp_number NegInf lo hi Hlh) as (y & -> & (q' & -> & Hq') & _);
      [congruence|eauto].
  - destruct (clamp_number (Fin q) lo hi Hlh) as (y & -> & (q' & -> & Hq') & _);
      [congruence|eauto].
Qed.

(** The score of an object literal whose frequency went through
    [Math.max(0, Math.min(5, .))]: [NaN] with the frequency, an integer of
    0..100 otherwise. *)
Lemma tacticScore_literal_range (i : string) (n : value) (l s f : number) (ex : list value) :
  f = NaN \/ within 0 5 f ->
  exists r, tacticScore (Tactic.literal i n l s f ex) = Ok r
            /\ (f = NaN -> r = NaN)
            /\ (f <> NaN -> integer_within 0 100 r).
Proof.
  intros Hf. unfold tacticScore, Tactic.literal.
  rewrite !get_ok by reflexivity. cbn [bind].
  change (prop _ "likelihood") with (VNum l).
  change (prop _ "severity") with (VNum s).
  change (prop _ "frequency") with (VNum f).
  change (prop _ "examples") with (VArr ex).
  destruct (clamp_num_within l 0 1) as (p & -> & Hp); [lra|].
  destruct (clamp_num_within s 1 5) as (sv & -> & Hs); [lra|].
  cbn [bind coalesce nullish ToNumber].
  destruct Hf as [-> | (qf & -> & Hqf)].
  - eexists. split; [reflexivity|]. split; [reflexivity|congruence].
  - destruct (Math_min_Fin 5 qf) as (f' & -> & Ef).
    assert (Ef' : f' == qf) by (rewrite Ef; apply Q.min_r; lra).
    cbn [num_mul num_sub num_neg num_add num_div].
    change (Qis_zero 4) with false. change (Qis_zero 5) with false. cbv iota.
    destruct (Math_min_Fin 1 (f' / 5)) as (m & -> & Em).
    cbn [num_mul num_add Math_round].
    eexists. split; [reflexivity|]. split; [congruence|]. intros _.
    eexists. split; [reflexivity|].
    apply round_between.
    + change (inject_Z 0) with 0.
      destruct (Q.min_spec 1 (f' / 5)) as [[? H]|[? H]]; rewrite H in Em; clear H;
        qconst; lra.
    + change (inject_Z 100) with 100.
      destruct (Q.min_spec 1 (f' / 5)) as [[? H]|[? H]]; rewrite H in Em; clear H;
        qconst; lra.
Qed.

(** What [normalizeTactic] returns, whatever the entry. *)
Lemma normalizeTactic_returns (t : value) (o : Tactic.t) :
  normalizeTactic t = Ok o ->
  (Tactic.score o = NaN \/ integer_within 0 100 (Tactic.score o))
  /\ (Tactic.likelihood o = NaN \/ within 0 1 (Tactic.likelihood o))
  /\ (Tactic.severity o = NaN \/ within 1 5 (Tactic.severity o))
  /\ (Tactic.frequency o = NaN \/ within 0 5 (Tactic.frequency o))
  /\ (Tactic.frequency o = NaN <-> Tactic.score o = NaN)
  /\ (length (Tactic.examples o) <= 5)%nat
  /\ includes output_ids (Tactic.id o) = true.
Proof.
  unfold normalizeTactic. intros H.
  repeat match type of H with
         | bind _ _ = Ok _ => apply bind_returns in H; destruct H as (? & ? & H)
         end.
  match goal with
  | Hs : tacticScore (Tactic.literal ?i ?n ?l ?s ?f ?ex) = Ok ?r |- _ =>
      destruct (tacticScore_literal_range i n l s f ex) as (r' & Hr & HN & HI);
        [apply max_min_range; lra|];
      assert (r' = r) by congruence; subst r'; clear Hs
  end.
  injection H as <-.
  cbn [Tactic.score Tactic.likelihood Tactic.severity Tactic.frequency
       Tactic.examples Tactic.id].
  unfold clamp in *.
  repeat match goal with
         | H : bind _ _ = Ok _ |- _ => apply bind_returns in H; destruct H as (? & ? & H)
         | H : Ok _ = Ok _ |- _ => injection H as <-
         end.
  split; [|split; [|split; [|split; [|split; [|split]]]]].
  - match type of HN with ?f = NaN -> _ => destruct (NaN_dec f) end; auto.
  - apply max_min_range; lra.
  - apply max_min_range; lra.
  - apply max_min_range; lra.
  - split; [assumption|]. intros E.
    match goal with |- ?f = NaN => destruct (NaN_dec f) as [?|Hne]; auto end.
    apply HI in Hne. destruct Hne as (z & Hz & _). unfold num_of_Z in Hz. congruence.
  - match goal with |- context [match ?v with VArr _ => _ | _ => _ end] =>
      destruct v end; simpl; try lia. apply firstn_length_le.
  - match goal with |- context [if ?c then _ else _] => destruct c eqn:E end.
    + apply andb_true_iff in E. destruct E as [_ E]. simpl. unfold includes in E.
      rewrite E. apply orb_true_r.
    + reflexivity.
Qed.

Lemma mapM_returns {A B : Type} (f : A -> result B) (l : list A) (bs : list B) :
  mapM f l = Ok bs -> Forall2 (fun a b => f a = Ok b) l bs.
Proof.
  revert bs. induction l as [|a l IH]; simpl; intros bs H.
  - injection H as <-. constructor.
  - apply bind_returns in H. destruct H as (b & Hb & H).
    apply bind_returns in H. destruct H as (bs' & Hbs & H).
    injection H as <-. constructor; auto.
Qed.

Lemma mapM_total {A B : Type} (f : A -> result B) (l : list A) :
  Forall (fun a => exists b, f a = Ok b) l -> exists bs, mapM f l = Ok bs.
Proof.
  induction 1 as [|a l (b & Hb) _ (bs & Hbs)]; simpl.
  - eauto.
  - rewrite Hb, Hbs. simpl. eauto.
Qed.

Lemma mapM_throws {A B : Type} (f : A -> result B) (l : list A) (a : A) (e : exn) :
  In a l -> f a = Throw e -> exists e', mapM f l = Throw e'.
Proof.
  induction l as [|x l IH]; simpl; [tauto|]. intros [-> | Hin] Ha.
  - rewrite Ha. simpl. eauto.
  - destruct (f x); simpl; [|eauto].
    destruct (IH Hin Ha) as (e' & ->). simpl. eauto.
Qed.

End AnyEntry.

(* ================================================================== *)
(** ** The report: how it is assembled *)
(* ================================================================== *)

Section ReportFacts.
Local Open Scope Q_scope.

Lemma normalizeReport_unfold (raw : value) :
  nullish raw = false ->
  normalizeReport raw
  = (c <- clamp (coalesce (prop raw "confidence") (VNum (Fin 0.85))) (Fin 0) (Fin 1) ;;
     objs <- mapM normalizeTactic (raw_entries raw) ;;
     Ok (assemble raw c objs)).
Proof.
  intros Hn. unfold normalizeReport. rewrite !(get_ok raw) by assumption. reflexivity.
Qed.

Lemma normalizeReport_nullish (raw : value) :
  nullish raw = true -> exists e, normalizeReport raw = Throw e.
Proof.
  intros Hn. unfold normalizeReport, get. rewrite Hn. simpl. eauto.
Qed.

Lemma normalizeReport_returns (raw : value) (out : Report.t) :
  normalizeReport raw = Ok out ->
  nullish raw = false
  /\ exists c objs,
       clamp (coalesce (prop raw "confidence") (VNum (Fin 0.85))) (Fin 0) (Fin 1) = Ok c
       /\ mapM normalizeTactic (raw_entries raw) = Ok objs
       /\ out = assemble raw c objs.
Proof.
  intros H. destruct (nullish raw) eqn:Hn.
  - destruct (normalizeReport_nullish raw Hn) as (e & He). congruence.
  - split; [reflexivity|]. rewrite normalizeReport_unfold in H by assumption.
    apply bind_returns in H. destruct H as (c & Hc & H).
    apply bind_returns in H. destruct H as (objs & Hobjs & H).
    injection H as <-. eauto.
Qed.

(** The table of the code is the table of the specification. *)
Lemma weight_spec (id : string) :
  exists w, weight id = Fin w /\ w == spec_weight id /\ 0 < w.
Proof.
  unfold weight, spec_weight, RISK_WEIGHTS, table_get.
  repeat match goal with
         | |- context [String.eqb id ?k] =>
             let E := fresh "E" in
             destruct (String.eqb id k) eqn:E;
             [apply String.eqb_eq in E; subst id;
              eexists; split; [reflexivity|]; split; reflexivity|]
         end.
  eexists. split; [reflexivity|]. split; reflexivity.
Qed.

End ReportFacts.

(* ================================================================== *)
(** ** The weighted average *)
(* ================================================================== *)

Section Average.
Local Open Scope Q_scope.

Lemma spec_weight_pos (id : string) : 0 < spec_weight id.
Proof. destruct (weight_spec id) as (w & _ & E & Hw). rewrite <- E. exact Hw. Qed.

Lemma round_comp (x y : Q) : x == y -> Math_round (Fin x) = Math_round (Fin y).
Proof.
  intros E. unfold Math_round. f_equal. apply Qfloor_comp. rewrite E. reflexivity.
Qed.

Lemma Qsum_cons (x : Q) (l : list Q) : Qsum (x :: l) = x + Qsum l.
Proof. reflexivity. Qed.

Lemma accumulate_rational (a b c : Q) (i : string) (q : Q) :
  exists a' b' c',
    accumulate (mk_sums (Fin a) (Fin b) (Fin c)) (i, Fin q) = mk_sums (Fin a') (Fin b') (Fin c')
    /\ a' == a + q / 100 * spec_weight i
    /\ b' == b + spec_weight i
    /\ c' == c + q * spec_weight i.
Proof.
  destruct (weight_spec i) as (w & Hw & E & _).
  unfold accumulate. cbn [fst snd num den sumWeightScore]. rewrite Hw.
  cbn [num_add num_mul num_div]. change (Qis_zero 100) with false. cbv iota.
  do 3 eexists. split; [reflexivity|]. rewrite E. split; [|split]; reflexivity.
Qed.

Lemma fold_accumulate (l : list (string * Q)) (a b c : Q) :
  exists a' b' c',
    fold_left accumulate (as_seen l) (mk_sums (Fin a) (Fin b) (Fin c))
    = mk_sums (Fin a') (Fin b') (Fin c')
    /\ a' == a + Qsum (map (fun t => snd t / 100 * spec_weight (fst t)) l)
    /\ b' == b + Qsum (map (fun t => spec_weight (fst t)) l)
    /\ c' == c + Qsum (map (fun t => snd t * spec_weight (fst t)) l).
Proof.
  revert a b c. induction l as [|[i q] l IH]; intros a b c.
  - exists a, b, c. simpl. split; [reflexivity|]. split; [|split]; ring.
  - destruct (accumulate_rational a b c i q) as (a1 & b1 & c1 & E & Ha & Hb & Hc).
    destruct (IH a1 b1 c1) as (a2 & b2 & c2 & E2 & Ha2 & Hb2 & Hc2).
    exists a2, b2, c2.
    change (as_seen ((i, q) :: l)) with ((i, Fin q) :: as_seen l).
    cbn [fold_left map fst snd]. rewrite !Qsum_cons.
    rewrite E, E2. split; [reflexivity|].
    rewrite Ha2, Hb2, Hc2, Ha, Hb, Hc. split; [|split]; unfold Qdiv; ring.
Qed.

(** The three sums of the loop, on rational scores. *)
Lemma overall_rational (l : list (string * Q)) :
  exists a b c,
    overall (as_seen l) = mk_sums (Fin a) (Fin b) (Fin c)
    /\ a == Qsum (map (fun t => snd t / 100 * spec_weight (fst t)) l)
    /\ b == Qsum (map (fun t => spec_weight (fst t)) l)
    /\ c == Qsum (map (fun t => snd t * spec_weight (fst t)) l).
Proof.
  destruct (fold_accumulate l 0 0 0) as (a & b & c & E & Ha & Hb & Hc).
  exists a, b, c. split; [exact E|]. rewrite Ha, Hb, Hc. split; [|split]; ring.
Qed.

Lemma Qsum_weights_pos (l : list (string * Q)) :
  l <> [] -> 0 < Qsum (map (fun t => spec_weight (fst t)) l).
Proof.
  destruct l as [|t l]; [congruence|]. intros _. cbn [map]. rewrite Qsum_cons.
  assert (H : 0 <= Qsum (map (fun t => spec_weight (fst t)) l)).
  { induction l as [|u l IH]; cbn [map]; [unfold Qsum; simpl; lra|].
    rewrite Qsum_cons. assert (Hu := spec_weight_pos (fst u)). lra. }
  assert (Ht := spec_weight_pos (fst t)). lra.
Qed.

(** The overall score of rational scores is the average of the
    specification. *)
Lemma overall_score_rational (l : list (string * Q)) :
  l <> [] ->
  overall_score (overall (as_seen l)) = num_of_Z (spec_average l)
  /\ exists d, den (overall (as_seen l)) = Fin d /\ 0 < d.
Proof.
  intros Hl. destruct (overall_rational l) as (a & b & c & E & Ha & Hb & Hc).
  assert (Hpos := Qsum_weights_pos l Hl). rewrite <- Hb in Hpos.
  rewrite E. unfold overall_score. cbn [num den num_truthy].
  assert (Hz : Qis_zero b = false) by (apply Qis_zero_false; lra).
  rewrite Hz. cbn [negb num_div]. rewrite Hz. cbn [num_mul].
  split; [|eauto]. unfold spec_average.
  rewrite (round_comp _ (100 * (Qsum (map (fun t => snd t / 100 * spec_weight (fst t)) l)
                                / Qsum (map (fun t => spec_weight (fst t)) l))))
    by (rewrite Ha, Hb; reflexivity).
  reflexivity.
Qed.


End Average.

Section Objects.
Local Open Scope Q_scope.

Lemma mapM_normalizeTactic (l : list value) (objs : list Tactic.t) :
  mapM normalizeTactic l = Ok objs ->
  Forall (fun o => Tactic.score o = NaN \/ integer_within 0 100 (Tactic.score o)) objs.
Proof.
  intros H. apply mapM_returns in H. induction H as [|t o l objs Ho _ IH]; constructor; auto.
  apply (normalizeTactic_returns t o Ho).
Qed.

Lemma scored_entries (objs : list Tactic.t) :
  Forall (fun o => Tactic.score o = NaN \/ integer_within 0 100 (Tactic.score o)) objs ->
  scored objs ->
  map (fun o => (Tactic.id o, Tactic.score o)) objs = as_seen (entries_of objs)
  /\ Forall (fun t => 0 <= snd t <= 100) (entries_of objs).
Proof.
  intros H S. induction H as [|o objs Ho _ IH]; [split; constructor|].
  inversion S as [|? ? So S']; subst. destruct (IH S') as (IH1 & IH2).
  destruct Ho as [Ho | (z & Hz & Hr)]; [contradiction|].
  unfold entries_of, as_seen in *. cbn [map fst snd]. rewrite IH1, Hz. split.
  - reflexivity.
  - constructor; [|exact IH2]. cbn [snd num_value num_of_Z].
    change 0 with (inject_Z 0). change 100 with (inject_Z 100).
    rewrite <- !Zle_Qle. lia.
Qed.

Lemma Qsum_shares (l : list (string * Q)) :
  Forall (fun t => 0 <= snd t <= 100) l ->
  0 <= Qsum (map (fun t => snd t / 100 * spec_weight (fst t)) l)
       <= Qsum (map (fun t => spec_weight (fst t)) l).
Proof.
  induction 1 as [|t l Ht _ IH]; cbn [map].
  - unfold Qsum; simpl; lra.
  - rewrite !Qsum_cons. assert (Hw := spec_weight_pos (fst t)).
    assert (0 <= snd t / 100 * spec_weight (fst t) <= spec_weight (fst t)).
    { qconst. split.
      - apply Qmult_le_0_compat; lra.
      - rewrite <- (Qmult_1_l (spec_weight (fst t))) at 2.
        apply Qmult_le_compat_r; lra. }
    lra.
Qed.

Lemma spec_average_range (l : list (string * Q)) :
  l <> [] -> Forall (fun t => 0 <= snd t <= 100) l -> (0 <= spec_average l <= 100)%Z.
Proof.
  intros Hl H. unfold spec_average. apply round_between.
  - change (inject_Z 0) with 0.
    assert (Hp := Qsum_weights_pos l Hl). destruct (Qsum_shares l H) as (H0 & _).
    apply Qmult_le_0_compat; [lra|]. apply Qle_shift_div_l; [assumption|]. lra.
  - change (inject_Z 100) with 100.
    assert (Hp := Qsum_weights_pos l Hl). destruct (Qsum_shares l H) as (_ & H1).
    rewrite <- (Qmult_1_r 100) at 2. apply Qmult_le_l; [lra|].
    apply Qle_shift_div_r; [assumption|]. lra.
Qed.


End Objects.

(* ================================================================== *)
(** ** Claims on the normaliser *)
(* ================================================================== *)

Section FieldClaims.
Local Open Scope Q_scope.

(** *** C2 *)




(** *** C6 *)

(** C6, as it holds of the code.  The confidence of a returned report is
    0.85 when the supplied confidence is absent or [null]; a supplied number
    is clamped to [0,1]; any other supplied value goes through
    [Number(v || 0)] before the clamp, so that a falsy one gives 0 and one
    that is no number gives [NaN]: the result is always [NaN] or within
    [0,1]. *)
Theorem confidence_default_and_clamp (raw : value) (out : Report.t) :
  normalizeReport raw = Ok out ->
  (nullish (prop raw "confidence") = true -> Report.confidence out = Fin 0.85)
  /\ (forall x, prop raw "confidence" = VNum x -> x <> NaN ->
        clamped_to 0 1 x (Report.confidence out))
  /\ (nullish (prop raw "confidence") = false -> truthy (prop raw "confidence") = false ->
        Report.confidence out = Fin 0)
  /\ (truthy (prop raw "confidence") = true -> ToNumber (prop raw "confidence") = Ok NaN ->
        Report.confidence out = NaN)
  /\ (Report.confidence out = NaN \/ within 0 1 (Report.confidence out)).
Proof.
  intros H. apply normalizeReport_returns in H.
  destruct H as (Hn & c & objs & Hc & _ & ->). unfold assemble. cbn [Report.confidence].
  split; [|split; [|split; [|split]]].
  - intros Hv. unfold coalesce in Hc. rewrite Hv in Hc. vm_compute in Hc. congruence.
  - intros x Hx Hnan. rewrite Hx in Hc. cbn [coalesce nullish] in Hc.
    destruct (clamp_number x 0 1) as (y & Hy & Cy); [lra|assumption|]. congruence.
  - intros Hv Ht. unfold coalesce in Hc. rewrite Hv in Hc.
    unfold clamp, or_else in Hc. rewrite Ht in Hc. vm_compute in Hc. congruence.
  - intros Ht HN. assert (Hv : nullish (prop raw "confidence") = false)
      by (destruct (prop raw "confidence"); simpl in *; congruence).
    unfold coalesce in Hc. rewrite Hv in Hc.
    unfold clamp, or_else in Hc. rewrite Ht, HN in Hc. simpl in Hc. congruence.
  - unfold clamp in Hc. apply bind_returns in Hc. destruct Hc as (x & _ & Hc).
    injection Hc as <-. apply max_min_range. lra.
Qed.

Lemma confidence_default_and_clamp_witness :
  exists out, normalizeReport (VObj [("confidence", VNum (Fin 1.5))]) = Ok out
              /\ Report.confidence out = Fin 1.
Proof.
  destruct (normalizeReport (VObj [("confidence", VNum (Fin 1.5))])) as [out|e] eqn:E;
    [|vm_compute in E; discriminate].
  exists out. split; [reflexivity|].
  destruct (confidence_default_and_clamp _ out E) as (_ & H & _).
  destruct (H (Fin 1.5) eq_refl ltac:(discriminate)) as (_ & _ & Hhi & _).
  apply Hhi. reflexivity.
Defined.

(** C6 as stated fails: a confidence that cannot be read as a number does
    not give 0.85 but [NaN]. *)
Lemma confidence_text_gives_NaN :
  exists out, normalizeReport (VObj [("confidence", VStr "abc")]) = Ok out
              /\ Report.confidence out = NaN.
Proof. eexists. split; [vm_compute; reflexivity|reflexivity]. Qed.

(** *** C4 *)

(** C4.  A returned report carries the supplied [risk_label] as it is when
    one is supplied (a truthy value); otherwise the label is derived from
    the risk score: below 34 low, from 34 to 66 medium, above 66 high. *)
Theorem risk_label_passthrough_or_thresholds (raw : value) (out : Report.t) :
  normalizeReport raw = Ok out ->
  (truthy (prop raw "risk_label") = true -> Report.risk_label out = prop raw "risk_label")
  /\ (truthy (prop raw "risk_label") = false ->
        Report.risk_label out = VStr (riskLabel (Report.risk_score out)))
  /\ (forall q, q < 34 -> riskLabel (Fin q) = "low")
  /\ (forall q, 34 <= q <= 66 -> riskLabel (Fin q) = "medium")
  /\ (forall q, 66 < q -> riskLabel (Fin q) = "high")
  /\ riskLabel (Fin 33) = "low" /\ riskLabel (Fin 34) = "medium"
  /\ riskLabel (Fin 66) = "medium" /\ riskLabel (Fin 67) = "high".
Proof.
  intros H. apply normalizeReport_returns in H.
  destruct H as (Hn & c & objs & _ & _ & ->). unfold assemble.
  cbn [Report.risk_label Report.risk_score]. unfold or_else.
  split; [intros ->; reflexivity|]. split; [intros ->; reflexivity|].
  unfold riskLabel. cbn [num_ltb num_leb].
  split; [|split; [|split]].
  - intros q Hq. qbool; try lra; reflexivity.
  - intros q Hq. qbool; try lra; reflexivity.
  - intros q Hq. qbool; try lra; reflexivity.
  - repeat split; reflexivity.
Qed.

Lemma risk_label_passthrough_or_thresholds_witness :
  exists out,
    normalizeReport (VObj [("risk_label", VStr "severe")]) = Ok out
    /\ Report.risk_label out = VStr "severe".
Proof.
  destruct (normalizeReport (VObj [("risk_label", VStr "severe")])) as [out|e] eqn:E;
    [|vm_compute in E; discriminate].
  exists out. split; [reflexivity|].
  destruct (risk_label_passthrough_or_thresholds _ out E) as (H & _).
  apply H. reflexivity.
Defined.

End FieldClaims.

Section TypedReports.
Local Open Scope Q_scope.

Lemma typed_entries_normalise (l : list value) :
  forallb typed_entry l = true ->
  exists objs, mapM normalizeTactic l = Ok objs
               /\ Forall (fun o => integer_within 0 100 (Tactic.score o)) objs.
Proof.
  induction l as [|t l IH]; cbn [forallb mapM]; intros H.
  - exists []. split; [reflexivity|constructor].
  - apply andb_true_iff in H. destruct H as (Ht & Hl).
    destruct (normalizeTactic_typed t Ht)
      as (o & lk & s & f & Ho & _ & _ & _ & _ & _ & _ & _ & _ & Hs & Hr).
    destruct (IH Hl) as (objs & Hobjs & Hall).
    exists (o :: objs). rewrite Ho, Hobjs. split; [reflexivity|].
    constructor; [|assumption]. exists (spec_score lk s f). auto.
Qed.

(** A typed raw report is normalised without an exception. *)
Lemma typed_report_returns (raw : value) :
  typed_report raw = true ->
  exists c objs,
    normalizeReport raw = Ok (assemble raw c objs)
    /\ mapM normalizeTactic (raw_entries raw) = Ok objs
    /\ within 0 1 c
    /\ Forall (fun o => integer_within 0 100 (Tactic.score o)) objs.
Proof.
  intros H. unfold typed_report in H. split_andb.
  match goal with H : negb (nullish raw) = true |- _ => apply negb_true_iff in H; rename H into Hn end.
  destruct (clamp_default (prop raw "confidence") (Fin 0.85) 0 1)
    as (c & Hc & Cc); [lra|assumption|congruence|].
  destruct (typed_entries_normalise (raw_entries raw)) as (objs & Hobjs & Hall).
  { unfold raw_entries, typed_tactics in *. destruct (prop raw "tactics"); auto. }
  exists c, objs. rewrite normalizeReport_unfold by assumption.
  rewrite Hc, Hobjs. repeat split; auto. apply Cc.
Qed.

Lemma integer_scores_scored (objs : list Tactic.t) :
  Forall (fun o => integer_within 0 100 (Tactic.score o)) objs ->
  scored objs
  /\ Forall (fun o => Tactic.score o = NaN \/ integer_within 0 100 (Tactic.score o)) objs.
Proof.
  induction 1 as [|o objs (z & Hz & Hr) _ (IH1 & IH2)]; split; constructor; auto.
  - rewrite Hz. discriminate.
  - right. exists z. auto.
Qed.

(** The overall score of objects whose scores are numbers. *)
Lemma overall_score_scored (objs : list Tactic.t) :
  Forall (fun o => Tactic.score o = NaN \/ integer_within 0 100 (Tactic.score o)) objs ->
  scored objs ->
  match objs with
  | [] => overall_score (overall (seen_entries objs)) = num_of_Z (spec_average [("other", 0)])
  | _ => overall_score (overall (seen_entries objs)) = num_of_Z (spec_average (entries_of objs))
  end
  /\ integer_within 0 100 (overall_score (overall (seen_entries objs))).
Proof.
  intros H S. destruct objs as [|o objs].
  - split; [reflexivity|]. exists 0%Z. split; [reflexivity|lia].
  - destruct (scored_entries _ H S) as (E & R).
    unfold seen_entries. rewrite E.
    destruct (overall_score_rational (entries_of (o :: objs))) as (-> & _);
      [discriminate|].
    split; [reflexivity|]. eexists. split; [reflexivity|].
    apply spec_average_range; [discriminate|assumption].
Qed.

Lemma riskLabel_cases (s : number) :
  riskLabel s = "low" \/ riskLabel s = "medium" \/ riskLabel s = "high".
Proof.
  unfold riskLabel. destruct (num_ltb s (Fin 34)), (num_leb s (Fin 66)); auto.
Qed.

Lemma receipts_of_length (v : value) : (length (receipts_of v) <= 30)%nat.
Proof.
  unfold receipts_of. destruct v; try apply firstn_length_le;
    match goal with |- context [get_opt ?a ?k] => destruct (get_opt a k) end;
    try apply firstn_length_le; simpl; lia.
Qed.

Lemma trim_nonempty (s : string) : str_nonempty (trim s) = true -> s <> "".
Proof. intros H ->. discriminate. Qed.

End TypedReports.

Section SchemaClaim.
Local Open Scope Q_scope.

(** *** C1 *)

(** C1, as it holds of the code.  For every raw report typed as the
    classification schema says (any field may be missing or [null]; numbers
    may be out of range; the entries of [tactics] are there), normalisation
    returns, and the report is valid: [risk_score] an integer of 0..100, a
    [risk_label], [confidence] within [0,1], a list of tactics, at most 30
    receipts, [kpis] an object, [narrative_md] a non-empty string or
    [null]. *)
Theorem normalizeReport_valid_on_typed_input (raw : value) :
  typed_report raw = true ->
  exists out,
    normalizeReport raw = Ok out
    /\ integer_within 0 100 (Report.risk_score out)
    /\ truthy (Report.risk_label out) = true
    /\ within 0 1 (Report.confidence out)
    /\ length (Report.tactics out) = length (raw_entries raw)
    /\ (length (Report.receipts out) <= 30)%nat
    /\ (exists fields, Report.kpis out = VObj fields)
    /\ (Report.narrative_md out = VNull
        \/ exists s, Report.narrative_md out = VStr s /\ s <> "").
Proof.
  intros H. destruct (typed_report_returns raw H) as (c & objs & E & Hobjs & Hc & Hall).
  exists (assemble raw c objs). split; [exact E|].
  destruct (integer_scores_scored objs Hall) as (S & R).
  destruct (overall_score_scored objs R S) as (_ & Hrisk).
  unfold assemble.
  cbn [Report.risk_score Report.risk_label Report.confidence Report.tactics
       Report.receipts Report.kpis Report.narrative_md].
  split; [exact Hrisk|]. split.
  { unfold or_else. destruct (truthy (prop raw "risk_label")) eqn:T; [exact T|].
    destruct (riskLabel_cases (overall_score (overall (seen_entries objs))))
      as [-> | [-> | ->]]; reflexivity. }
  split; [exact Hc|]. split.
  { rewrite length_map. apply mapM_returns in Hobjs.
    symmetry. eapply Forall2_length; eauto. }
  split.
  { apply receipts_of_length. }
  split.
  { unfold typed_report in H. split_andb. unfold or_else.
    destruct (prop raw "kpis"); simpl in *; try discriminate; eauto. }
  unfold narrative_of. destruct (prop raw "narrative_md"); auto.
  destruct (str_nonempty (trim s)) eqn:T; auto.
  right. exists s. split; [reflexivity|]. apply trim_nonempty. exact T.
Qed.

Lemma normalizeReport_valid_on_typed_input_witness :
  typed_report sample_report = true
  /\ typed_report (VObj []) = true
  /\ exists out, normalizeReport sample_report = Ok out
                 /\ Report.risk_score out = num_of_Z 45
                 /\ Report.confidence out = Fin 1.
Proof.
  split; [reflexivity|]. split; [reflexivity|].
  destruct (normalizeReport_valid_on_typed_input sample_report eq_refl) as (out & E & _).
  exists out. split; [exact E|].
  vm_compute in E. injection E as <-. split; reflexivity.
Defined.

(** C1 as stated fails.  An entry of [tactics] that is [null] makes
    [normalizeReport] throw; a confidence that is text yields [NaN], which
    is not within [0,1]; a [kpis] that is a number stays a number. *)
Lemma normalizeReport_throws_or_is_invalid :
  (exists e, normalizeReport (VObj [("tactics", VArr [VNull])]) = Throw e)
  /\ (exists out, normalizeReport (VObj [("confidence", VStr "high")]) = Ok out
                  /\ Report.confidence out = NaN)
  /\ (exists out, normalizeReport (VObj [("kpis", VNum (Fin 5))]) = Ok out
                  /\ Report.kpis out = VNum (Fin 5)).
Proof.
  split; [|split]; eexists; try split; vm_compute; reflexivity.
Qed.

End SchemaClaim.

Section OrderAndAverageClaims.
Local Open Scope Q_scope.

Lemma Forall2_contributions (g : Tactic.t -> number) (l : list value) (objs : list Tactic.t) :
  Forall2 (fun t o => normalizeTactic t = Ok o) l objs ->
  Forall2 (fun t (o : tactic) => normalizeTactic t = Ok (obj o)) l
          (map (fun o => mk_tactic o (g o)) objs).
Proof. induction 1; cbn [map]; constructor; auto. Qed.

(** *** C10 *)

(** C10.  When [raw.tactics] is an array, the tactics of a returned report
    are the normalised entries, one for one and in order: nothing is
    capped, merged or dropped.  When it is absent or no array, the report
    has no tactic.  (A report is returned for every typed input.) *)
Theorem tactics_kept_in_order (raw : value) :
  (forall l out,
     prop raw "tactics" = VArr l -> normalizeReport raw = Ok out ->
     length (Report.tactics out) = length l
     /\ Forall2 (fun t o => normalizeTactic t = Ok (obj o)) l (Report.tactics out))
  /\ (forall out,
        isArray (prop raw "tactics") = false -> normalizeReport raw = Ok out ->
        Report.tactics out = [])
  /\ (typed_report raw = true -> exists out, normalizeReport raw = Ok out).
Proof.
  split; [|split].
  - intros l out Hl H. apply normalizeReport_returns in H.
    destruct H as (_ & c & objs & _ & Hobjs & ->).
    unfold raw_entries in Hobjs. rewrite Hl in Hobjs. apply mapM_returns in Hobjs.
    unfold assemble. cbn [Report.tactics]. split.
    + rewrite length_map. symmetry. eapply Forall2_length; eauto.
    + apply Forall2_contributions. exact Hobjs.
  - intros out Hl H. apply normalizeReport_returns in H.
    destruct H as (_ & c & objs & _ & Hobjs & ->).
    unfold raw_entries in Hobjs.
    destruct (prop raw "tactics"); try discriminate; injection Hobjs as <-; reflexivity.
  - intros H. destruct (typed_report_returns raw H) as (c & objs & E & _). eauto.
Qed.

Lemma tactics_kept_in_order_witness :
  exists out, normalizeReport seven_entries = Ok out
              /\ length (Report.tactics out) = 7%nat
              /\ map (fun t => Tactic.id (obj t)) (Report.tactics out)
                 = ["threats"; "threats"; "darvo"; "other"; "other"; "contempt"; "other"].
Proof.
  destruct (tactics_kept_in_order seven_entries) as (H & _ & T).
  destruct (T eq_refl) as (out & E). exists out. split; [exact E|].
  destruct (H _ out eq_refl E) as (Hlen & _). split; [exact Hlen|].
  vm_compute in E. injection E as <-. reflexivity.
Defined.

(** *** C3 *)




End OrderAndAverageClaims.

(* ================================================================== *)
(** ** Contributions *)
(* ================================================================== *)

Section Contributions.
Local Open Scope Q_scope.

Lemma contribution_positive (c : Q) (o : Tactic.t) (q : Q) :
  0 < c -> Tactic.score o = Fin q ->
  exists f, contribution (Fin c) o = Fin f /\ f == spec_share c (Tactic.id o) q.
Proof.
  intros Hc Hq. destruct (weight_spec (Tactic.id o)) as (w & Hw & E & _).
  unfold contribution. rewrite Hw, Hq.
  assert (Hz : Qis_zero c = false) by (apply Qis_zero_false; lra).
  assert (Hg : num_gtb (Fin c) (Fin 0) = true) by (apply num_ltb_Fin; assumption).
  rewrite Hg. cbn [num_mul num_div]. rewrite Hz. cbn [num_mul Math_round].
  unfold num_of_Z. cbn [num_div]. change (Qis_zero 10) with false. cbv iota.
  eexists. split; [reflexivity|]. unfold spec_share.
  apply Qdiv_comp; [|reflexivity].
  rewrite (Qfloor_comp _ (q * spec_weight (Tactic.id o) / c * 1000 + (1 # 2)));
    [reflexivity|]. rewrite E. reflexivity.
Qed.

Lemma contribution_not_positive (s : number) (o : Tactic.t) :
  num_gtb s (Fin 0) = false -> contribution s o = Fin 0.
Proof. intros H. unfold contribution. rewrite H. reflexivity. Qed.




Lemma total_weighted_nonneg (es : list (string * Q)) :
  Forall (fun t => 0 <= snd t <= 100) es -> 0 <= total_weighted es.
Proof.
  unfold total_weighted. induction 1 as [|t es Ht _ IH]; cbn [map].
  - unfold Qsum. simpl. lra.
  - rewrite Qsum_cons. assert (Hw := spec_weight_pos (fst t)).
    assert (0 <= snd t * spec_weight (fst t)) by (apply Qmult_le_0_compat; lra). lra.
Qed.


End Contributions.

Section ContributionClaims.
Local Open Scope Q_scope.

Lemma spec_share_comp (t t' : Q) (id : string) (q : Q) :
  t == t' -> spec_share t id q == spec_share t' id q.
Proof.
  intros E. unfold spec_share. apply Qdiv_comp; [|reflexivity].
  rewrite (Qfloor_comp _ (q * spec_weight id / t' * 1000 + (1 # 2))); [reflexivity|].
  rewrite E. reflexivity.
Qed.

(** Each contribution is the share of the specification. *)
Lemma contributions_are_shares (objs : list Tactic.t) (c total : Q) :
  c == total ->
  Forall (fun o => Tactic.score o = NaN \/ integer_within 0 100 (Tactic.score o)) objs ->
  scored objs ->
  Forall (fun t : tactic =>
            exists f, contribution_pct t = Fin f
              /\ (0 < total -> f == spec_share total (Tactic.id t) (num_value (Tactic.score t)))
              /\ (total <= 0 -> f == 0))
         (with_contributions (Fin c) objs).
Proof.
  intros E R S. induction R as [|o objs Ho _ IH]; [constructor|].
  inversion S as [|? ? So S']; subst. constructor; [|auto].
  cbn [contribution_pct obj]. destruct Ho as [Ho | (z & Hz & _)]; [contradiction|].
  destruct (Qlt_le_dec 0 total) as [Hpos | Hle].
  - destruct (contribution_positive c o (inject_Z z)) as (f & Hf & Ef);
      [lra|exact Hz|].
    exists f. split; [exact Hf|]. split; [|intros; lra].
    intros _. rewrite Ef, Hz. cbn [num_value num_of_Z]. apply spec_share_comp. exact E.
  - rewrite contribution_not_positive.
    + exists 0. split; [reflexivity|]. split; [intros; lra|reflexivity].
    + unfold num_gtb. cbn [num_ltb]. apply negb_false_iff. apply Qle_bool_iff. lra.
Qed.


(** *** C5 *)


End ContributionClaims.

Section ContributionExamples.
Local Open Scope Q_scope.



End ContributionExamples.

(* ================================================================== *)
(** ** Runs of the handler: facts *)
(* ================================================================== *)

Section RunFacts.

Variable sv : service.

Lemma run_bind {A B : Type} (p : prog A) (f : A -> prog B) (st : state) :
  run sv (pbind p f) st
  = match run sv p st with
    | (Ok a, st') => run sv (f a) st'
    | (Throw e, st') => (Throw e, st')
    end.
Proof.
  revert st. induction p as [a|e|X c k IH]; intros st; cbn [pbind run]; try reflexivity.
  destruct (perform sv st c) as [r w]. apply IH.
Qed.

Lemma run_try_catch {A : Type} (p : prog A) (h : exn -> prog A) (st : state) :
  run sv (try_catch p h) st
  = match run sv p st with
    | (Ok a, st') => (Ok a, st')
    | (Throw e, st') => run sv (h e) st'
    end.
Proof.
  revert st. induction p as [a|e|X c k IH]; intros st; cbn [try_catch run]; try reflexivity.
  destruct (perform sv st c) as [r w]. apply IH.
Qed.

Lemma run_await {X : Type} (c : call X) (st : state) :
  run sv (await c) st = after sv st c.
Proof.
  unfold await, after. cbn [run]. destruct (perform sv st c) as [[x|e] w]; reflexivity.
Qed.

Lemma run_settle {X : Type} (c : call X) (st : state) :
  run sv (settle c) st
  = (Ok (fst (perform sv st c)),
     mk_state (snd (perform sv st c)) (trace st ++ [event_of c])).
Proof. unfold settle. cbn [run]. destruct (perform sv st c); reflexivity. Qed.

Lemma run_lift {A : Type} (r : result A) (st : state) : run sv (lift r) st = (r, st).
Proof. destruct r; reflexivity. Qed.




(** The trace only grows. *)
Lemma run_extends {A : Type} (p : prog A) (st : state) :
  exists evs, trace (snd (run sv p st)) = trace st ++ evs
              /\ Forall (fun e => exists X (c : call X), e = event_of c) evs.
Proof.
  revert st. induction p as [a|e|X c k IH]; intros st; cbn [run].
  - exists []. rewrite app_nil_r. split; [reflexivity|constructor].
  - exists []. rewrite app_nil_r. split; [reflexivity|constructor].
  - destruct (perform sv st c) as [r w].
    destruct (IH r (mk_state w (trace st ++ [event_of c]))) as (evs & E & F).
    exists (event_of c :: evs). rewrite E. cbn [trace]. rewrite <- app_assoc. split; [reflexivity|].
    constructor; eauto.
Qed.

End RunFacts.

(* ================================================================== *)
(** ** Claims on the handler *)
(* ================================================================== *)

Section HandlerFacts.

Variable E : env.
Variable sv : service.

Lemma data_truthy_message (body : value) :
  truthy (message_data body) = true -> truthy (get_opt body "message") = true.
Proof.
  unfold message_data. destruct (get_opt body "message") as [| | | | | |fs];
    simpl; try discriminate; auto.
Qed.




(** What the [catch] block does once the message carries an identifier. *)
Lemma run_recover_carries (body : value) (id : string) (e : exn) (st : state) :
  carries E body id ->
  run sv (recover E body e) st
  = (Ok (mk_response 200 "ok"),
     mk_state (snd (perform sv st (JobUpdate id (failed e))))
              (trace st ++ [EJobUpdate id (failed e)])).
Proof.
  intros (Hd & Hdec & Hid). unfold recover. rewrite run_bind, run_try_catch.
  fold (message_data body). rewrite Hd, Hdec. cbn [lift pbind truthy doc].
  rewrite Hid. cbn [lift pbind]. rewrite run_await. unfold after.
  destruct (perform sv st (JobUpdate id (failed e))) as [[[]|e'] w]; reflexivity.
Qed.

(** The [try] block up to the answer of [jobRef.get()]. *)
Lemma run_main_carries (body : value) (id : string) (st : state) :
  carries E body id ->
  run sv (main E body) st
  = match after sv st (JobGet id) with
    | (Ok (Some job), st1) =>
        if over_limit E job then
          run sv (_ <~ await (JobUpdate id (too_many_files (maxForPlan E (Job.plan job)))) ;;
                  Return (mk_response 200 "ok")) st1
        else
          run sv (_ <~ await (JobUpdate id processing) ;;
                  texts <~ ocr_files (files_or_empty (Job.files job)) [] ;;
                  reportJson <~ analyzeWithOpenAI E
                     (if str_nonempty (cleanOcr E (join_texts texts))
                      then cleanOcr E (join_texts texts) else "NO_TEXT_EXTRACTED")
                     (Job.instructions job) ;;
                  _ <~ await (ReportSet id
                         (ReportDoc.mk id (or_else (Job.userId job) VNull) id reportJson false)) ;;
                  deleted <~ purgeImages (Job.files job) ;;
                  _ <~ await (JobUpdate id (complete id deleted)) ;;
                  _ <~ (if deleted : bool then await (ReportUpdate id true) else Return tt) ;;
                  Return (mk_response 200 "ok")) st1
    | (Ok None, st1) => (Ok (mk_response 200 "job-not-found"), st1)
    | (Throw e, st1) => (Throw e, st1)
    end.
Proof.
  intros (Hd & Hdec & Hid). unfold main.
  fold (message_data body). rewrite Hd, (data_truthy_message body Hd).
  cbn [negb orb]. rewrite Hdec. cbn [lift pbind doc]. rewrite Hid. cbn [lift pbind].
  rewrite run_bind, run_await.
  destruct (after sv st (JobGet id)) as [[[job|]|e] st1]; try reflexivity.
  unfold over_limit. destruct (num_gtb _ _); reflexivity.
Qed.

End HandlerFacts.

Section HandlerClaims.

Variable E : env.
Variable sv : service.

Lemma length_snoc {A : Type} (l : list A) (a : A) : length (l ++ [a]) = S (length l).
Proof. rewrite length_app. simpl. lia. Qed.

(** *** C7 *)

(** C7.  When the job the message names has more files than its plan
    allows, the handler answers 200 and calls nothing but the document
    store: no preprocessing, no OCR, no classification, no report, no
    deletion.  When the store serves the read and accepts the write, the
    run consists of exactly these two calls, and the write sets the status
    of the job to "error" with the error code "too_many_files". *)
Theorem too_many_files_no_downstream_work (body : value) (st : state) (id : string) (job : Job.t) :
  carries E body id ->
  jobs (docs st) !! id = Some job ->
  over_limit E job = true ->
  exists resp st' evs,
    run sv (handler E body) st = (Ok resp, st')
    /\ status_code resp = 200
    /\ trace st' = trace st ++ evs
    /\ Forall (fun e => downstream e = false) evs
    /\ (fault sv (length (trace st)) = None ->
        fault sv (S (length (trace st))) = None ->
        evs = [EJobGet id; EJobUpdate id (too_many_files (maxForPlan E (Job.plan job)))]
        /\ reports (docs st') = reports (docs st)
        /\ exists job' message,
             jobs (docs st') !! id = Some job'
             /\ Job.status job' = "error"
             /\ Job.error job' = Some (ErrorCode "too_many_files" message)
             /\ Job.reportId job' = Job.reportId job).
Proof.
  intros C Hjob Hover. unfold handler. rewrite run_try_catch, (run_main_carries E sv body id st C).
  unfold after. cbn [perform]. unfold store at 1 2.
  destruct (fault sv (length (trace st))) as [e|] eqn:F0; cbn [fst snd].
  - (* the read is refused *)
    rewrite (run_recover_carries E sv body id e _ C). cbn [trace docs].
    do 3 eexists. split; [reflexivity|]. split; [reflexivity|].
    split; [rewrite <- app_assoc; reflexivity|].
    split; [repeat constructor|]. discriminate.
  - rewrite Hjob, Hover. rewrite run_bind, run_await. unfold after. cbn [perform trace docs].
    unfold store at 1 2. cbn [trace docs]. rewrite length_snoc.
    destruct (fault sv (S (length (trace st)))) as [e|] eqn:F1; cbn [fst snd].
    + (* the write is refused *)
      rewrite (run_recover_carries E sv body id e _ C). cbn [trace docs].
      do 3 eexists. split; [reflexivity|]. split; [reflexivity|].
      split; [rewrite <- !app_assoc; reflexivity|].
      split; [repeat constructor|]. discriminate.
    + rewrite Hjob. cbn [fst snd run].
      do 3 eexists. split; [reflexivity|]. split; [reflexivity|].
      split; [rewrite <- !app_assoc; reflexivity|].
      split; [repeat constructor|]. intros _ _.
      split; [reflexivity|]. split; [reflexivity|].
      do 2 eexists. cbn [docs jobs]. rewrite lookup_insert_eq.
      split; [reflexivity|]. repeat split; reflexivity.
Qed.

(** *** C8 *)




End HandlerClaims.

(* ================================================================== *)
(** ** The run that reaches the purge *)
(* ================================================================== *)

Section PurgeFacts.

Variable E : env.
Variable sv : service.

Lemma run_call_outside_store {X : Type} (c : call X) (st : state) :
  match event_of c with
  | EPreprocess _ | EOcr _ | EChatCompletion _ _ | EDelete _ => True
  | _ => False
  end ->
  snd (perform sv st c) = docs st.
Proof. destruct c; simpl; tauto. Qed.

Lemma run_ocr_files (fs : list file) (texts : list string) (st : state) :
  exists evs,
    run sv (ocr_files fs texts) st
    = (Ok (extracted sv fs texts), mk_state (docs st) (trace st ++ evs)).
Proof.
  revert texts st. induction fs as [|f fs IH]; intros texts st; cbn [ocr_files extracted].
  - exists []. rewrite app_nil_r. destruct st; reflexivity.
  - rewrite run_bind, run_try_catch, run_bind, run_await. unfold after. cbn [perform fst snd].
    destruct (preprocess sv (path f)) as [buf|e]; cbn [run].
    + rewrite run_bind, run_await. unfold after. cbn [perform fst snd trace docs].
      destruct (ocr sv buf) as [res|e]; cbn [run].
      * edestruct IH as (evs & ->).
        cbn [docs trace]. eexists. rewrite <- !app_assoc. reflexivity.
      * edestruct IH as (evs & ->).
        cbn [docs trace]. eexists. rewrite <- !app_assoc. reflexivity.
    + edestruct IH as (evs & ->).
      cbn [docs trace]. eexists. rewrite <- !app_assoc. reflexivity.
Qed.

Lemma run_analyze (text : string) (instructions : value) (st : state) :
  exists evs,
    run sv (analyzeWithOpenAI E text instructions) st
    = (classified E sv text instructions, mk_state (docs st) (trace st ++ evs)).
Proof.
  unfold analyzeWithOpenAI, classified. destruct (openai E); cbn [negb].
  - rewrite run_bind, run_lift.
    destruct (instructions_text E instructions) as [instr|e]; cbn [bind].
    + rewrite run_bind, run_await. unfold after. cbn [perform fst snd].
      destruct (chat sv instr (user_prompt text)) as [content|e]; cbn [bind].
      * rewrite run_lift. eexists. reflexivity.
      * eexists. reflexivity.
    + exists []. rewrite app_nil_r. destruct st; reflexivity.
  - exists []. rewrite app_nil_r. destruct st; reflexivity.
Qed.

Lemma run_start_deletes (fs : list file) (st : state) :
  exists os,
    run sv (start_deletes fs) st
    = (Ok os, mk_state (docs st) (trace st ++ map (fun f => EDelete (path f)) fs))
    /\ forallb is_ok os = forallb (deletion_ok sv) fs.
Proof.
  revert st. induction fs as [|f fs IH]; intros st; cbn [start_deletes map forallb].
  - exists []. rewrite app_nil_r. destruct st. split; reflexivity.
  - rewrite run_bind, run_settle. cbn [perform fst snd].
    rewrite run_bind.
    edestruct IH as (os & -> & Hos).
    cbn [run docs trace]. eexists. split.
    + rewrite <- app_assoc. reflexivity.
    + cbn [forallb]. rewrite Hos. unfold deletion_ok at 2.
      destruct (remove sv (path f)); reflexivity.
Qed.

Lemma run_purgeImages (files : option (list file)) (st : state) :
  run sv (purgeImages files) st
  = (Ok (purge_ok sv files),
     mk_state (docs st)
              (trace st ++ map (fun f => EDelete (path f)) (files_or_empty files))).
Proof.
  unfold purgeImages, purge_ok. rewrite run_bind.
  destruct (run_start_deletes (files_or_empty files) st) as (os & -> & Hos).
  cbn [run]. rewrite Hos. reflexivity.
Qed.

End PurgeFacts.

Section PurgeClaim.

Variable E : env.
Variable sv : service.

Lemma purge_ok_iff (files : option (list file)) :
  purge_ok sv files = true
  <-> Forall (fun f => remove sv (path f) = Deleted \/ remove sv (path f) = NotFound)
             (files_or_empty files).
Proof.
  unfold purge_ok. rewrite forallb_forall, List.Forall_forall.
  split; intros H f Hf; specialize (H f Hf); unfold deletion_ok in *;
    destruct (remove sv (path f)); auto; try discriminate; destruct H; discriminate.
Qed.

Lemma after_JobGet (st : state) (id : string) :
  fault sv (length (trace st)) = None ->
  after sv st (JobGet id)
  = (Ok (jobs (docs st) !! id), mk_state (docs st) (trace st ++ [EJobGet id])).
Proof. intros F. unfold after. cbn [perform]. unfold store. rewrite F. reflexivity. Qed.

Lemma after_JobUpdate (st : state) (id : string) (p : Job.patch) (j : Job.t) :
  fault sv (length (trace st)) = None ->
  jobs (docs st) !! id = Some j ->
  after sv st (JobUpdate id p)
  = (Ok tt,
     mk_state (mk_world (<[id := Job.update p j]> (jobs (docs st))) (reports (docs st)))
              (trace st ++ [EJobUpdate id p])).
Proof.
  intros F Hj. unfold after. cbn [perform]. unfold store. rewrite F, Hj. reflexivity.
Qed.

Lemma after_ReportSet (st : state) (id : string) (r : ReportDoc.t) :
  fault sv (length (trace st)) = None ->
  after sv st (ReportSet id r)
  = (Ok tt,
     mk_state (mk_world (jobs (docs st)) (<[id := r]> (reports (docs st))))
              (trace st ++ [EReportSet id r])).
Proof. intros F. unfold after. cbn [perform]. unfold store. rewrite F. reflexivity. Qed.

Lemma after_ReportUpdate (st : state) (id : string) (b : bool) (r : ReportDoc.t) :
  fault sv (length (trace st)) = None ->
  reports (docs st) !! id = Some r ->
  after sv st (ReportUpdate id b)
  = (Ok tt,
     mk_state (mk_world (jobs (docs st))
                        (<[id := ReportDoc.set_images_deleted b r]> (reports (docs st))))
              (trace st ++ [EReportUpdate id b])).
Proof.
  intros F Hr. unfold after. cbn [perform]. unfold store. rewrite F, Hr. reflexivity.
Qed.

(** *** C9 *)

(** C9.  Take a run in which the document store accepts every call and
    the classification succeeds, so that the report is persisted.  The
    deletion of every file is then requested, and the purge succeeds exactly
    when each deletion succeeds or reports not-found.  In that case the job
    ends "complete" with no warning added and the report's [images_deleted]
    is true.  Otherwise the job still ends "complete", with the warning
    "purge_failed_lifecycle_will_cleanup", and [images_deleted] stays
    false. *)
Theorem purge_outcome_decides_flag
    (body : value) (st : state) (id : string) (job : Job.t) (rep : Report.t) :
  carries E body id ->
  jobs (docs st) !! id = Some job ->
  over_limit E job = false ->
  (forall n, fault sv n = None) ->
  classified E sv (ocr_text E sv job) (Job.instructions job) = Ok rep ->
  exists st' job' doc',
    run sv (handler E body) st = (Ok (mk_response 200 "ok"), st')
    /\ jobs (docs st') !! id = Some job'
    /\ reports (docs st') !! id = Some doc'
    /\ Job.status job' = "complete"
    /\ Job.reportId job' = Some id
    /\ ReportDoc.json doc' = rep
    /\ Forall (fun f => In (EDelete (path f)) (trace st')) (files_or_empty (Job.files job))
    /\ (purge_ok sv (Job.files job) = true
        <-> Forall (fun f => remove sv (path f) = Deleted \/ remove sv (path f) = NotFound)
                   (files_or_empty (Job.files job)))
    /\ (purge_ok sv (Job.files job) = true ->
        ReportDoc.images_deleted doc' = true /\ Job.warn job' = Job.warn job)
    /\ (purge_ok sv (Job.files job) = false ->
        ReportDoc.images_deleted doc' = false
        /\ Job.warn job' = Some "purge_failed_lifecycle_will_cleanup").
Proof.
  intros C Hjob Hover Hf Hrep.
  unfold handler. rewrite run_try_catch, (run_main_carries E sv body id st C).
  rewrite after_JobGet by apply Hf. rewrite Hjob, Hover.
  (* processing *)
  rewrite run_bind, run_await, (after_JobUpdate _ _ _ job) by (apply Hf || exact Hjob).
  (* the files *)
  rewrite run_bind.
  edestruct (run_ocr_files sv (files_or_empty (Job.files job)) []) as (evs1 & ->).
  (* classification *)
  rewrite run_bind.
  edestruct (run_analyze E sv) as (evs2 & ->).
  fold (ocr_text E sv job). rewrite Hrep. cbn [docs trace].
  (* the report *)
  rewrite run_bind, run_await, after_ReportSet by apply Hf.
  (* purge *)
  rewrite run_bind, run_purgeImages. cbn [docs trace].
  (* completion *)
  rewrite run_bind, run_await, (after_JobUpdate _ _ _ (Job.update processing job))
    by (apply Hf || (cbn [docs jobs]; apply lookup_insert_eq)).
  rewrite run_bind. cbn [docs trace jobs reports].
  assert (Hdel : forall evs,
             Forall (fun f => In (EDelete (path f))
                                 (evs ++ map (fun f => EDelete (path f))
                                           (files_or_empty (Job.files job))))
                    (files_or_empty (Job.files job))).
  { intros evs. apply List.Forall_forall. intros f Hin. apply in_or_app. right.
    apply in_map_iff. eauto. }
  destruct (purge_ok sv (Job.files job)) eqn:P.
  - rewrite run_await, (after_ReportUpdate _ _ _
        (ReportDoc.mk id (or_else (Job.userId job) VNull) id rep false))
      by (apply Hf || (cbn [docs reports]; apply lookup_insert_eq)).
    cbn [run].
    do 3 eexists. split; [reflexivity|]. cbn [docs jobs reports trace].
    rewrite !lookup_insert_eq.
    split; [reflexivity|]. split; [reflexivity|]. split; [reflexivity|].
    split; [reflexivity|]. split; [reflexivity|].
    split. { apply List.Forall_forall. intros f Hin. apply in_or_app. left.
             apply in_or_app. left. revert f Hin. apply List.Forall_forall. apply Hdel. }
    split; [split; [intros _; apply purge_ok_iff; exact P|reflexivity]|].
    split; [intros _; split; reflexivity|discriminate].
  - cbn [run].
    do 3 eexists. split; [reflexivity|]. cbn [docs jobs reports trace].
    rewrite !lookup_insert_eq.
    split; [reflexivity|]. split; [reflexivity|]. split; [reflexivity|].
    split; [reflexivity|]. split; [reflexivity|].
    split. { apply List.Forall_forall. intros f Hin. apply in_or_app. left.
             revert f Hin. apply List.Forall_forall. apply Hdel. }
    split; [split; [discriminate|intros H; apply purge_ok_iff in H; congruence]|].
    split; [discriminate|intros _; split; reflexivity].
Qed.

End PurgeClaim.

(* ================================================================== *)
(** ** Runs on sample data *)
(* ================================================================== *)

Section SampleRuns.

Lemma carries_sample (id : string) : str_nonempty id = true -> carries sample_env (body_for id) id.
Proof.
  intros H. unfold carries, message_data, body_for. cbn. rewrite H. repeat split; reflexivity.
Qed.

Lemma too_many_files_no_downstream_work_witness :
  exists resp st',
    run sample_service (handler sample_env (body_for "job-2")) sample_state = (Ok resp, st')
    /\ status_code resp = 200
    /\ trace st' = [EJobGet "job-2"; EJobUpdate "job-2" (too_many_files (Fin 3))]
    /\ exists job', jobs (docs st') !! "job-2" = Some job' /\ Job.status job' = "error".
Proof.
  destruct (too_many_files_no_downstream_work sample_env sample_service
              (body_for "job-2") sample_state "job-2" job_big)
    as (resp & st' & evs & R & H200 & Htr & _ & H);
    [apply carries_sample; reflexivity|reflexivity|reflexivity|].
  destruct (H eq_refl eq_refl) as (-> & _ & job' & msg & Hj & Hs & _).
  exists resp, st'. split; [exact R|]. split; [exact H200|]. split; [exact Htr|].
  exists job'. split; [exact Hj|exact Hs].
Defined.



Lemma purge_outcome_decides_flag_witness :
  exists st' job' doc',
    run sample_service (handler sample_env (body_for "job-3")) sample_state
    = (Ok (mk_response 200 "ok"), st')
    /\ jobs (docs st') !! "job-3" = Some job'
    /\ reports (docs st') !! "job-3" = Some doc'
    /\ Job.status job' = "complete"
    /\ ReportDoc.images_deleted doc' = false
    /\ Job.warn job' = Some "purge_failed_lifecycle_will_cleanup".
Proof.
  destruct (classified sample_env sample_service (ocr_text sample_env sample_service job_locked)
              (Job.instructions job_locked)) as [rep|e] eqn:Hc;
    [|vm_compute in Hc; discriminate].
  destruct (purge_outcome_decides_flag sample_env sample_service
              (body_for "job-3") sample_state "job-3" job_locked rep)
    as (st' & job' & doc' & R & Hj & Hd & Hs & _ & _ & _ & _ & _ & Hfail);
    [apply carries_sample; reflexivity|reflexivity|reflexivity|reflexivity|exact Hc|].
  destruct (Hfail eq_refl) as (Hflag & Hwarn).
  exists st', job', doc'. repeat split; assumption.
Defined.

End SampleRuns.

(* ================================================================== *)
(** ** Further properties of the worker *)
(* ================================================================== *)

Section LabelFacts.
Local Open Scope Q_scope.

Lemma normalizeTactic_labels (t : value) (o : Tactic.t) :
  normalizeTactic t = Ok o ->
  nullish t = false
  /\ exists ids,
       ToString (or_else (or_else (prop t "id") (prop t "name")) (VStr "")) = Ok ids
       /\ Tactic.id o
          = (if str_nonempty (toLowerCase ids) && includes TACTIC_IDS (toLowerCase ids)
             then toLowerCase ids else "other")
       /\ Tactic.name o
          = or_else (prop t "name")
              (VStr (if str_nonempty (toLowerCase ids) then titleCase (toLowerCase ids)
                     else "Other")).
Proof.
  intros H. destruct (nullish t) eqn:Hn.
  { unfold normalizeTactic, get in H. rewrite Hn in H. discriminate. }
  split; [reflexivity|].
  unfold normalizeTactic in H. rewrite !(get_ok t) in H by assumption. cbn [bind] in H.
  apply bind_returns in H. destruct H as (ids & Hids & H). exists ids. split; [exact Hids|].
  repeat match type of H with
         | bind _ _ = Ok _ => apply bind_returns in H; destruct H as (? & _ & H)
         end.
  injection H as <-. split; reflexivity.
Qed.

End LabelFacts.

Section Labels.
Local Open Scope Q_scope.

Lemma includes_In (l : list string) (s : string) : includes l s = true -> In s l.
Proof.
  unfold includes. rewrite existsb_exists. intros (x & Hx & E).
  apply String.eqb_eq in E. subst. exact Hx.
Qed.

Lemma taxonomy_nonempty (s : string) : includes TACTIC_IDS s = true -> str_nonempty s = true.
Proof. destruct s; [discriminate|reflexivity]. Qed.

Lemma toLowerCase_nonempty (s : string) : str_nonempty (toLowerCase s) = str_nonempty s.
Proof. destruct s; reflexivity. Qed.

Lemma titleCase_nonempty (s : string) : str_nonempty s = true -> str_nonempty (titleCase s) = true.
Proof.
  destruct s as [|c s]; [discriminate|]. intros _. unfold titleCase, chars.
  cbn [list_ascii_of_string title_scan].
  destruct (true && is_word c); [reflexivity|].
  destruct ((code c =? 45)%N || (code c =? 95)%N); [|reflexivity].
  destruct (list_ascii_of_string s) as [|d r]; [reflexivity|].
  destruct (is_word d); reflexivity.
Qed.

(** The entries of [raw.tactics] and the tactics of the report, side by side. *)
Lemma report_entries (raw : value) (out : Report.t) :
  normalizeReport raw = Ok out ->
  Forall2 (fun t (o : tactic) => normalizeTactic t = Ok (obj o))
          (raw_entries raw) (Report.tactics out).
Proof.
  intros H. apply normalizeReport_returns in H.
  destruct H as (_ & c & objs & _ & Hobjs & ->).
  apply mapM_returns in Hobjs. unfold assemble. cbn [Report.tactics].
  apply Forall2_contributions. exact Hobjs.
Qed.

Lemma Forall2_weaken {A B : Type} (P Q : A -> B -> Prop) (l : list A) (l' : list B) :
  (forall a b, P a b -> Q a b) -> Forall2 P l l' -> Forall2 Q l l'.
Proof. intros H. induction 1; constructor; auto. Qed.

(** The identifier of an output tactic, read off the entry. *)
Lemma normalizeTactic_id (t : value) (o : Tactic.t) :
  normalizeTactic t = Ok o ->
  In (Tactic.id o) output_ids
  /\ (forall s, prop t "id" = VStr s -> s <> "" ->
        Tactic.id o = if includes TACTIC_IDS (toLowerCase s) then toLowerCase s else "other")
  /\ (forall s, truthy (prop t "id") = false -> prop t "name" = VStr s ->
        Tactic.id o = if includes TACTIC_IDS (toLowerCase s) then toLowerCase s else "other").
Proof.
  intros H. destruct (normalizeTactic_labels t o H) as (_ & ids & Hids & Hid & _).
  assert (E : Tactic.id o
              = if includes TACTIC_IDS (toLowerCase ids) then toLowerCase ids else "other").
  { rewrite Hid. destruct (includes TACTIC_IDS (toLowerCase ids)) eqn:I.
    - rewrite (taxonomy_nonempty _ I). reflexivity.
    - rewrite andb_false_r. reflexivity. }
  split; [|split].
  - rewrite E. destruct (includes TACTIC_IDS (toLowerCase ids)) eqn:I.
    + right. apply includes_In. exact I.
    + left. reflexivity.
  - intros s Hs Hne. rewrite Hs in Hids. unfold or_else in Hids. cbn [truthy] in Hids.
    destruct s as [|c s]; [congruence|]. cbn [str_nonempty ToString] in Hids.
    injection Hids as <-. exact E.
  - intros s Hf Hs. unfold or_else in Hids. rewrite Hf, Hs in Hids. cbn [truthy] in Hids.
    destruct (str_nonempty s) eqn:N; cbn [ToString] in Hids; injection Hids as <-.
    + exact E.
    + destruct s; [exact E|discriminate].
Qed.

(** The name of an output tactic, read off the entry. *)
Lemma normalizeTactic_name (t : value) (o : Tactic.t) :
  normalizeTactic t = Ok o ->
  truthy (Tactic.name o) = true
  /\ (truthy (prop t "name") = true -> Tactic.name o = prop t "name")
  /\ (forall s, truthy (prop t "name") = false -> prop t "id" = VStr s -> s <> "" ->
        Tactic.name o = VStr (titleCase (toLowerCase s)))
  /\ (truthy (prop t "name") = false -> truthy (prop t "id") = false ->
        Tactic.name o = VStr "Other").
Proof.
  intros H. destruct (normalizeTactic_labels t o H) as (_ & ids & Hids & _ & Hname).
  rewrite Hname. unfold or_else at 1 2 3 4.
  split; [|split; [|split]].
  - destruct (truthy (prop t "name")) eqn:T; [exact T|]. cbn [truthy].
    destruct (str_nonempty (toLowerCase ids)) eqn:N; [|reflexivity].
    apply titleCase_nonempty. exact N.
  - intros ->. reflexivity.
  - intros s Hf Hs Hne. rewrite Hf. rewrite Hs in Hids. unfold or_else in Hids.
    destruct s as [|c s]; [congruence|]. cbn [truthy str_nonempty ToString] in Hids.
    injection Hids as <-. reflexivity.
  - intros Hf Hi. rewrite Hf. unfold or_else in Hids. rewrite Hi, Hf in Hids.
    cbn [truthy str_nonempty ToString] in Hids. injection Hids as <-. reflexivity.
Qed.

(** X1.  Every tactic of a returned report carries one of the twelve
    identifiers of the taxonomy, or "other".  The identifier is the entry's
    [id] in lower case when that is a taxonomy identifier, and "other" when
    it is not; an entry with no [id] is identified by its [name] in the same
    way. *)
Theorem tactic_ids_come_from_the_taxonomy (raw : value) (out : Report.t) :
  normalizeReport raw = Ok out ->
  Forall2 (fun t (o : tactic) =>
             In (Tactic.id o) output_ids
             /\ (forall s, prop t "id" = VStr s -> s <> "" ->
                   Tactic.id o
                   = if includes TACTIC_IDS (toLowerCase s) then toLowerCase s else "other")
             /\ (forall s, truthy (prop t "id") = false -> prop t "name" = VStr s ->
                   Tactic.id o
                   = if includes TACTIC_IDS (toLowerCase s) then toLowerCase s else "other"))
          (raw_entries raw) (Report.tactics out).
Proof.
  intros H. eapply Forall2_weaken; [|exact (report_entries raw out H)].
  intros t o Ho. exact (normalizeTactic_id t (obj o) Ho).
Qed.

(** X2.  Every tactic of a returned report has a name that is not empty.
    A name the entry supplies is kept as it is; an entry without one is
    named after its [id], in lower case with each part capitalised and the
    separators turned into spaces, and "Other" when it has no [id] either.
    The twelve identifiers of the taxonomy read as listed. *)
Theorem tactic_names_are_never_empty (raw : value) (out : Report.t) :
  normalizeReport raw = Ok out ->
  Forall2 (fun t (o : tactic) =>
             truthy (Tactic.name o) = true
             /\ (truthy (prop t "name") = true -> Tactic.name o = prop t "name")
             /\ (forall s, truthy (prop t "name") = false -> prop t "id" = VStr s -> s <> "" ->
                   Tactic.name o = VStr (titleCase (toLowerCase s)))
             /\ (truthy (prop t "name") = false -> truthy (prop t "id") = false ->
                   Tactic.name o = VStr "Other"))
          (raw_entries raw) (Report.tactics out)
  /\ map titleCase TACTIC_IDS
     = [ "Gaslighting"; "Darvo"; "Blame Shifting"; "Minimization"; "Stonewalling"; "Contempt";
         "Guilt Tripping"; "Threats"; "Coercion"; "Triangulation"; "Boundaries"; "Projection" ].
Proof.
  intros H. split; [|reflexivity].
  eapply Forall2_weaken; [|exact (report_entries raw out H)].
  intros t o Ho. exact (normalizeTactic_name t (obj o) Ho).
Qed.

End Labels.

Section LabelWitnesses.

Lemma tactic_ids_come_from_the_taxonomy_witness :
  exists out,
    normalizeReport labelled_entries = Ok out
    /\ Forall (fun t : tactic => In (Tactic.id t) output_ids) (Report.tactics out)
    /\ map (fun t : tactic => Tactic.id t) (Report.tactics out)
       = ["blame-shifting"; "darvo"; "other"; "other"].
Proof.
  destruct (normalizeReport labelled_entries) as [out|e] eqn:E;
    [|vm_compute in E; discriminate].
  exists out. split; [reflexivity|]. split.
  - assert (H := tactic_ids_come_from_the_taxonomy _ out E).
    induction H as [|t o l l' (Hin & _) _ IH]; constructor; assumption.
  - vm_compute in E. injection E as <-. reflexivity.
Defined.

Lemma tactic_names_are_never_empty_witness :
  exists out,
    normalizeReport labelled_entries = Ok out
    /\ Forall (fun t : tactic => truthy (Tactic.name t) = true) (Report.tactics out)
    /\ map (fun t : tactic => Tactic.name t) (Report.tactics out)
       = [VStr "Blame Shifting"; VStr "DARVO"; VStr "Love Bombing"; VStr "7"].
Proof.
  destruct (normalizeReport labelled_entries) as [out|e] eqn:E;
    [|vm_compute in E; discriminate].
  exists out. split; [reflexivity|]. split.
  - destruct (tactic_names_are_never_empty _ out E) as (H & _).
    induction H as [|t o l l' (Ht & _) _ IH]; constructor; assumption.
  - vm_compute in E. injection E as <-. reflexivity.
Defined.

End LabelWitnesses.

Section ScoreFacts.
Local Open Scope Q_scope.


Lemma clampQ_range (lo hi x : Q) : lo <= hi -> lo <= clampQ lo hi x <= hi.
Proof.
  intros H. unfold clampQ. split; [apply Q.le_max_l|].
  apply Q.max_lub; [exact H|apply Q.le_min_l].
Qed.




End ScoreFacts.

Section ScoreExtras.
Local Open Scope Q_scope.



End ScoreExtras.

Section AverageBounds.
Local Open Scope Q_scope.

Lemma Qsum_between (l : list (string * Q)) (a b : Q) :
  Forall (fun t => a <= snd t <= b) l ->
  a * Qsum (map (fun t => spec_weight (fst t)) l)
  <= 100 * Qsum (map (fun t => snd t / 100 * spec_weight (fst t)) l)
  /\ 100 * Qsum (map (fun t => snd t / 100 * spec_weight (fst t)) l)
     <= b * Qsum (map (fun t => spec_weight (fst t)) l).
Proof.
  induction 1 as [|t l (Ha & Hb) _ (IH1 & IH2)]; cbn [map].
  - unfold Qsum. simpl. lra.
  - rewrite !Qsum_cons. assert (Hw := spec_weight_pos (fst t)).
    assert (L := Qmult_le_compat_r _ _ (spec_weight (fst t)) Ha ltac:(lra)).
    assert (U := Qmult_le_compat_r _ _ (spec_weight (fst t)) Hb ltac:(lra)).
    revert IH1 IH2 L U.
    generalize (Qsum (map (fun t => spec_weight (fst t)) l)),
      (Qsum (map (fun t => snd t / 100 * spec_weight (fst t)) l)).
    intros W A IH1 IH2 L U. qconst. split; lra.
Qed.

(** The average of scores lies between their bounds. *)
Lemma spec_average_between (l : list (string * Q)) (a b : Z) :
  l <> [] -> Forall (fun t => inject_Z a <= snd t <= inject_Z b) l ->
  (a <= spec_average l <= b)%Z.
Proof.
  intros Hl H. unfold spec_average.
  assert (Hp := Qsum_weights_pos l Hl). destruct (Qsum_between l _ _ H) as (H1 & H2).
  revert Hp H1 H2.
  generalize (Qsum (map (fun t => spec_weight (fst t)) l)),
    (Qsum (map (fun t => snd t / 100 * spec_weight (fst t)) l)).
  intros W A Hp H1 H2.
  assert (E : 100 * (A / W) == 100 * A / W) by (field; lra).
  apply round_between; rewrite E.
  - apply Qle_shift_div_l; assumption.
  - apply Qle_shift_div_r; assumption.
Qed.

End AverageBounds.

Section PoisonFacts.
Local Open Scope Q_scope.

Lemma scored_or_not (objs : list Tactic.t) :
  scored objs \/ Exists (fun o => Tactic.score o = NaN) objs.
Proof.
  induction objs as [|o objs [IH|IH]].
  - left. constructor.
  - destruct (NaN_dec (Tactic.score o)) as [E|E].
    + right. left. exact E.
    + left. constructor; assumption.
  - right. right. exact IH.
Qed.

(** One score that is [NaN] makes the sums of the loop [NaN]; the sum of
    the weights stays a positive number. *)
Lemma fold_accumulate_NaN (l : list (string * number)) (acc : sums) (d : Q) :
  Forall (fun t => snd t = NaN \/ exists q, snd t = Fin q) l ->
  den acc = Fin d -> 0 <= d ->
  (num acc = NaN /\ sumWeightScore acc = NaN) \/ Exists (fun t => snd t = NaN) l ->
  (num acc = NaN \/ exists q, num acc = Fin q) ->
  (sumWeightScore acc = NaN \/ exists q, sumWeightScore acc = Fin q) ->
  num (fold_left accumulate l acc) = NaN
  /\ sumWeightScore (fold_left accumulate l acc) = NaN
  /\ exists d', den (fold_left accumulate l acc) = Fin d' /\ d <= d' /\ (l <> [] -> 0 < d').
Proof.
  intros H. revert acc d. induction H as [|[i s] l Hs _ IH]; intros acc d Hd Hpos Hex Hn Hw.
  - cbn [fold_left]. destruct Hex as [(H1 & H2)|Hex]; [|inversion Hex].
    split; [exact H1|]. split; [exact H2|]. exists d. split; [exact Hd|]. split; [lra|congruence].
  - cbn [fold_left snd] in *. destruct (weight_spec i) as (w & Hwt & _ & Hwpos).
    destruct (IH (accumulate acc (i, s)) (d + w)) as (R1 & R2 & d' & R3 & R4 & _).
    + unfold accumulate. cbn [den fst]. rewrite Hd, Hwt. reflexivity.
    + lra.
    + unfold accumulate. cbn [num sumWeightScore fst snd]. rewrite Hwt.
      destruct Hex as [(H1 & H2)|Hex].
      * left. rewrite H1, H2. split; reflexivity.
      * inversion Hex as [? ? Hx|? ? Hx]; subst.
        -- left. cbn [snd] in Hx. subst s.
           destruct Hn as [-> | (q & ->)], Hw as [-> | (q' & ->)]; split; reflexivity.
        -- right. exact Hx.
    + unfold accumulate. cbn [num fst snd]. rewrite Hwt.
      destruct Hn as [-> | (q & ->)]; [left; reflexivity|].
      destruct Hs as [-> | (q' & ->)]; [left; reflexivity|].
      right. cbn [num_div]. change (Qis_zero 100) with false. cbv iota.
      cbn [num_mul num_add]. eauto.
    + unfold accumulate. cbn [sumWeightScore fst snd]. rewrite Hwt.
      destruct Hw as [-> | (q & ->)]; [left; reflexivity|].
      destruct Hs as [-> | (q' & ->)]; [left; destruct q; reflexivity|].
      right. cbn [num_mul num_add]. eauto.
    + split; [exact R1|]. split; [exact R2|]. exists d'. split; [exact R3|].
      split; [lra|]. intros _. lra.
Qed.

(** The report whose objects hold a score that is [NaN]. *)
Lemma overall_NaN (objs : list Tactic.t) :
  Forall (fun o => Tactic.score o = NaN \/ integer_within 0 100 (Tactic.score o)) objs ->
  Exists (fun o => Tactic.score o = NaN) objs ->
  overall_score (overall (seen_entries objs)) = NaN
  /\ sumWeightScore (overall (seen_entries objs)) = NaN.
Proof.
  intros R Ex. destruct objs as [|o objs]; [inversion Ex|].
  unfold seen_entries, overall.
  destruct (fold_accumulate_NaN (map (fun t => (Tactic.id t, Tactic.score t)) (o :: objs))
              (mk_sums (Fin 0) (Fin 0) (Fin 0)) 0) as (H1 & H2 & d & H3 & _ & H4).
  - rewrite Forall_map. eapply List.Forall_impl; [|exact R].
    cbn [snd]. intros a [Ha | (z & Hz & _)]; [left; exact Ha|right; eexists; exact Hz].
  - reflexivity.
  - lra.
  - right. rewrite Exists_map. exact Ex.
  - right. eexists. reflexivity.
  - right. eexists. reflexivity.
  - split; [|exact H2]. unfold overall_score. rewrite H1, H3. cbn [num_truthy].
    assert (Hz : Qis_zero d = false) by (apply Qis_zero_false; specialize (H4 ltac:(discriminate)); lra).
    rewrite Hz. reflexivity.
Qed.

End PoisonFacts.

Section AverageExtras.
Local Open Scope Q_scope.

Lemma report_objects (raw : value) (out : Report.t) :
  normalizeReport raw = Ok out ->
  exists c objs,
    out = assemble raw c objs
    /\ Forall (fun o => Tactic.score o = NaN \/ integer_within 0 100 (Tactic.score o)) objs
    /\ Forall2 (fun t o => normalizeTactic t = Ok o) (raw_entries raw) objs.
Proof.
  intros H. apply normalizeReport_returns in H.
  destruct H as (_ & c & objs & _ & Hobjs & ->). exists c, objs.
  split; [reflexivity|]. split; [exact (mapM_normalizeTactic _ _ Hobjs)|].
  apply mapM_returns. exact Hobjs.
Qed.

(** X4.  The risk score of a returned report lies between the lowest and
    the highest score of its tactics: when every tactic scores between two
    integers, so does the report. *)
Theorem risk_score_between_tactic_scores (raw : value) (out : Report.t) (lo hi : Z) :
  normalizeReport raw = Ok out ->
  Report.tactics out <> [] ->
  Forall (fun t : tactic => exists z, Tactic.score t = num_of_Z z /\ (lo <= z <= hi)%Z)
         (Report.tactics out) ->
  integer_within lo hi (Report.risk_score out).
Proof.
  intros H Hne Hall. destruct (report_objects raw out H) as (c & objs & -> & R & _).
  unfold assemble in *. cbn [Report.tactics Report.risk_score] in *.
  rewrite Forall_map in Hall. cbn [obj] in Hall.
  assert (S : scored objs).
  { eapply List.Forall_impl; [|exact Hall]. intros o (z & Hz & _). rewrite Hz. discriminate. }
  destruct (overall_score_scored objs R S) as (E & _).
  destruct objs as [|o objs]; [exfalso; apply Hne; reflexivity|]. rewrite E.
  eexists. split; [reflexivity|]. apply spec_average_between; [discriminate|].
  unfold entries_of. rewrite Forall_map. cbn [snd].
  eapply List.Forall_impl; [|exact Hall]. intros a (z & Hz & Hr). rewrite Hz.
  cbn [num_value num_of_Z]. rewrite <- !Zle_Qle. exact Hr.
Qed.

End AverageExtras.

Section PoisonExtras.
Local Open Scope Q_scope.

(** X5.  A frequency that cannot be read as a number spoils the report.
    The score of a tactic is [NaN] exactly when its frequency is; and as
    soon as one tactic of a returned report has such a score, the risk score
    of the report is [NaN], the label derived from it is "high", and every
    contribution is 0. *)
Theorem unreadable_frequency_spoils_the_report (raw : value) (out : Report.t) :
  normalizeReport raw = Ok out ->
  Forall (fun t : tactic => Tactic.score t = NaN <-> Tactic.frequency t = NaN)
         (Report.tactics out)
  /\ (Exists (fun t : tactic => Tactic.score t = NaN) (Report.tactics out) ->
      Report.risk_score out = NaN
      /\ (truthy (prop raw "risk_label") = false -> Report.risk_label out = VStr "high")
      /\ Forall (fun t : tactic => contribution_pct t = Fin 0) (Report.tactics out)).
Proof.
  intros H. destruct (report_objects raw out H) as (c & objs & -> & R & F).
  unfold assemble. cbn [Report.tactics Report.risk_score Report.risk_label]. split.
  - rewrite Forall_map. cbn [obj]. clear R H.
    induction F as [|t o l objs Ho _ IH]; [constructor|]. constructor; [|exact IH].
    destruct (normalizeTactic_returns t o Ho) as (_ & _ & _ & _ & (H1 & H2) & _).
    split; assumption.
  - intros Ex. rewrite Exists_map in Ex. cbn [obj] in Ex.
    destruct (overall_NaN objs R Ex) as (-> & ->).
    split; [reflexivity|]. split.
    + intros T. unfold or_else. rewrite T. reflexivity.
    + rewrite Forall_map. cbn [contribution_pct]. apply List.Forall_forall. intros o _.
      apply contribution_not_positive. reflexivity.
Qed.

Lemma unreadable_frequency_spoils_the_report_witness :
  exists out, normalizeReport unread_frequency = Ok out
              /\ Report.risk_score out = NaN
              /\ Report.risk_label out = VStr "high"
              /\ map contribution_pct (Report.tactics out) = [Fin 0; Fin 0].
Proof.
  destruct (normalizeReport unread_frequency) as [out|e] eqn:E;
    [|vm_compute in E; discriminate].
  exists out. split; [reflexivity|].
  destruct (unreadable_frequency_spoils_the_report _ out E) as (_ & H).
  assert (Ex : Exists (fun t : tactic => Tactic.score t = NaN) (Report.tactics out)).
  { vm_compute in E. injection E as <-. left. reflexivity. }
  destruct (H Ex) as (H1 & H2 & H3). split; [exact H1|]. split; [apply H2; reflexivity|].
  vm_compute in E. injection E as <-. reflexivity.
Defined.

Lemma risk_score_between_tactic_scores_witness :
  exists out, normalizeReport scores_40_to_65 = Ok out
              /\ map (fun t : tactic => Tactic.score t) (Report.tactics out)
                 = [num_of_Z 58; num_of_Z 65; num_of_Z 40]
              /\ integer_within 40 65 (Report.risk_score out).
Proof.
  destruct (normalizeReport scores_40_to_65) as [out|e] eqn:E;
    [|vm_compute in E; discriminate].
  exists out. split; [reflexivity|].
  assert (S : map (fun t : tactic => Tactic.score t) (Report.tactics out)
              = [num_of_Z 58; num_of_Z 65; num_of_Z 40]).
  { vm_compute in E. injection E as <-. reflexivity. }
  split; [exact S|].
  apply (risk_score_between_tactic_scores _ out 40 65 E).
  - intros N. rewrite N in S. discriminate.
  - destruct (Report.tactics out) as [|a [|b [|d [|? ?]]]]; try discriminate.
    injection S as Sa Sb Sd.
    repeat constructor; eexists; (split; [eassumption|lia]).
Defined.

End PoisonExtras.

Section ContributionRange.
Local Open Scope Q_scope.

Lemma part_le_total (es : list (string * Q)) (t : string * Q) :
  Forall (fun t => 0 <= snd t <= 100) es -> In t es ->
  0 <= snd t * spec_weight (fst t) <= total_weighted es.
Proof.
  intros H. induction H as [|u es Hu Hes IH]; [intros []|].
  unfold total_weighted in *. cbn [map]. rewrite Qsum_cons.
  assert (Hw := spec_weight_pos (fst u)).
  assert (Hp : 0 <= snd u * spec_weight (fst u)) by (apply Qmult_le_0_compat; lra).
  assert (Hr := total_weighted_nonneg es Hes). unfold total_weighted in Hr.
  intros [<- | Hin].
  - lra.
  - specialize (IH Hin). lra.
Qed.

(** A share is a number of tenths between 0 and 100. *)
Lemma spec_share_range (total : Q) (id : string) (q : Q) :
  0 < total -> 0 <= q * spec_weight id <= total ->
  exists z, (0 <= z <= 1000)%Z /\ spec_share total id q == inject_Z z / 10.
Proof.
  intros Ht (H0 & H1). unfold spec_share.
  exists (Qfloor (q * spec_weight id / total * 1000 + (1 # 2))). split; [|reflexivity].
  apply round_between.
  - change (inject_Z 0) with 0. apply Qmult_le_0_compat; [|lra].
    apply Qle_shift_div_l; lra.
  - change (inject_Z 1000) with (1 * 1000). apply Qmult_le_compat_r; [|lra].
    apply Qle_shift_div_r; lra.
Qed.

(** X6.  In every returned report each contribution is a number of tenths
    between 0 and 100. *)
Theorem contribution_pct_is_a_percentage (raw : value) (out : Report.t) :
  normalizeReport raw = Ok out ->
  Forall (fun t : tactic =>
            exists (z : Z) (q : Q),
              contribution_pct t = Fin q /\ q == inject_Z z / 10 /\ (0 <= z <= 1000)%Z)
         (Report.tactics out).
Proof.
  intros H. destruct (report_objects raw out H) as (c & objs & -> & R & _).
  unfold assemble. cbn [Report.tactics].
  destruct (scored_or_not objs) as [S|Ex].
  - destruct (scored_entries objs R S) as (Eseen & Hrange).
    destruct objs as [|o objs]; [constructor|].
    unfold seen_entries. rewrite Eseen.
    destruct (overall_rational (entries_of (o :: objs))) as (a & b & s & -> & _ & _ & Es).
    cbn [sumWeightScore]. fold (total_weighted (entries_of (o :: objs))) in Es.
    assert (Hall := contributions_are_shares (o :: objs) s _ Es R S).
    unfold with_contributions in Hall.
    apply List.Forall_forall. intros t Hin.
    rewrite List.Forall_forall in Hall. destruct (Hall t Hin) as (f & Hf & Hpos & Hzero).
    destruct (Qlt_le_dec 0 (total_weighted (entries_of (o :: objs)))) as [P|P].
    + destruct (spec_share_range (total_weighted (entries_of (o :: objs)))
                  (Tactic.id t) (num_value (Tactic.score t)) P) as (z & Hz & Ez).
      { apply (part_le_total (entries_of (o :: objs))
                 (Tactic.id t, num_value (Tactic.score t)) Hrange).
        apply in_map_iff in Hin. destruct Hin as (o' & <- & Hin). cbn [obj].
        unfold entries_of. apply in_map_iff. exists o'. split; [reflexivity|exact Hin]. }
      exists z, f. split; [exact Hf|]. split; [|exact Hz]. rewrite (Hpos P). exact Ez.
    + exists 0%Z, f. split; [exact Hf|]. split; [|lia]. rewrite (Hzero P). reflexivity.
  - destruct (overall_NaN objs R Ex) as (_ & ->).
    rewrite Forall_map. cbn [contribution_pct]. apply List.Forall_forall. intros o _.
    rewrite contribution_not_positive by reflexivity.
    exists 0%Z, 0. split; [reflexivity|]. split; [reflexivity|lia].
Qed.

Lemma contribution_pct_is_a_percentage_witness :
  exists out, normalizeReport scores_40_to_65 = Ok out
              /\ Forall (fun t : tactic =>
                           exists (z : Z) (q : Q),
                             contribution_pct t = Fin q /\ q == inject_Z z / 10
                             /\ (0 <= z <= 1000)%Z)
                        (Report.tactics out)
              /\ map contribution_pct (Report.tactics out) = [Fin 42.1; Fin 37.1; Fin 20.8].
Proof.
  destruct (normalizeReport scores_40_to_65) as [out|e] eqn:E;
    [|vm_compute in E; discriminate].
  exists out. split; [reflexivity|].
  split; [exact (contribution_pct_is_a_percentage _ out E)|].
  vm_compute in E. injection E as <-. reflexivity.
Defined.

End ContributionRange.

Section PatternFacts.
Import Re.

Lemma consumes_lit (p : ascii -> bool) : consumes 1 (lit p).
Proof.
  intros [prev [|c r]] y; unfold lit; cbn [snd]; [intros []|].
  destruct (p c); [|intros []]. intros [<- | []]. cbn [snd length]. lia.
Qed.

Lemma consumes_eps : consumes 0 eps.
Proof. intros x y [<- | []]. lia. Qed.

Lemma consumes_fail (n : nat) : consumes n fail.
Proof. intros x y []. Qed.

Lemma consumes_word_boundary : consumes 0 word_boundary.
Proof.
  intros x y. unfold word_boundary.
  destruct (xorb _ _); [|intros []]. intros [<- | []]. lia.
Qed.

Lemma consumes_seq (n m : nat) (a b : pattern) :
  consumes n a -> consumes m b -> consumes (n + m) (seq a b).
Proof.
  intros Ha Hb x y Hy. unfold seq in Hy. apply in_flat_map in Hy.
  destruct Hy as (z & Hz & Hy). specialize (Ha x z Hz). specialize (Hb z y Hy). lia.
Qed.

Lemma consumes_alt (n : nat) (a b : pattern) :
  consumes n a -> consumes n b -> consumes n (alt a b).
Proof.
  intros Ha Hb x y Hy. unfold alt in Hy. apply in_app_or in Hy. destruct Hy; auto.
Qed.

Lemma consumes_less (n m : nat) (a : pattern) : (m <= n)%nat -> consumes n a -> consumes m a.
Proof. intros H Ha x y Hy. specialize (Ha x y Hy). lia. Qed.

Lemma consumes_seq_l (n : nat) (a b : pattern) :
  consumes n a -> consumes 0 b -> consumes n (seq a b).
Proof.
  intros Ha Hb. apply (consumes_less (n + 0)); [lia|]. apply consumes_seq; assumption.
Qed.

Lemma consumes_seq_r (n : nat) (a b : pattern) :
  consumes 0 a -> consumes n b -> consumes n (seq a b).
Proof. intros Ha Hb. exact (consumes_seq 0 n a b Ha Hb). Qed.

Lemma consumes_lit_0 (p : ascii -> bool) : consumes 0 (lit p).
Proof. apply (consumes_less 1); [lia|apply consumes_lit]. Qed.

Lemma consumes_many (p : ascii -> bool) : consumes 0 (many p).
Proof.
  intros [prev l] y. unfold many. cbn [fst snd]. revert prev.
  induction l as [|c r IH]; intros prev; cbn [many_from].
  - intros [<- | []]. cbn [snd]. lia.
  - destruct (p c).
    + intros H. apply in_app_or in H. destruct H as [H | [<- | []]].
      * specialize (IH _ H). cbn [length]. lia.
      * cbn [snd]. lia.
    + intros [<- | []]. cbn [snd]. lia.
Qed.

Lemma consumes_letters (l : list ascii) : consumes 0 (seqs (map letter l)).
Proof.
  induction l as [|c l IH]; cbn [map seqs fold_right]; [apply consumes_eps|].
  apply consumes_seq_r; [apply consumes_lit_0|exact IH].
Qed.

Lemma consumes_phrase (c : ascii) (w : string) : consumes 1 (phrase (String c w)).
Proof.
  unfold phrase, chars. cbn [list_ascii_of_string map seqs fold_right].
  apply consumes_seq_l; [apply consumes_lit|apply consumes_letters].
Qed.

Lemma consumes_labels : consumes 1 re_labels.
Proof.
  unfold re_labels, seqs, alts. cbn [fold_right].
  apply consumes_seq_r; [apply consumes_word_boundary|].
  apply consumes_seq_l.
  - repeat (apply consumes_alt; [apply consumes_phrase|]). apply consumes_fail.
  - apply consumes_seq_r; [apply consumes_word_boundary|apply consumes_eps].
Qed.

Lemma consumes_days : consumes 1 re_days.
Proof.
  unfold re_days, seqs, alts. cbn [fold_right].
  apply consumes_seq_r; [apply consumes_word_boundary|].
  apply consumes_seq_l.
  - repeat (apply consumes_alt; [apply consumes_phrase|]). apply consumes_fail.
  - apply consumes_seq_r; [apply consumes_word_boundary|apply consumes_eps].
Qed.

Lemma consumes_times : consumes 1 re_times.
Proof.
  unfold re_times, seqs, alts, opt. cbn [fold_right].
  apply consumes_seq_r; [apply consumes_word_boundary|].
  apply consumes_seq_r; [apply consumes_alt; [apply consumes_lit_0|apply consumes_eps]|].
  apply consumes_seq_l; [apply consumes_lit|].
  repeat first [ apply consumes_eps | apply consumes_fail | apply consumes_word_boundary
               | apply consumes_lit_0 | apply consumes_seq_r | apply consumes_alt
               | apply (consumes_less 1); [lia|apply consumes_phrase] ].
Qed.

Lemma match_length_le (re : pattern) (x : position) (n : nat) :
  match_length re x = Some n -> (n <= length (snd x))%nat.
Proof.
  unfold match_length. destruct (re x) as [|y ?]; [discriminate|]. intros [= <-]. lia.
Qed.

Lemma match_length_consumes (re : pattern) (k : nat) (x : position) (n : nat) :
  consumes k re -> match_length re x = Some n -> (k <= n)%nat.
Proof.
  intros H. unfold match_length. destruct (re x) as [|y ?] eqn:E; [discriminate|].
  intros [= <-]. specialize (H x y). rewrite E in H. specialize (H (or_introl eq_refl)). lia.
Qed.

End PatternFacts.

Section ReplaceFacts.
Import Re.

Variable re : pattern.
Variable by_ : list ascii.

Lemma replace_skip (k : nat) (l : list ascii) (prev : option ascii) :
  (k <= length l)%nat ->
  exists prev', replace_from re by_ prev k l = replace_from re by_ prev' 0 (skipn k l).
Proof.
  revert l prev. induction k as [|k IH]; intros l prev H.
  - exists prev. reflexivity.
  - destruct l as [|c r]; cbn [length] in H; [lia|].
    cbn [replace_from skipn]. apply IH. lia.
Qed.

Lemma replace_at_match (prev : option ascii) (l : list ascii) (n : nat) :
  match_length re (prev, l) = Some (S n) ->
  exists prev',
    replace_from re by_ prev 0 l = by_ ++ replace_from re by_ prev' 0 (skipn (S n) l).
Proof.
  intros H. assert (L := match_length_le _ _ _ H). cbn [snd] in L.
  destruct l as [|c r]; cbn [length] in L; [lia|].
  destruct (replace_skip n r (Some c)) as (prev' & E); [lia|].
  exists prev'. cbn [replace_from]. rewrite H. cbn [skipn]. rewrite E. reflexivity.
Qed.

Lemma replace_no_match (prev : option ascii) (c : ascii) (r : list ascii) :
  match_length re (prev, c :: r) = None ->
  replace_from re by_ prev 0 (c :: r) = c :: replace_from re by_ (Some c) 0 r.
Proof. intros H. cbn [replace_from]. rewrite H. reflexivity. Qed.

Lemma replace_Forall (P : ascii -> Prop) (l : list ascii) (prev : option ascii) (k : nat) :
  Forall P by_ -> Forall P l -> Forall P (replace_from re by_ prev k l).
Proof.
  intros Hb H. revert prev k. induction H as [|c r Hc Hr IH]; intros prev k.
  - destruct k; cbn [replace_from]; [|constructor].
    destruct (match_length re (prev, [])) as [[|n]|]; auto.
  - destruct k; cbn [replace_from]; [|apply IH].
    destruct (match_length re (prev, c :: r)) as [[|n]|].
    + apply Forall_app. split; [exact Hb|]. constructor; [exact Hc|apply IH].
    + apply Forall_app. split; [exact Hb|apply IH].
    + constructor; [exact Hc|apply IH].
Qed.

Lemma replace_length (l : list ascii) (prev : option ascii) (k : nat) :
  (forall x n, match_length re x = Some n -> (length by_ <= n)%nat) ->
  (length (replace_from re by_ prev k l) <= length l - k)%nat.
Proof.
  intros Hb. revert prev k. induction l as [|c r IH]; intros prev k.
  - destruct k; cbn [replace_from length]; [|lia].
    destruct (match_length re (prev, [])) as [[|n]|] eqn:M; cbn [length]; try lia.
    + specialize (Hb _ _ M). lia.
    + assert (L := match_length_le _ _ _ M). cbn [snd length] in L. lia.
  - destruct k; cbn [replace_from]; [|specialize (IH (Some c) k); cbn [length]; lia].
    destruct (match_length re (prev, c :: r)) as [[|n]|] eqn:M.
    + specialize (Hb _ _ M). specialize (IH (Some c) 0%nat).
      rewrite length_app. cbn [length]. lia.
    + assert (L := match_length_le _ _ _ M). specialize (Hb _ _ M).
      specialize (IH (Some c) n). cbn [snd length] in L.
      rewrite length_app. cbn [length]. lia.
    + specialize (IH (Some c) 0%nat). cbn [length]. lia.
Qed.

End ReplaceFacts.

Section RunFacts2.
Import Re.

Variable p : ascii -> bool.

Lemma leading_le (l : list ascii) : (leading p l <= length l)%nat.
Proof. induction l as [|c r IH]; cbn [leading length]; [lia|]. destruct (p c); lia. Qed.

Lemma leading_skipn (l : list ascii) : leading p (skipn (leading p l) l) = 0%nat.
Proof.
  induction l as [|c r IH]; cbn [leading]; [reflexivity|].
  destruct (p c) eqn:E; cbn [skipn leading]; [exact IH|]. rewrite E. reflexivity.
Qed.

Lemma leading_starts (l : list ascii) : starts_with p l = (0 <? leading p l)%nat.
Proof. destruct l as [|c r]; cbn [starts_with leading]; [reflexivity|]. destruct (p c); reflexivity. Qed.

Lemma length_skipn_sub (n : nat) (l : list ascii) :
  (n <= length l)%nat -> (length l - length (skipn n l))%nat = n.
Proof. intros H. rewrite length_skipn. lia. Qed.

Lemma many_from_first (prev : option ascii) (l : list ascii) :
  exists prev' rest,
    many_from p prev l = (prev', skipn (leading p l) l) :: rest
    /\ Forall (fun y => starts_with p (snd y) = true) rest.
Proof.
  revert prev. induction l as [|c r IH]; intros prev; cbn [many_from leading].
  - exists prev, []. split; [reflexivity|constructor].
  - destruct (p c) eqn:E.
    + destruct (IH (Some c)) as (prev' & rest & -> & F).
      exists prev', (rest ++ [(prev, c :: r)]). split; [reflexivity|].
      apply Forall_app. split; [exact F|]. constructor; [|constructor]. exact E.
    + exists prev, []. split; [reflexivity|constructor].
Qed.

Lemma at_least_first (n : nat) (prev : option ascii) (l : list ascii) :
  ((leading p l < n)%nat -> at_least n p (prev, l) = [])
  /\ ((n <= leading p l)%nat ->
      exists prev' rest,
        at_least n p (prev, l) = (prev', skipn (leading p l) l) :: rest
        /\ Forall (fun y => starts_with p (snd y) = true) rest).
Proof.
  revert prev l. induction n as [|n IH]; intros prev l.
  - split; [lia|]. intros _. apply many_from_first.
  - cbn [at_least]. unfold seq, lit. cbn [snd].
    destruct l as [|c r]; cbn [leading].
    + split; [reflexivity|lia].
    + destruct (p c) eqn:E; cbn [flat_map].
      * rewrite app_nil_r. destruct (IH (Some c) r) as (H1 & H2). split.
        -- intros H. apply H1. lia.
        -- intros H. cbn [skipn]. apply H2. lia.
      * split; [reflexivity|lia].
Qed.

End RunFacts2.

Section BlankLines.
Import Re.

Lemma blank_lines_match (prev : option ascii) (l : list ascii) :
  match_length re_blank_lines (prev, l)
  = if (3 <=? leading is_newline l)%nat then Some (leading is_newline l) else None.
Proof.
  unfold match_length, re_blank_lines.
  destruct (at_least_first is_newline 3 prev l) as (H1 & H2).
  destruct (3 <=? leading is_newline l)%nat eqn:E.
  - apply Nat.leb_le in E. destruct (H2 E) as (prev' & rest & -> & _). cbn [snd].
    rewrite length_skipn_sub by apply leading_le. reflexivity.
  - apply Nat.leb_gt in E. rewrite (H1 E). reflexivity.
Qed.

Lemma no_run_cons (n : nat) (p : ascii -> bool) (c : ascii) (r : list ascii) :
  no_run n p (c :: r) = (leading p (c :: r) <? n)%nat && no_run n p r.
Proof. reflexivity. Qed.

(** What [replace(/\n{3,}/g, '\n\n')] leaves: at the head as many line
    feeds as there were, two at most; nowhere three of them. *)
Lemma blank_lines_collapsed (l : list ascii) (prev : option ascii) :
  let out := replace_from re_blank_lines (chars (LF +:+ LF)) prev 0 l in
  leading is_newline out = Nat.min (leading is_newline l) 2
  /\ no_run 3 is_newline out = true.
Proof.
  remember (length l) as n eqn:Hn. revert l prev Hn.
  induction n as [n IH] using lt_wf_ind. intros l prev Hn out. subst out.
  destruct (3 <=? leading is_newline l)%nat eqn:E.
  - assert (M := blank_lines_match prev l). rewrite E in M.
    apply Nat.leb_le in E.
    destruct (leading is_newline l) as [|k] eqn:K; [lia|].
    destruct (replace_at_match _ (chars (LF +:+ LF)) _ _ _ M) as (prev' & ->).
    assert (Z : leading is_newline (skipn (S k) l) = 0%nat)
      by (rewrite <- K; apply leading_skipn).
    destruct (IH (length (skipn (S k) l))) with (l := skipn (S k) l) (prev := prev')
      as (H1 & H2); [|reflexivity|].
    { rewrite length_skipn. assert (L := leading_le is_newline l). lia. }
    rewrite Z in H1. cbn [Nat.min] in H1.
    change (chars (LF +:+ LF)) with ["010"%char; "010"%char] in *.
    cbn [app]. split.
    + cbn [leading]. change (is_newline "010") with true. cbv iota. rewrite H1. lia.
    + rewrite !no_run_cons. cbn [leading]. change (is_newline "010") with true. cbv iota.
      rewrite H1, H2. reflexivity.
  - assert (M := blank_lines_match prev l). rewrite E in M. apply Nat.leb_gt in E.
    destruct l as [|c r].
    + cbn [replace_from]. rewrite M. split; reflexivity.
    + rewrite (replace_no_match _ _ _ _ _ M).
      destruct (IH (length r)) with (l := r) (prev := Some c) as (H1 & H2);
        [subst n; cbn [length]; lia|reflexivity|].
      rewrite no_run_cons. cbn [leading] in *. destruct (is_newline c).
      * rewrite H1, H2. split; [lia|].
        rewrite andb_true_r. apply Nat.ltb_lt. lia.
      * rewrite H2. split; reflexivity.
Qed.

End BlankLines.

Section LineEnds.
Import Re.

Lemma blank_not_newline (c : ascii) : is_blank c = true -> is_newline c = false.
Proof.
  destruct c as [[] [] [] [] [] [] [] []]; intros H; vm_compute in *; congruence.
Qed.

Lemma line_ends_match (prev : option ascii) (l : list ascii) :
  match_length re_line_ends (prev, l)
  = if line_end_at l then Some (S (leading is_blank l)) else None.
Proof.
  unfold match_length, re_line_ends, seqs, line_end_at. cbn [fold_right].
  unfold seq at 1. destruct (at_least_first is_blank 1 prev l) as (H1 & H2).
  destruct (leading is_blank l) as [|k] eqn:K.
  - rewrite H1 by lia. reflexivity.
  - destruct H2 as (prev' & rest & -> & F); [lia|].
    change (0 <? S k)%nat with true. cbn [andb flat_map].
    assert (R : flat_map (seq (lit is_newline) eps) rest = []).
    { clear -F. induction F as [|[q [|c r]] rest Hy _ IH]; cbn [flat_map]; [reflexivity| |].
      - discriminate.
      - cbn [snd starts_with] in Hy. unfold seq at 1, lit. cbn [snd].
        rewrite (blank_not_newline c Hy). cbn [flat_map]. exact IH. }
    rewrite R, app_nil_r. unfold seq, lit. cbn [snd].
    assert (L : (S k <= length l)%nat) by (rewrite <- K; apply leading_le).
    destruct (skipn (S k) l) as [|c r] eqn:Sk; cbn [starts_with]; [reflexivity|].
    destruct (is_newline c); cbn [flat_map]; [|reflexivity].
    unfold eps. cbn [app snd]. f_equal.
    assert (E : length (skipn (S k) l) = S (length r)) by (rewrite Sk; reflexivity).
    rewrite length_skipn in E. lia.
Qed.

Lemma newline_not_blank (c : ascii) : is_newline c = true -> is_blank c = false.
Proof.
  intros H. destruct (is_blank c) eqn:B; [|reflexivity].
  rewrite (blank_not_newline c B) in H. discriminate.
Qed.

(** What [replace(/[ \t]+\n/g, '\n')] leaves: no space or tab before a
    line feed; and a line feed at the head only where there was one, or
    where a run ended a line. *)
Lemma line_ends_tidied (l : list ascii) (prev : option ascii) :
  let out := replace_from re_line_ends (chars LF) prev 0 l in
  tidy_line_ends out = true
  /\ (starts_with is_newline out = true ->
      starts_with is_newline l = true \/ line_end_at l = true).
Proof.
  remember (length l) as n eqn:Hn. revert l prev Hn.
  induction n as [n IH] using lt_wf_ind. intros l prev Hn out. subst out.
  assert (M := line_ends_match prev l).
  destruct (line_end_at l) eqn:E.
  - destruct (replace_at_match _ (chars LF) _ _ _ M) as (prev' & ->).
    change (chars LF) with ["010"%char]. cbn [app tidy_line_ends starts_with].
    change (is_blank "010") with false. cbn [andb negb]. split; [|auto].
    edestruct (IH (length (skipn (S (leading is_blank l)) l))) as (H1 & _);
      [|reflexivity|exact H1].
    rewrite length_skipn. assert (L := match_length_le _ _ _ M). cbn [snd] in L. lia.
  - destruct l as [|c r].
    + cbn [replace_from]. rewrite M. split; [reflexivity|discriminate].
    + rewrite (replace_no_match _ _ _ _ _ M).
      destruct (IH (length r)) with (l := r) (prev := Some c) as (H1 & H2);
        [subst n; cbn [length]; lia|reflexivity|].
      cbn [tidy_line_ends starts_with]. split; [|auto].
      rewrite H1, andb_true_r. apply negb_true_iff.
      destruct (is_blank c) eqn:B; [|reflexivity]. cbn [andb].
      destruct (starts_with is_newline (replace_from re_line_ends (chars LF) (Some c) 0 r))
        eqn:St; [|reflexivity].
      exfalso. unfold line_end_at in E. cbn [leading] in E. rewrite B in E.
      cbn [skipn] in E. change (0 <? S _)%nat with true in E. cbn [andb] in E.
      destruct (H2 eq_refl) as [H|H].
      * destruct r as [|d r']; [discriminate|]. cbn [starts_with] in H.
        cbn [leading] in E. rewrite (newline_not_blank d H) in E.
        cbn [skipn starts_with] in E. congruence.
      * unfold line_end_at in H. apply andb_true_iff in H. destruct H as (_ & H). congruence.
Qed.

Lemma tidy_skipn (n : nat) (l : list ascii) :
  tidy_line_ends l = true -> tidy_line_ends (skipn n l) = true.
Proof.
  revert l. induction n as [|n IH]; intros l H; [exact H|].
  destruct l as [|c r]; [reflexivity|]. cbn [skipn]. apply IH.
  cbn [tidy_line_ends] in H. apply andb_true_iff in H. apply H.
Qed.

(** [replace(/\n{3,}/g, '\n\n')] keeps the line ends tidy. *)
Lemma blank_lines_keep_tidy (l : list ascii) (prev : option ascii) :
  tidy_line_ends l = true ->
  tidy_line_ends (replace_from re_blank_lines (chars (LF +:+ LF)) prev 0 l) = true.
Proof.
  remember (length l) as n eqn:Hn. revert l prev Hn.
  induction n as [n IH] using lt_wf_ind. intros l prev Hn T.
  assert (M := blank_lines_match prev l).
  destruct (3 <=? leading is_newline l)%nat eqn:E.
  - apply Nat.leb_le in E. destruct (leading is_newline l) as [|k] eqn:K; [lia|].
    destruct (replace_at_match _ (chars (LF +:+ LF)) _ _ _ M) as (prev' & ->).
    change (chars (LF +:+ LF)) with ["010"%char; "010"%char].
    cbn [app tidy_line_ends]. change (is_blank "010") with false. cbn [andb negb].
    eapply IH; [|reflexivity|apply tidy_skipn; exact T].
    rewrite length_skipn. assert (L := leading_le is_newline l). lia.
  - destruct l as [|c r].
    + cbn [replace_from]. rewrite M. reflexivity.
    + rewrite (replace_no_match _ _ _ _ _ M).
      cbn [tidy_line_ends] in *. apply andb_true_iff in T. destruct T as (T1 & T2).
      rewrite (IH (length r)) by (subst n; cbn [length]; lia || reflexivity || exact T2).
      rewrite andb_true_r.
      destruct (blank_lines_collapsed r (Some c)) as (H & _).
      rewrite !leading_starts in *. rewrite H.
      destruct (leading is_newline r) as [|[|?]]; exact T1.
Qed.

End LineEnds.

Section TrimFacts.
Import Re.

Lemma drop_white_suffix (l : list ascii) :
  exists a, l = a ++ drop_white l /\ Forall (fun c => is_white c = true) a.
Proof.
  induction l as [|c r (a & E & F)]; cbn [drop_white].
  - exists []. split; [reflexivity|constructor].
  - destruct (is_white c) eqn:W.
    + exists (c :: a). split; [cbn [app]; congruence|constructor; assumption].
    + exists []. split; [reflexivity|constructor].
Qed.

Lemma drop_white_head (l : list ascii) : starts_with is_white (drop_white l) = false.
Proof.
  induction l as [|c r IH]; cbn [drop_white]; [reflexivity|].
  destruct (is_white c) eqn:W; [exact IH|]. exact W.
Qed.

Lemma drop_white_fixed (l : list ascii) : starts_with is_white l = false -> drop_white l = l.
Proof. destruct l as [|c r]; cbn [starts_with drop_white]; [reflexivity|]. intros ->. reflexivity. Qed.

Lemma drop_white_blank (l : list ascii) :
  Forall (fun c => is_white c = true) l -> drop_white l = [].
Proof. induction 1 as [|c r W _ IH]; cbn [drop_white]; [reflexivity|]. rewrite W. exact IH. Qed.

(** The trimmed text stands in the text. *)
Lemma trim_infix (l : list ascii) : exists a b, l = a ++ trim_chars l ++ b.
Proof.
  unfold trim_chars. destruct (drop_white_suffix l) as (a & E & _).
  destruct (drop_white_suffix (rev (drop_white l))) as (b & E' & _).
  exists a, (rev b). rewrite <- rev_app_distr, <- E', rev_involutive. exact E.
Qed.

Lemma trim_head (l : list ascii) : starts_with is_white (trim_chars l) = false.
Proof.
  unfold trim_chars. destruct (drop_white_suffix (rev (drop_white l))) as (b & E' & _).
  assert (H := drop_white_head l).
  assert (E : drop_white l = rev (drop_white (rev (drop_white l))) ++ rev b).
  { rewrite <- rev_app_distr, <- E', rev_involutive. reflexivity. }
  destruct (rev (drop_white (rev (drop_white l)))) as [|c r]; [reflexivity|].
  rewrite E in H. exact H.
Qed.

Lemma trim_last (l : list ascii) : starts_with is_white (rev (trim_chars l)) = false.
Proof. unfold trim_chars. rewrite rev_involutive. apply drop_white_head. Qed.

Lemma trim_trim (l : list ascii) : trim_chars (trim_chars l) = trim_chars l.
Proof.
  assert (H := trim_head l). assert (L := trim_last l).
  unfold trim_chars at 1. rewrite (drop_white_fixed _ H), (drop_white_fixed _ L).
  apply rev_involutive.
Qed.

Lemma trim_blank (l : list ascii) : Forall (fun c => is_white c = true) l -> trim_chars l = [].
Proof. intros H. unfold trim_chars. rewrite (drop_white_blank l H). reflexivity. Qed.

Lemma chars_str (l : list ascii) : chars (str l) = l.
Proof. apply list_ascii_of_string_of_list_ascii. Qed.

Lemma str_chars (s : string) : str (chars s) = s.
Proof. apply string_of_list_ascii_of_string. Qed.

Lemma length_chars (s : string) : length (chars s) = String.length s.
Proof.
  induction s as [|c s IH]; [reflexivity|]. unfold chars in *.
  cbn [list_ascii_of_string length String.length]. rewrite IH. reflexivity.
Qed.

End TrimFacts.

Section CleanFacts.
Import Re.

(** The text [cleanOcr] returns, as the trimmed end of five passes. *)
Lemma cleanOcr_chars (s : string) :
  s <> "" ->
  chars (OcrHelpers.cleanOcr s)
  = trim_chars
      (replace_from re_blank_lines (chars (LF +:+ LF)) None 0
         (replace_from re_line_ends (chars LF) None 0
            (replace_from re_times (chars " ") None 0
               (replace_from re_days (chars " ") None 0
                  (replace_from re_labels (chars " ") None 0 (chars s)))))).
Proof.
  intros H. unfold OcrHelpers.cleanOcr. destruct s as [|c s]; [congruence|].
  cbn [str_nonempty negb]. unfold trim, replace. rewrite !chars_str. reflexivity.
Qed.

Lemma cleanOcr_empty : OcrHelpers.cleanOcr "" = "".
Proof. reflexivity. Qed.

Lemma no_run_suffix (n : nat) (p : ascii -> bool) (a b : list ascii) :
  no_run n p (a ++ b) = true -> no_run n p b = true.
Proof.
  induction a as [|c a IH]; [auto|]. cbn [app no_run]. intros H.
  apply andb_true_iff in H. apply IH, H.
Qed.

Lemma tidy_suffix (a b : list ascii) :
  tidy_line_ends (a ++ b) = true -> tidy_line_ends b = true.
Proof.
  induction a as [|c a IH]; [auto|]. cbn [app tidy_line_ends]. intros H.
  apply andb_true_iff in H. apply IH, H.
Qed.

End CleanFacts.

Section CleanExtras.
Import Re.

(** X7.  The text [cleanOcr] returns neither begins nor ends with white
    space: trimming it again changes nothing. *)
Theorem cleanOcr_returns_trimmed_text (s : string) :
  trim (OcrHelpers.cleanOcr s) = OcrHelpers.cleanOcr s
  /\ (forall c r, chars (OcrHelpers.cleanOcr s) = c :: r -> is_white c = false)
  /\ (forall r c, chars (OcrHelpers.cleanOcr s) = r ++ [c] -> is_white c = false).
Proof.
  destruct s as [|c0 s0].
  { split; [reflexivity|]. split; [intros c r H; discriminate|].
    intros [|? ?] c H; discriminate. }
  assert (E := cleanOcr_chars (String c0 s0) ltac:(discriminate)).
  set (y := replace_from re_blank_lines _ _ _ _) in E.
  split; [|split].
  - unfold trim. rewrite E, trim_trim, <- E. apply str_chars.
  - intros c r H. rewrite E in H. assert (T := trim_head y). rewrite H in T. exact T.
  - intros r c H. rewrite E in H. assert (T := trim_last y). rewrite H, rev_app_distr in T.
    exact T.
Qed.

(** X8.  In the text [cleanOcr] returns no line ends with a space or a
    tab, and no three line feeds follow each other: the paragraphs are
    separated by one empty line at most. *)
Theorem cleanOcr_tidies_the_line_breaks (s : string) :
  (forall a b, chars (OcrHelpers.cleanOcr s) <> a ++ ["010"; "010"; "010"]%char ++ b)
  /\ (forall a c b, is_blank c = true ->
        chars (OcrHelpers.cleanOcr s) <> a ++ c :: "010"%char :: b).
Proof.
  destruct s as [|c0 s0]; [split; intros [|? ?]; intros; discriminate|].
  assert (E := cleanOcr_chars (String c0 s0) ltac:(discriminate)).
  set (x := replace_from re_times _ _ _ _) in E.
  destruct (line_ends_tidied x None) as (T & _).
  set (y := replace_from re_line_ends _ _ _ _) in *.
  assert (T' := blank_lines_keep_tidy y None T).
  destruct (blank_lines_collapsed y None) as (_ & R).
  set (z := replace_from re_blank_lines _ _ _ _) in *.
  destruct (trim_infix z) as (u & v & Ez). rewrite <- E in Ez. split.
  - intros a b H. rewrite H in Ez. rewrite Ez in R.
    replace (u ++ (a ++ ["010"; "010"; "010"]%char ++ b) ++ v)
      with ((u ++ a) ++ ["010"; "010"; "010"]%char ++ (b ++ v)) in R
      by (rewrite <- !app_assoc; reflexivity).
    apply no_run_suffix in R. discriminate.
  - intros a c b B H. rewrite H in Ez. rewrite Ez in T'.
    replace (u ++ (a ++ c :: "010"%char :: b) ++ v)
      with ((u ++ a) ++ c :: "010"%char :: (b ++ v)) in T'
      by (rewrite <- !app_assoc; reflexivity).
    apply tidy_suffix in T'. cbn [tidy_line_ends starts_with] in T'. rewrite B in T'.
    discriminate.
Qed.

(** X9.  [cleanOcr] never lengthens a text. *)
Theorem cleanOcr_never_lengthens (s : string) :
  (String.length (OcrHelpers.cleanOcr s) <= String.length s)%nat.
Proof.
  destruct s as [|c0 s0]; [cbn; lia|].
  rewrite <- !length_chars. rewrite cleanOcr_chars by discriminate.
  set (l := chars (String c0 s0)).
  assert (H1 := replace_length re_labels (chars " ") l None 0
                  (fun x n => match_length_consumes _ 1 x n consumes_labels)).
  set (l1 := replace_from re_labels _ _ _ _) in *.
  assert (H2 := replace_length re_days (chars " ") l1 None 0
                  (fun x n => match_length_consumes _ 1 x n consumes_days)).
  set (l2 := replace_from re_days _ _ _ _) in *.
  assert (H3 := replace_length re_times (chars " ") l2 None 0
                  (fun x n => match_length_consumes _ 1 x n consumes_times)).
  set (l3 := replace_from re_times _ _ _ _) in *.
  assert (H4 : (length (replace_from re_line_ends (chars LF) None 0 l3) <= length l3 - 0)%nat).
  { apply replace_length. intros [prev t] n M. rewrite line_ends_match in M.
    destruct (line_end_at t); [|discriminate]. injection M as <-.
    change (length (chars LF)) with 1%nat. lia. }
  set (l4 := replace_from re_line_ends _ _ _ _) in *.
  assert (H5 : (length (replace_from re_blank_lines (chars (LF +:+ LF)) None 0 l4)
                <= length l4 - 0)%nat).
  { apply replace_length. intros [prev t] n M. rewrite blank_lines_match in M.
    destruct (3 <=? leading is_newline t)%nat eqn:E; [|discriminate].
    apply Nat.leb_le in E. injection M as <-.
    change (length (chars (LF +:+ LF))) with 2%nat. lia. }
  set (l5 := replace_from re_blank_lines _ _ _ _) in *.
  destruct (trim_infix l5) as (u & v & E5).
  assert (L : (length (trim_chars l5) <= length l5)%nat).
  { rewrite E5 at 2. rewrite !length_app. lia. }
  lia.
Qed.

End CleanExtras.

Section BlankFacts.
Import Re.

Lemma white_not_word (c : ascii) : is_white c = true -> is_word c = false.
Proof.
  destruct c as [[] [] [] [] [] [] [] []]; intros H; vm_compute in *; congruence.
Qed.

(** A pattern that begins with [\b] finds nothing in a text without word
    characters. *)
Lemma replace_without_words (ps : list pattern) (by_ l : list ascii) (prev : option ascii) :
  Forall (fun c => is_word c = false) l ->
  match prev with Some c => is_word c = false | None => True end ->
  replace_from (seqs (word_boundary :: ps)) by_ prev 0 l = l.
Proof.
  intros H. revert prev. induction H as [|c r Hc _ IH]; intros prev Hp.
  - cbn [replace_from]. unfold match_length, seqs. cbn [fold_right]. unfold seq at 1.
    unfold word_boundary. cbn [fst snd].
    destruct prev as [d|]; [rewrite Hp|]; reflexivity.
  - rewrite replace_no_match; [rewrite IH; [reflexivity|exact Hc]|].
    unfold match_length, seqs. cbn [fold_right]. unfold seq at 1.
    unfold word_boundary. cbn [fst snd]. rewrite Hc.
    destruct prev as [d|]; [rewrite Hp|]; reflexivity.
Qed.

Lemma chars_append (a b : string) : chars (a +:+ b) = chars a ++ chars b.
Proof.
  unfold chars. induction a as [|c a IH]; [reflexivity|].
  cbn [String.append list_ascii_of_string app]. rewrite <- IH. reflexivity.
Qed.

Lemma join_blank (texts : list string) :
  Forall (fun t => Forall (fun c => is_white c = true) (chars t)) texts ->
  Forall (fun c => is_white c = true) (chars (join_texts texts)).
Proof.
  induction 1 as [|t r Ht Hr IH]; [constructor|].
  cbn [join_texts]. destruct r as [|t' r']; [exact Ht|].
  rewrite !chars_append. repeat (apply Forall_app; split); auto; repeat constructor.
Qed.

Lemma cleanOcr_blank (s : string) :
  Forall (fun c => is_white c = true) (chars s) -> OcrHelpers.cleanOcr s = "".
Proof.
  intros H. destruct s as [|c0 s0]; [reflexivity|].
  rewrite <- (str_chars (OcrHelpers.cleanOcr _)). rewrite cleanOcr_chars by discriminate.
  assert (W : Forall (fun c => is_word c = false) (chars (String c0 s0))).
  { eapply List.Forall_impl; [|exact H]. apply white_not_word. }
  unfold re_labels, re_days, re_times.
  do 3 rewrite (replace_without_words _ _ (chars (String c0 s0)) None W I).
  rewrite trim_blank; [reflexivity|].
  apply replace_Forall; [repeat constructor|].
  apply replace_Forall; [repeat constructor|exact H].
Qed.

End BlankFacts.

Section BlankExtras.
Import Re.

(** X10.  A text of white space only is cleaned to the empty text. *)
Theorem blank_text_is_cleaned_away (s : string) :
  Forall (fun c => is_white c = true) (chars s) -> OcrHelpers.cleanOcr s = "".
Proof. exact (cleanOcr_blank s). Qed.

Lemma blank_text_is_cleaned_away_witness :
  OcrHelpers.cleanOcr ("  " +:+ LF +:+ LF +:+ LF +:+ " ") = "".
Proof.
  apply blank_text_is_cleaned_away. repeat constructor.
Defined.

Lemma same_letters_casings (u w : list ascii) :
  map upper_word_char u = map upper_word_char w -> In u (casings w).
Proof.
  revert u. induction w as [|c w IH]; intros [|d u] H; try discriminate.
  - left. reflexivity.
  - cbn [map] in H. injection H as Hd Hu. cbn [casings]. apply in_flat_map.
    exists u. split; [apply IH; exact Hu|]. rewrite <- Hd.
    assert (K : upper_word_char d = d \/ lower_word_char (upper_word_char d) = d).
    { clear. destruct d as [[] [] [] [] [] [] [] []]; vm_compute; auto. }
    destruct K as [K|K]; rewrite K; [left|right; left]; reflexivity.
Qed.

(** X11.  A text that is nothing but a label of the phone or a day word
    ("Messages", "iMessage", "Text Message", "Delivered", "Read", "Today",
    "Yesterday"), in any mix of upper and lower case, is cleaned to the
    empty text. *)
Theorem lone_phone_word_is_cleaned_away (w u : string) :
  In w phone_words -> same_letters u w -> OcrHelpers.cleanOcr u = "".
Proof.
  intros Hw Hu. apply same_letters_casings in Hu.
  assert (A : forallb (fun w => forallb (fun t => String.eqb (OcrHelpers.cleanOcr (str t)) "")
                                        (casings (chars w))) phone_words = true)
    by (vm_compute; reflexivity).
  rewrite forallb_forall in A. specialize (A w Hw). rewrite forallb_forall in A.
  specialize (A _ Hu). apply String.eqb_eq in A. rewrite str_chars in A. exact A.
Qed.

Lemma lone_phone_word_is_cleaned_away_witness : OcrHelpers.cleanOcr "TEXT message" = "".
Proof.
  apply (lone_phone_word_is_cleaned_away "Text Message" "TEXT message").
  - unfold phone_words. simpl. auto.
  - reflexivity.
Defined.

End BlankExtras.

Section SplitFacts.
Import Re.

Variable re : pattern.

Lemma split_skip (k : nat) (l cur : list ascii) (prev : option ascii) :
  (k <= length l)%nat ->
  exists prev', split_from re prev k cur l = split_from re prev' 0 cur (skipn k l).
Proof.
  revert l prev. induction k as [|k IH]; intros l prev H.
  - exists prev. reflexivity.
  - destruct l as [|c r]; cbn [length] in H; [lia|].
    cbn [split_from skipn]. apply IH. lia.
Qed.

End SplitFacts.

Section ParagraphFacts.
Import Re.

Lemma paragraphs_match (prev : option ascii) (l : list ascii) :
  match_length re_paragraphs (prev, l)
  = if (2 <=? leading is_newline l)%nat then Some (leading is_newline l) else None.
Proof.
  unfold match_length, re_paragraphs.
  destruct (at_least_first is_newline 2 prev l) as (H1 & H2).
  destruct (2 <=? leading is_newline l)%nat eqn:E.
  - apply Nat.leb_le in E. destruct (H2 E) as (prev' & rest & -> & _). cbn [snd].
    rewrite length_skipn_sub by apply leading_le. reflexivity.
  - apply Nat.leb_gt in E. rewrite (H1 E). reflexivity.
Qed.

Lemma leading_firstn (p : ascii -> bool) (l : list ascii) :
  Forall (fun c => p c = true) (firstn (leading p l) l).
Proof.
  induction l as [|c r IH]; cbn [leading]; [constructor|].
  destruct (p c) eqn:E; cbn [firstn]; [constructor; assumption|constructor].
Qed.

Lemma newline_white (c : ascii) : is_newline c = true -> is_white c = true.
Proof.
  destruct c as [[] [] [] [] [] [] [] []]; intros H; vm_compute in *; congruence.
Qed.

Lemma visible_app (a b : list ascii) : visible (a ++ b) = visible a ++ visible b.
Proof. apply List.filter_app. Qed.

Lemma visible_white (l : list ascii) : Forall (fun c => is_white c = true) l -> visible l = [].
Proof.
  induction 1 as [|c r W _ IH]; [reflexivity|]. unfold visible in *. cbn [List.filter].
  rewrite W. exact IH.
Qed.

Lemma visible_leading (l : list ascii) :
  visible l = visible (skipn (leading is_newline l) l).
Proof.
  rewrite <- (firstn_skipn (leading is_newline l) l) at 1. rewrite visible_app.
  rewrite visible_white; [reflexivity|].
  eapply List.Forall_impl; [|apply leading_firstn]. apply newline_white.
Qed.

(** The pieces of [split(/\n{2,}/)]: none holds two line feeds in a row,
    and together they hold what the text holds besides white space. *)
Lemma paragraphs_pieces (l cur : list ascii) (prev : option ascii) :
  no_run 2 is_newline cur = true ->
  (starts_with is_newline cur = true -> starts_with is_newline l = false) ->
  Forall (fun piece => no_run 2 is_newline (rev piece) = true)
         (split_from re_paragraphs prev 0 cur l)
  /\ concat (map visible (split_from re_paragraphs prev 0 cur l)) = visible (rev cur ++ l).
Proof.
  remember (length l) as n eqn:Hn. revert l cur prev Hn.
  induction n as [n IH] using lt_wf_ind. intros l cur prev Hn N S.
  destruct l as [|c r].
  - cbn [split_from]. split.
    + constructor; [rewrite rev_involutive; exact N|constructor].
    + cbn [map concat]. rewrite !app_nil_r. reflexivity.
  - assert (M := paragraphs_match prev (c :: r)). cbn [split_from]. rewrite M.
    destruct (2 <=? leading is_newline (c :: r))%nat eqn:E.
    + apply Nat.leb_le in E.
      destruct (leading is_newline (c :: r)) as [|k] eqn:K; [lia|].
      assert (L := leading_le is_newline (c :: r)). rewrite K in L. cbn [length] in L.
      destruct (split_skip re_paragraphs k r [] (Some c)) as (prev' & ->); [lia|].
      destruct (IH (length (skipn k r))) with (l := skipn k r) (cur := @nil ascii)
                                              (prev := prev') as (H1 & H2);
        [rewrite length_skipn; subst n; cbn [length]; lia|reflexivity|reflexivity|discriminate|].
      split.
      * constructor; [rewrite rev_involutive; exact N|exact H1].
      * cbn [map concat]. rewrite H2. cbn [rev app]. rewrite visible_app. f_equal.
        rewrite (visible_leading (c :: r)), K. reflexivity.
    + apply Nat.leb_gt in E.
      destruct (IH (length r)) with (l := r) (cur := c :: cur) (prev := Some c) as (H1 & H2);
        [subst n; cbn [length]; lia|reflexivity| | |].
      * cbn [no_run leading]. rewrite N, andb_true_r.
        destruct (is_newline c) eqn:C; [|reflexivity].
        assert (Z : starts_with is_newline cur = false).
        { destruct (starts_with is_newline cur); [|reflexivity].
          specialize (S eq_refl). cbn [starts_with] in S. congruence. }
        rewrite leading_starts in Z. apply Nat.ltb_ge in Z.
        apply Nat.ltb_lt. lia.
      * cbn [starts_with leading] in *. intros C. rewrite C in E.
        rewrite leading_starts. apply Nat.ltb_ge. lia.
      * split; [exact H1|]. rewrite H2. cbn [rev]. rewrite <- app_assoc. reflexivity.
Qed.

End ParagraphFacts.

Section TimelineFacts.
Import Re.

Lemma map_indexed_texts (lines : list string) (i : nat) :
  map Turn.text (map_indexed (fun i text => Turn.mk (num_of_nat (i + 1)) "unknown" text) i lines)
  = lines.
Proof.
  revert i. induction lines as [|t r IH]; intros i; cbn [map_indexed map]; [reflexivity|].
  rewrite IH. reflexivity.
Qed.

Lemma map_indexed_ids (lines : list string) (i : nat) :
  map Turn.turn_id
      (map_indexed (fun i text => Turn.mk (num_of_nat (i + 1)) "unknown" text) i lines)
  = map num_of_nat (List.seq (i + 1) (length lines)).
Proof.
  revert i. induction lines as [|t r IH]; intros i; cbn [map_indexed map length seq];
    [reflexivity|].
  rewrite IH. reflexivity.
Qed.

Lemma map_indexed_speakers (lines : list string) (i : nat) :
  Forall (fun t => Turn.speaker t = "unknown")
         (map_indexed (fun i text => Turn.mk (num_of_nat (i + 1)) "unknown" text) i lines).
Proof.
  revert i. induction lines as [|t r IH]; intros i; cbn [map_indexed]; constructor; auto.
Qed.

Lemma map_indexed_length {A B : Type} (f : nat -> A -> B) (i : nat) (l : list A) :
  length (map_indexed f i l) = length l.
Proof. revert i. induction l as [|a r IH]; intros i; cbn [map_indexed length]; auto. Qed.

Lemma visible_rev (l : list ascii) : visible (rev l) = rev (visible l).
Proof.
  induction l as [|c r IH]; [reflexivity|]. cbn [rev]. rewrite visible_app, IH.
  unfold visible. cbn [List.filter]. destruct (negb (is_white c)); cbn [rev app].
  - reflexivity.
  - rewrite app_nil_r. reflexivity.
Qed.

Lemma visible_drop_white (l : list ascii) : visible (drop_white l) = visible l.
Proof.
  destruct (drop_white_suffix l) as (a & E & W). rewrite E at 2.
  rewrite visible_app, (visible_white a W). reflexivity.
Qed.

Lemma visible_trim (l : list ascii) : visible (trim_chars l) = visible l.
Proof.
  unfold trim_chars.
  rewrite visible_rev, visible_drop_white, visible_rev, rev_involutive.
  apply visible_drop_white.
Qed.

(** The pieces of the split of a text. *)
Lemma split_paragraphs (s : string) :
  exists pieces,
    split re_paragraphs s = map str pieces
    /\ Forall (fun piece => no_run 2 is_newline (rev piece) = true) pieces
    /\ concat (map visible pieces) = visible (chars s).
Proof.
  unfold split. destruct (chars s) as [|c r] eqn:E.
  - exists [[]]. split; [reflexivity|]. split; [repeat constructor|reflexivity].
  - exists (split_from re_paragraphs None 0 [] (c :: r)). split; [reflexivity|].
    apply (paragraphs_pieces (c :: r) [] None); [reflexivity|discriminate].
Qed.

(** The lines of the timeline: trimmed pieces that are not empty. *)
Lemma timeline_lines (s : string) :
  exists pieces,
    map Turn.text (normalizeTimeline s)
    = List.filter str_nonempty (map trim (map str pieces))
    /\ Forall (fun piece => no_run 2 is_newline (rev piece) = true) pieces
    /\ concat (map visible pieces) = visible (chars s).
Proof.
  destruct (split_paragraphs s) as (pieces & E & F & V). exists pieces.
  unfold normalizeTimeline. rewrite map_indexed_texts, E. auto.
Qed.

End TimelineFacts.

Section TimelineExtras.
Import Re.

(** X12.  The timeline of the earlier worker numbers its turns 1, 2, 3 and
    so on; every turn has the speaker "unknown" and a text that is not
    empty, neither begins nor ends with white space, and holds no empty
    line (no two line feeds in a row). *)
Theorem timeline_turns_are_numbered_paragraphs (fullText : string) :
  map Turn.turn_id (normalizeTimeline fullText)
  = map num_of_nat (List.seq 1 (length (normalizeTimeline fullText)))
  /\ Forall (fun t =>
               Turn.speaker t = "unknown"
               /\ Turn.text t <> ""
               /\ trim (Turn.text t) = Turn.text t
               /\ forall a b, chars (Turn.text t) <> a ++ ["010"; "010"]%char ++ b)
            (normalizeTimeline fullText).
Proof.
  split.
  - unfold normalizeTimeline. rewrite map_indexed_ids, map_indexed_length. reflexivity.
  - destruct (timeline_lines fullText) as (pieces & E & F & _).
    assert (S := map_indexed_speakers
                   (List.filter str_nonempty (map trim (split re_paragraphs fullText))) 0).
    fold (normalizeTimeline fullText) in S.
    assert (T : Forall (fun text =>
                          text <> "" /\ trim text = text
                          /\ forall a b, chars text <> a ++ ["010"; "010"]%char ++ b)
                       (map Turn.text (normalizeTimeline fullText))).
    { rewrite E. apply List.Forall_forall. intros text Hin.
      apply filter_In in Hin. destruct Hin as (Hin & Hne).
      rewrite map_map in Hin. apply in_map_iff in Hin. destruct Hin as (piece & <- & Hp).
      rewrite List.Forall_forall in F. specialize (F piece Hp).
      split; [intros Z; rewrite Z in Hne; discriminate|]. split.
      - unfold trim. rewrite !chars_str, trim_trim. reflexivity.
      - intros a b H. unfold trim in H. rewrite !chars_str in H.
        destruct (trim_infix piece) as (u & v & Ep). rewrite H in Ep.
        rewrite Ep, !rev_app_distr in F. cbn [rev app] in F.
        rewrite <- !app_assoc in F. apply no_run_suffix in F.
        cbn [app] in F. apply no_run_suffix in F. discriminate. }
    rewrite Forall_map in T.
    rewrite List.Forall_forall in *. intros t Ht. split; [apply S, Ht|apply T, Ht].
Qed.

(** X13.  The timeline loses nothing but white space: the code units of
    the text that are no white space are those of the turns, in their
    order. *)
Theorem timeline_keeps_every_visible_character (fullText : string) :
  concat (map (fun t => visible (chars (Turn.text t))) (normalizeTimeline fullText))
  = visible (chars fullText).
Proof.
  destruct (timeline_lines fullText) as (pieces & E & _ & V).
  rewrite <- V, <- (map_map Turn.text (fun text => visible (chars text))), E.
  clear. induction pieces as [|p r IH]; [reflexivity|].
  cbn [map List.filter concat].
  assert (Vp : visible (chars (trim (str p))) = visible p).
  { unfold trim. rewrite !chars_str. apply visible_trim. }
  destruct (str_nonempty (trim (str p))) eqn:N; cbn [map concat].
  - rewrite IH, Vp. reflexivity.
  - rewrite IH, <- Vp. destruct (trim (str p)); [reflexivity|discriminate].
Qed.

End TimelineExtras.

Section ExtractFacts.

Lemma indexOf_app (c : ascii) (a b : list ascii) :
  indexOf c a = None -> indexOf c (a ++ c :: b) = Some (length a).
Proof.
  induction a as [|d a IH]; cbn [indexOf app length].
  - intros _. rewrite Ascii.eqb_refl. reflexivity.
  - destruct (Ascii.eqb c d); [discriminate|].
    destruct (indexOf c a); [discriminate|]. intros _. rewrite IH by reflexivity. reflexivity.
Qed.

Lemma lastIndexOf_app (c : ascii) (a b : list ascii) :
  lastIndexOf c b = None -> lastIndexOf c (a ++ c :: b) = Some (length a).
Proof.
  intros H. induction a as [|d a IH]; cbn [lastIndexOf app length].
  - rewrite H, Ascii.eqb_refl. reflexivity.
  - rewrite IH. reflexivity.
Qed.

Lemma substring_skip (a b : string) (n : nat) :
  String.substring (String.length a) n (a +:+ b) = String.substring 0 n b.
Proof. induction a as [|c a IH]; [reflexivity|]. simpl. exact IH. Qed.

Lemma substring_prefix (a b : string) :
  String.substring 0 (String.length a) (a +:+ b) = a.
Proof.
  induction a as [|c a IH]; simpl.
  - destruct b; reflexivity.
  - f_equal. exact IH.
Qed.

Lemma length_append (a b : string) :
  String.length (a +:+ b) = (String.length a + String.length b)%nat.
Proof. induction a as [|c a IH]; simpl; [reflexivity|]. f_equal. exact IH. Qed.

End ExtractFacts.

Section AwaitFacts.

Variable sv : service.

Lemma awaits_only_bind {A B : Type} (P : event -> Prop) (p : prog A) (f : A -> prog B) :
  awaits_only P p -> (forall a, awaits_only P (f a)) -> awaits_only P (pbind p f).
Proof.
  intros Hp Hf. induction Hp as [a|e|X c k Hc _ IH]; cbn [pbind]; auto; constructor; auto.
Qed.

Lemma awaits_only_try {A : Type} (P : event -> Prop) (p : prog A) (h : exn -> prog A) :
  awaits_only P p -> (forall e, awaits_only P (h e)) -> awaits_only P (try_catch p h).
Proof.
  intros Hp Hh. induction Hp as [a|e|X c k Hc _ IH]; cbn [try_catch]; auto; constructor; auto.
Qed.

Lemma awaits_only_weaken {A : Type} (P Q : event -> Prop) (p : prog A) :
  (forall e, P e -> Q e) -> awaits_only P p -> awaits_only Q p.
Proof. intros H. induction 1; constructor; auto. Qed.

Lemma awaits_only_await {X : Type} (P : event -> Prop) (c : call X) :
  P (event_of c) -> awaits_only P (await c).
Proof. intros H. constructor; [exact H|]. intros [x|e]; constructor. Qed.

Lemma awaits_only_settle {X : Type} (P : event -> Prop) (c : call X) :
  P (event_of c) -> awaits_only P (settle c).
Proof. intros H. constructor; [exact H|]. intros r; constructor. Qed.

Lemma awaits_only_lift {A : Type} (P : event -> Prop) (r : result A) : awaits_only P (lift r).
Proof. destruct r; constructor. Qed.

(** The calls of a run are calls the program may await. *)
Lemma awaits_only_run {A : Type} (P : event -> Prop) (p : prog A) (st : state) :
  awaits_only P p ->
  exists evs, trace (snd (run sv p st)) = trace st ++ evs /\ Forall P evs.
Proof.
  intros H. revert st. induction H as [a|e|X c k Hc _ IH]; intros st; cbn [run].
  - exists []. rewrite app_nil_r. split; [reflexivity|constructor].
  - exists []. rewrite app_nil_r. split; [reflexivity|constructor].
  - destruct (perform sv st c) as [r w].
    destruct (IH r (mk_state w (trace st ++ [event_of c]))) as (evs & E & F).
    exists (event_of c :: evs). rewrite E. cbn [trace]. rewrite <- app_assoc.
    split; [reflexivity|]. constructor; assumption.
Qed.

(** A call leaves alone the documents it does not address. *)
Lemma perform_frame {X : Type} (c : call X) (st : state) (id : string) :
  store_id (event_of c) <> Some id ->
  jobs (snd (perform sv st c)) !! id = jobs (docs st) !! id
  /\ reports (snd (perform sv st c)) !! id = reports (docs st) !! id.
Proof.
  intros H. destruct c; cbn [perform event_of store_id] in *; unfold store;
    try (destruct (fault sv (length (trace st))); cbn [snd]; auto);
    cbn [snd]; auto.
  - destruct (jobs (docs st) !! id0); cbn [snd jobs reports]; auto.
    rewrite lookup_insert_ne by congruence. auto.
  - cbn [jobs reports]. rewrite lookup_insert_ne by congruence. auto.
  - destruct (reports (docs st) !! id0); cbn [snd jobs reports]; auto.
    rewrite lookup_insert_ne by congruence. auto.
Qed.

Lemma run_frame {A : Type} (p : prog A) (st : state) (id : string) :
  awaits_only (fun e => store_id e <> Some id) p ->
  jobs (docs (snd (run sv p st))) !! id = jobs (docs st) !! id
  /\ reports (docs (snd (run sv p st))) !! id = reports (docs st) !! id.
Proof.
  intros H. revert st. induction H as [a|e|X c k Hc _ IH]; intros st; cbn [run]; auto.
  destruct (perform sv st c) as [r w] eqn:Pf.
  destruct (IH r (mk_state w (trace st ++ [event_of c]))) as (H1 & H2).
  destruct (perform_frame c st id Hc) as (F1 & F2). rewrite Pf in F1, F2. cbn [snd] in *.
  rewrite H1, H2. cbn [docs]. auto.
Qed.

(** No call removes a report. *)
Lemma perform_keeps_report {X : Type} (c : call X) (st : state) (id : string) (d : ReportDoc.t) :
  reports (docs st) !! id = Some d ->
  exists d', reports (snd (perform sv st c)) !! id = Some d'.
Proof.
  intros H. destruct c; cbn [perform]; unfold store;
    try (destruct (fault sv (length (trace st))); cbn [snd]; eauto);
    cbn [snd]; eauto.
  - destruct (jobs (docs st) !! id0); cbn [snd reports]; eauto.
  - cbn [reports]. destruct (String.eqb_spec id0 id) as [->|N].
    + rewrite lookup_insert_eq. eauto.
    + rewrite lookup_insert_ne by congruence. eauto.
  - destruct (reports (docs st) !! id0) eqn:R; cbn [snd reports]; eauto.
    destruct (String.eqb_spec id0 id) as [->|N].
    + rewrite lookup_insert_eq. eauto.
    + rewrite lookup_insert_ne by congruence. eauto.
Qed.

Lemma run_keeps_report {A : Type} (p : prog A) (st : state) (id : string) (d : ReportDoc.t) :
  reports (docs st) !! id = Some d ->
  exists d', reports (docs (snd (run sv p st))) !! id = Some d'.
Proof.
  revert st d. induction p as [a|e|X c k IH]; intros st d H; cbn [run]; eauto.
  destruct (perform sv st c) as [r w] eqn:Pf.
  destruct (perform_keeps_report c st id d H) as (d' & H'). rewrite Pf in H'. cbn [snd] in H'.
  eapply IH. cbn [docs]. exact H'.
Qed.

End AwaitFacts.

Section HandlerCalls.

Variable E : env.
Variable sv : service.

Lemma doc_ok (v : value) (id : string) :
  doc v = Ok id -> v = VStr id /\ str_nonempty id = true.
Proof.
  destruct v as [| | | |s| |]; cbn [doc]; try discriminate.
  destruct (str_nonempty s) eqn:N; [|discriminate]. intros [= <-]. auto.
Qed.

Lemma awaits_only_ocr_files (P : event -> Prop) (fs : list file) (texts : list string) :
  (forall e, store_id e = None -> P e) -> awaits_only P (ocr_files fs texts).
Proof.
  intros H. revert texts. induction fs as [|f fs IH]; intros texts; cbn [ocr_files].
  - constructor.
  - apply awaits_only_bind; [|intros; apply IH].
    apply awaits_only_try; [|intros; constructor].
    apply awaits_only_bind; [apply awaits_only_await, H; reflexivity|]. intros buf.
    apply awaits_only_bind; [apply awaits_only_await, H; reflexivity|]. intros res.
    constructor.
Qed.

Lemma awaits_only_analyze (P : event -> Prop) (text : string) (instructions : value) :
  (forall e, store_id e = None -> P e) -> awaits_only P (analyzeWithOpenAI E text instructions).
Proof.
  intros H. unfold analyzeWithOpenAI. destruct (negb (openai E)); [constructor|].
  apply awaits_only_bind; [apply awaits_only_lift|]. intros instr.
  apply awaits_only_bind; [apply awaits_only_await, H; reflexivity|]. intros content.
  apply awaits_only_lift.
Qed.

Lemma awaits_only_purge (P : event -> Prop) (files : option (list file)) :
  (forall e, store_id e = None -> P e) -> awaits_only P (purgeImages files).
Proof.
  intros H. unfold purgeImages. apply awaits_only_bind; [|intros; constructor].
  induction (files_or_empty files) as [|f fs IH]; cbn [start_deletes]; [constructor|].
  apply awaits_only_bind; [apply awaits_only_settle, H; reflexivity|]. intros o.
  apply awaits_only_bind; [exact IH|]. intros os. constructor.
Qed.

Lemma named_document (body : value) (id' : string) (jobId : value) (id : string) :
  ~ carries E body id' ->
  truthy (message_data body) = true ->
  decode_jobId E (message_data body) = Ok jobId -> doc jobId = Ok id ->
  forall e, store_id e = Some id \/ store_id e = None -> store_id e <> Some id'.
Proof.
  intros NC T D Hd e He Eq. apply doc_ok in Hd. destruct Hd as (-> & N).
  apply NC. destruct He as [He|He]; [|congruence].
  assert (id = id') by congruence. subst id'. repeat split; assumption.
Qed.

(** Every document the handler addresses is the one its message names. *)
Lemma handler_addresses (body : value) (id' : string) :
  ~ carries E body id' ->
  awaits_only (fun e => store_id e <> Some id') (handler E body).
Proof.
  intros NC.
  unfold handler. apply awaits_only_try.
  - unfold main. fold (message_data body).
    destruct (truthy (get_opt body "message")); cbn [negb orb]; [|constructor].
    destruct (truthy (message_data body)) eqn:T; cbn [negb]; [|constructor].
    destruct (decode_jobId E (message_data body)) as [jobId|e] eqn:D; cbn [lift pbind];
      [|constructor].
    destruct (doc jobId) as [id|e] eqn:Hd; cbn [lift pbind]; [|constructor].
    assert (Hid := named_document body id' jobId id NC T D Hd).
    assert (Hn : forall e, store_id e = None -> store_id e <> Some id') by (intros; apply Hid; auto).
    apply awaits_only_bind; [apply awaits_only_await, Hid; left; reflexivity|].
    intros [job|]; [|constructor].
    destruct (num_gtb _ _).
    + apply awaits_only_bind; [apply awaits_only_await, Hid; left; reflexivity|].
      intros _. constructor.
    + apply awaits_only_bind; [apply awaits_only_await, Hid; left; reflexivity|]. intros _.
      apply awaits_only_bind; [apply awaits_only_ocr_files, Hn|]. intros texts.
      apply awaits_only_bind; [apply awaits_only_analyze, Hn|]. intros rep.
      apply awaits_only_bind; [apply awaits_only_await, Hid; left; reflexivity|]. intros _.
      apply awaits_only_bind; [apply awaits_only_purge, Hn|]. intros deleted.
      apply awaits_only_bind; [apply awaits_only_await, Hid; left; reflexivity|]. intros _.
      apply awaits_only_bind; [|intros; constructor].
      destruct deleted; [apply awaits_only_await, Hid; left; reflexivity|constructor].
  - intros e. unfold recover. apply awaits_only_bind; [|intros; constructor].
    apply awaits_only_try; [|intros; constructor]. fold (message_data body).
    destruct (truthy (message_data body)) eqn:T; cbn [lift pbind truthy]; [|constructor].
    destruct (decode_jobId E (message_data body)) as [jobId|e'] eqn:D; cbn [lift pbind];
      [|constructor].
    destruct (truthy jobId); [|constructor].
    destruct (doc jobId) as [id|e'] eqn:Hd; cbn [lift pbind]; [|constructor].
    apply awaits_only_await. apply (named_document body id' jobId id NC T D Hd).
    left. reflexivity.
Qed.

End HandlerCalls.

Section FrameExtra.

(** X14.  The handler reads and writes no document but the job its message
    names and the report of that job: whatever the surroundings do, every
    other job and every other report is after the run what it was before,
    and no call of the run addresses it. *)
Theorem handler_touches_only_its_job
    (E : env) (sv : service) (body : value) (st : state) (other : string) :
  ~ carries E body other ->
  jobs (docs (snd (run sv (handler E body) st))) !! other = jobs (docs st) !! other
  /\ reports (docs (snd (run sv (handler E body) st))) !! other = reports (docs st) !! other
  /\ exists evs,
       trace (snd (run sv (handler E body) st)) = trace st ++ evs
       /\ Forall (fun e => store_id e <> Some other) evs.
Proof.
  intros NC. assert (H := handler_addresses E body other NC).
  destruct (run_frame sv _ st other H) as (H1 & H2).
  split; [exact H1|]. split; [exact H2|]. apply awaits_only_run. exact H.
Qed.

Lemma handler_touches_only_its_job_witness :
  ~ carries sample_env (body_for "job-1") "job-2"
  /\ jobs (docs (snd (run sample_service (handler sample_env (body_for "job-1")) sample_state)))
       !! "job-2" = Some job_big
  /\ exists job', jobs (docs (snd (run sample_service (handler sample_env (body_for "job-1"))
                                       sample_state))) !! "job-1" = Some job'
                  /\ Job.status job' = "complete".
Proof.
  assert (NC : ~ carries sample_env (body_for "job-1") "job-2").
  { intros (_ & D & _). vm_compute in D. discriminate. }
  split; [exact NC|]. split.
  - destruct (handler_touches_only_its_job sample_env sample_service (body_for "job-1")
                sample_state "job-2" NC) as (H & _).
    rewrite H. reflexivity.
  - eexists. split; [vm_compute; reflexivity|reflexivity].
Defined.

End FrameExtra.

Section ServedRuns.

Variable E : env.
Variable sv : service.

Lemma run_ocr_files_events (fs : list file) (texts : list string) (st : state) :
  run sv (ocr_files fs texts) st
  = (Ok (texts ++ flat_map (readable sv) fs),
     mk_state (docs st) (trace st ++ ocr_events sv fs)).
Proof.
  revert texts st. induction fs as [|f fs IH]; intros texts st;
    cbn [ocr_files flat_map ocr_events].
  - rewrite !app_nil_r. destruct st; reflexivity.
  - rewrite run_bind, run_try_catch, run_bind, run_await. unfold after, readable.
    cbn [perform fst snd].
    destruct (preprocess sv (path f)) as [buf|e]; cbn [run].
    + rewrite run_bind, run_await. unfold after. cbn [perform fst snd trace docs].
      destruct (ocr sv buf) as [res|e]; cbn [run]; rewrite IH; cbn [docs trace];
        rewrite <- !app_assoc; reflexivity.
    + rewrite IH. cbn [docs trace]. rewrite <- !app_assoc. reflexivity.
Qed.

Lemma extracted_readable (fs : list file) (texts : list string) :
  extracted sv fs texts = texts ++ flat_map (readable sv) fs.
Proof.
  revert texts. induction fs as [|f fs IH]; intros texts; cbn [extracted flat_map].
  - rewrite app_nil_r. reflexivity.
  - rewrite IH. unfold readable.
    destruct (preprocess sv (path f)) as [buf|e]; [destruct (ocr sv buf) as [res|e]|];
      rewrite <- ?app_assoc; reflexivity.
Qed.

Lemma run_analyze_events (text : string) (instructions : value) (st : state) :
  run sv (analyzeWithOpenAI E text instructions) st
  = (classified E sv text instructions,
     mk_state (docs st) (trace st ++ chat_events E text instructions)).
Proof.
  unfold analyzeWithOpenAI, classified, chat_events. destruct (openai E); cbn [negb].
  - rewrite run_bind, run_lift.
    destruct (instructions_text E instructions) as [instr|e]; cbn [bind].
    + rewrite run_bind, run_await. unfold after. cbn [perform fst snd].
      destruct (chat sv instr (user_prompt text)) as [content|e]; cbn [bind].
      * rewrite run_lift. reflexivity.
      * reflexivity.
    + rewrite app_nil_r. destruct st; reflexivity.
  - rewrite app_nil_r. destruct st; reflexivity.
Qed.

(** The run up to the classification, when the store serves every call. *)
Lemma run_handler_served (body : value) (st : state) (id : string) (job : Job.t) :
  carries E body id ->
  jobs (docs st) !! id = Some job ->
  over_limit E job = false ->
  (forall n, fault sv n = None) ->
  let files := files_or_empty (Job.files job) in
  let text := ocr_text E sv job in
  let before := trace st ++ [EJobGet id; EJobUpdate id processing]
                  ++ ocr_events sv files ++ chat_events E text (Job.instructions job) in
  let working := <[id := Job.update processing job]> (jobs (docs st)) in
  run sv (handler E body) st
  = match classified E sv text (Job.instructions job) with
    | Ok rep =>
        let deleted := purge_ok sv (Job.files job) in
        (Ok (mk_response 200 "ok"),
         mk_state
           (mk_world
              (<[id := Job.update (complete id deleted) (Job.update processing job)]> working)
              (if deleted
               then <[id := ReportDoc.mk id (or_else (Job.userId job) VNull) id rep true]>
                      (<[id := ReportDoc.mk id (or_else (Job.userId job) VNull) id rep false]>
                         (reports (docs st)))
               else <[id := ReportDoc.mk id (or_else (Job.userId job) VNull) id rep false]>
                      (reports (docs st))))
           (before
              ++ [EReportSet id (ReportDoc.mk id (or_else (Job.userId job) VNull) id rep false)]
              ++ map (fun f => EDelete (path f)) files
              ++ [EJobUpdate id (complete id deleted)]
              ++ (if deleted then [EReportUpdate id true] else [])))
    | Throw e =>
        (Ok (mk_response 200 "ok"),
         mk_state
           (mk_world (<[id := Job.update (failed e) (Job.update processing job)]> working)
                     (reports (docs st)))
           (before ++ [EJobUpdate id (failed e)]))
    end.
Proof.
  intros C Hjob Hover Hf files text before working.
  unfold handler. rewrite run_try_catch, (run_main_carries E sv body id st C).
  rewrite after_JobGet by apply Hf. rewrite Hjob, Hover.
  rewrite run_bind, run_await, (after_JobUpdate _ _ _ _ job) by (apply Hf || exact Hjob).
  rewrite run_bind, run_ocr_files_events, <- extracted_readable.
  rewrite run_bind, run_analyze_events.
  fold (ocr_text E sv job). fold text. cbn [docs trace].
  destruct (classified E sv text (Job.instructions job)) as [rep|e].
  - rewrite run_bind, run_await, after_ReportSet by apply Hf.
    rewrite run_bind, run_purgeImages. cbn [docs trace].
    rewrite run_bind, run_await, (after_JobUpdate _ _ _ _ (Job.update processing job))
      by (apply Hf || (cbn [docs jobs]; apply lookup_insert_eq)).
    rewrite run_bind. cbn [docs trace jobs reports].
    destruct (purge_ok sv (Job.files job)).
    + rewrite run_await, (after_ReportUpdate _ _ _ _
          (ReportDoc.mk id (or_else (Job.userId job) VNull) id rep false))
        by (apply Hf || (cbn [docs reports]; apply lookup_insert_eq)).
      cbn [run docs trace jobs reports ReportDoc.set_images_deleted
           ReportDoc.reportId ReportDoc.userId ReportDoc.jobId ReportDoc.json].
      unfold before, working. rewrite <- !app_assoc. reflexivity.
    + cbn [run]. unfold before, working. rewrite <- !app_assoc, app_nil_r. reflexivity.
  - rewrite (run_recover_carries E sv body id e _ C). cbn [perform]. unfold store.
    rewrite Hf. cbn [docs jobs trace]. rewrite lookup_insert_eq. cbn [snd].
    unfold before, working. rewrite <- !app_assoc. reflexivity.
Qed.

End ServedRuns.

Section ServedExtras.

Variable E : env.
Variable sv : service.

(** X15.  The loop over the files never fails and leaves the documents
    alone.  Each file is preprocessed; its text is read when that
    succeeded; the loop returns the texts of the files for which both
    succeeded, in the order of the files, whatever happened to the
    others. *)
Theorem ocr_loop_skips_unreadable_files (fs : list file) (st : state) :
  run sv (ocr_files fs []) st
  = (Ok (flat_map (readable sv) fs), mk_state (docs st) (trace st ++ ocr_events sv fs))
  /\ (length (flat_map (readable sv) fs) <= length fs)%nat
  /\ Forall (fun e => store_id e = None) (ocr_events sv fs).
Proof.
  split; [apply (run_ocr_files_events sv fs [] st)|]. split.
  - induction fs as [|f fs IH]; cbn [flat_map length]; [lia|].
    rewrite length_app. unfold readable at 1.
    destruct (preprocess sv (path f)) as [buf|e]; [destruct (ocr sv buf) as [res|e]|];
      cbn [length]; lia.
  - induction fs as [|f fs IH]; cbn [ocr_events]; [constructor|].
    constructor; [reflexivity|]. apply Forall_app. split; [|exact IH].
    destruct (preprocess sv (path f)); repeat constructor.
Qed.

(** X16.  The calls of a run that succeeds, in their order.  When the
    store serves every call and the classification yields a report, the
    handler reads the job, marks it "processing", goes through the files,
    asks the model once, writes the report with [images_deleted] false,
    requests the deletion of every file in the order of the files, marks
    the job "complete", and only then, when the purge succeeded, flags the
    report. *)
Theorem served_run_calls_in_order
    (body : value) (st : state) (id : string) (job : Job.t) (rep : Report.t) :
  carries E body id ->
  jobs (docs st) !! id = Some job ->
  over_limit E job = false ->
  (forall n, fault sv n = None) ->
  classified E sv (ocr_text E sv job) (Job.instructions job) = Ok rep ->
  exists st' instr,
    run sv (handler E body) st = (Ok (mk_response 200 "ok"), st')
    /\ instructions_text E (Job.instructions job) = Ok instr
    /\ trace st'
       = trace st
         ++ [EJobGet id; EJobUpdate id processing]
         ++ ocr_events sv (files_or_empty (Job.files job))
         ++ [EChatCompletion instr (user_prompt (ocr_text E sv job));
             EReportSet id (ReportDoc.mk id (or_else (Job.userId job) VNull) id rep false)]
         ++ map (fun f => EDelete (path f)) (files_or_empty (Job.files job))
         ++ [EJobUpdate id (complete id (purge_ok sv (Job.files job)))]
         ++ (if purge_ok sv (Job.files job) then [EReportUpdate id true] else []).
Proof.
  intros C Hjob Hover Hf Hrep.
  assert (R := run_handler_served E sv body st id job C Hjob Hover Hf).
  cbv zeta in R. rewrite Hrep in R. rewrite R. clear R.
  assert (Hc : exists instr, instructions_text E (Job.instructions job) = Ok instr
                 /\ chat_events E (ocr_text E sv job) (Job.instructions job)
                    = [EChatCompletion instr (user_prompt (ocr_text E sv job))]).
  { unfold classified, chat_events in *. destruct (openai E); [|discriminate].
    destruct (instructions_text E (Job.instructions job)) as [instr|e]; [eauto|discriminate]. }
  destruct Hc as (instr & Hi & ->).
  eexists _, instr. split; [reflexivity|]. split; [exact Hi|].
  cbn [trace]. rewrite <- !app_assoc. reflexivity.
Qed.

(** X17.  A classification that fails costs no image.  When the store
    serves every call and the classification ends with an exception, the
    job is marked "error" with the text of the exception, no report is
    written and no deletion is requested.  Without an API key every job
    ends so, after its files went through the loop. *)
Theorem failed_classification_keeps_the_images
    (body : value) (st : state) (id : string) (job : Job.t) (e : exn) :
  carries E body id ->
  jobs (docs st) !! id = Some job ->
  over_limit E job = false ->
  (forall n, fault sv n = None) ->
  classified E sv (ocr_text E sv job) (Job.instructions job) = Throw e ->
  exists st' job' evs,
    run sv (handler E body) st = (Ok (mk_response 200 "ok"), st')
    /\ trace st' = trace st ++ evs
    /\ Forall (fun ev => match ev with
                         | EReportSet _ _ | EReportUpdate _ _ | EDelete _ => False
                         | _ => True
                         end) evs
    /\ reports (docs st') = reports (docs st)
    /\ jobs (docs st') !! id = Some job'
    /\ Job.status job' = "error"
    /\ Job.error job' = Some (ErrorText (diagnostic e))
    /\ (openai E = false -> diagnostic e = "OPENAI_API_KEY not set").
Proof.
  intros C Hjob Hover Hf Hrep.
  assert (R := run_handler_served E sv body st id job C Hjob Hover Hf).
  cbv zeta in R. rewrite Hrep in R. rewrite R. clear R.
  do 3 eexists. split; [reflexivity|]. cbn [trace docs jobs reports].
  split; [rewrite <- !app_assoc; reflexivity|]. split.
  { cbn [app]. constructor; [exact I|]. constructor; [exact I|].
    apply Forall_app. split; [|apply Forall_app; split; [|repeat constructor]].
    - induction (files_or_empty (Job.files job)) as [|f fs IH]; cbn [ocr_events];
        [constructor|].
      constructor; [exact I|]. apply Forall_app. split; [|exact IH].
      destruct (preprocess sv (path f)); repeat constructor.
    - unfold chat_events. destruct (openai E); [|constructor].
      destruct (instructions_text E (Job.instructions job)); repeat constructor. }
  split; [reflexivity|]. rewrite lookup_insert_eq.
  split; [reflexivity|]. split; [reflexivity|]. split; [reflexivity|].
  intros K. unfold classified in Hrep. rewrite K in Hrep. cbn [negb] in Hrep.
  injection Hrep as <-. reflexivity.
Qed.

Lemma run_handler_over_limit (body : value) (st : state) (id : string) (job : Job.t) :
  carries E body id ->
  jobs (docs st) !! id = Some job ->
  over_limit E job = true ->
  (forall n, fault sv n = None) ->
  run sv (handler E body) st
  = (Ok (mk_response 200 "ok"),
     mk_state (mk_world (<[id := Job.update (too_many_files (maxForPlan E (Job.plan job))) job]>
                           (jobs (docs st)))
                        (reports (docs st)))
              (trace st ++ [EJobGet id;
                            EJobUpdate id (too_many_files (maxForPlan E (Job.plan job)))])).
Proof.
  intros C Hjob Hover Hf.
  unfold handler. rewrite run_try_catch, (run_main_carries E sv body id st C).
  rewrite after_JobGet by apply Hf. rewrite Hjob, Hover.
  rewrite run_bind, run_await, (after_JobUpdate _ _ _ _ job) by (apply Hf || exact Hjob).
  cbn [run trace]. rewrite <- app_assoc. reflexivity.
Qed.

(** X18.  A run the store serves never leaves the job unfinished: whatever
    the images, the OCR and the model do, the job the message names ends
    "complete" or "error", and its plan, files, user and instructions are
    what they were. *)
Theorem served_job_is_never_left_unfinished
    (body : value) (st : state) (id : string) (job : Job.t) :
  carries E body id ->
  jobs (docs st) !! id = Some job ->
  (forall n, fault sv n = None) ->
  exists st' job',
    run sv (handler E body) st = (Ok (mk_response 200 "ok"), st')
    /\ jobs (docs st') !! id = Some job'
    /\ (Job.status job' = "complete" \/ Job.status job' = "error")
    /\ Job.plan job' = Job.plan job /\ Job.files job' = Job.files job
    /\ Job.userId job' = Job.userId job /\ Job.instructions job' = Job.instructions job.
Proof.
  intros C Hjob Hf. destruct (over_limit E job) eqn:Hover.
  - rewrite (run_handler_over_limit body st id job C Hjob Hover Hf).
    do 2 eexists. split; [reflexivity|]. cbn [docs jobs]. rewrite lookup_insert_eq.
    split; [reflexivity|]. split; [right; reflexivity|]. repeat split; reflexivity.
  - assert (R := run_handler_served E sv body st id job C Hjob Hover Hf).
    cbv zeta in R. rewrite R. clear R.
    destruct (classified E sv (ocr_text E sv job) (Job.instructions job)) as [rep|e].
    + do 2 eexists. split; [reflexivity|]. cbn [docs jobs]. rewrite lookup_insert_eq.
      split; [reflexivity|]. split; [left; reflexivity|]. repeat split; reflexivity.
    + do 2 eexists. split; [reflexivity|]. cbn [docs jobs]. rewrite lookup_insert_eq.
      split; [reflexivity|]. split; [right; reflexivity|]. repeat split; reflexivity.
Qed.

End ServedExtras.

Section DeleteFacts.

Variable E : env.
Variable sv : service.

Lemma run_try_bind {A B : Type} (p : prog A) (f : A -> prog B) (h : exn -> prog B) (st : state) :
  run sv (try_catch (pbind p f) h) st
  = match run sv p st with
    | (Ok a, s) => run sv (try_catch (f a) h) s
    | (Throw e, s) => run sv (h e) s
    end.
Proof.
  revert st. induction p as [a|e|X c k IH]; intros st; cbn [pbind try_catch run];
    try reflexivity.
  destruct (perform sv st c) as [r w]. apply IH.
Qed.

(** The [try] block once the message names a job. *)
Lemma main_carries (body : value) (id : string) :
  carries E body id ->
  main E body
  = (snap <~ await (JobGet id) ;;
     match snap with
     | None => Return (mk_response 200 "job-not-found")
     | Some job =>
         if over_limit E job then
           _ <~ await (JobUpdate id (too_many_files (maxForPlan E (Job.plan job)))) ;;
           Return (mk_response 200 "ok")
         else
           _ <~ await (JobUpdate id processing) ;;
           texts <~ ocr_files (files_or_empty (Job.files job)) [] ;;
           reportJson <~ analyzeWithOpenAI E
                           (if str_nonempty (cleanOcr E (join_texts texts))
                            then cleanOcr E (join_texts texts) else "NO_TEXT_EXTRACTED")
                           (Job.instructions job) ;;
           _ <~ await (ReportSet id
                         (ReportDoc.mk id (or_else (Job.userId job) VNull) id reportJson false)) ;;
           deleted <~ purgeImages (Job.files job) ;;
           _ <~ await (JobUpdate id (complete id deleted)) ;;
           _ <~ (if deleted : bool then await (ReportUpdate id true) else Return tt) ;;
           Return (mk_response 200 "ok")
     end).
Proof.
  intros (Hd & Hdec & Hid). unfold main.
  fold (message_data body). rewrite Hd, (data_truthy_message body Hd).
  cbn [negb orb]. rewrite Hdec. cbn [lift pbind doc]. rewrite Hid. cbn [lift pbind].
  reflexivity.
Qed.

Lemma after_trace {X : Type} (c : call X) (st : state) :
  trace (snd (after sv st c)) = trace st ++ [event_of c].
Proof. reflexivity. Qed.

Lemma ocr_events_no_delete (fs : list file) (p : string) : ~ In (EDelete p) (ocr_events sv fs).
Proof.
  induction fs as [|f fs IH]; cbn [ocr_events]; [auto|].
  intros [H|H]; [discriminate|]. apply in_app_or in H. destruct H as [H|H]; [|auto].
  destruct (preprocess sv (path f)); [destruct H as [H|[]]; discriminate|destruct H].
Qed.

Lemma chat_events_no_delete (text : string) (v : value) (p : string) :
  ~ In (EDelete p) (chat_events E text v).
Proof.
  unfold chat_events. destruct (openai E); [|auto].
  destruct (instructions_text E v); [intros [H|[]]; discriminate|auto].
Qed.

(** The steps behind the report: the deletions are those of the files. *)
Lemma awaits_only_behind_report (body : value) (id : string) (files : option (list file)) :
  awaits_only (fun e => forall p, e = EDelete p -> In p (map path (files_or_empty files)))
    (try_catch
       (deleted <~ purgeImages files ;;
        _ <~ await (JobUpdate id (complete id deleted)) ;;
        _ <~ (if deleted : bool then await (ReportUpdate id true) else Return tt) ;;
        Return (mk_response 200 "ok"))
       (recover E body)).
Proof.
  apply awaits_only_try.
  - apply awaits_only_bind.
    + unfold purgeImages. apply awaits_only_bind; [|intros; constructor].
      induction (files_or_empty files) as [|f fs IH]; cbn [start_deletes map]; [constructor|].
      apply awaits_only_bind.
      * apply awaits_only_settle. intros p [= <-]. left. reflexivity.
      * intros o. apply awaits_only_bind; [|intros; constructor].
        eapply awaits_only_weaken; [|exact IH].
        intros e H p Hp. right. apply H. exact Hp.
    + intros deleted. apply awaits_only_bind; [apply awaits_only_await; discriminate|].
      intros _. apply awaits_only_bind; [|intros; constructor].
      destruct deleted; [apply awaits_only_await; discriminate|constructor].
  - intros e. unfold recover. apply awaits_only_bind; [|intros; constructor].
    apply awaits_only_try; [|intros; constructor].
    destruct (truthy _); cbn [lift pbind].
    + destruct (decode_jobId E _) as [jobId|e']; cbn [lift pbind]; [|constructor].
      destruct (truthy jobId); [|constructor].
      destruct (doc jobId); cbn [lift pbind]; [|constructor].
      apply awaits_only_await. discriminate.
    + cbn [truthy]. constructor.
Qed.

End DeleteFacts.

Section DeleteExtra.

Variable E : env.
Variable sv : service.

Lemma after_JobGet_cases (st s1 : state) (id : string) (r : result (option Job.t)) :
  after sv st (JobGet id) = (r, s1) ->
  trace s1 = trace st ++ [EJobGet id] /\ docs s1 = docs st
  /\ forall snap, r = Ok snap -> snap = jobs (docs st) !! id.
Proof.
  unfold after. cbn [perform event_of]. unfold store.
  destruct (fault sv (length (trace st))); cbn [fst snd]; intros [= <- <-];
    (split; [reflexivity|]); (split; [reflexivity|]); intros snap [= <-]; reflexivity.
Qed.

Lemma after_step {X : Type} (c : call X) (st s1 : state) (r : result X) :
  after sv st c = (r, s1) -> trace s1 = trace st ++ [event_of c].
Proof. intros H. rewrite <- (after_trace sv c st), H. reflexivity. Qed.

Lemma after_ReportSet_ok (st s1 : state) (id : string) (d : ReportDoc.t) :
  after sv st (ReportSet id d) = (Ok tt, s1) -> reports (docs s1) !! id = Some d.
Proof.
  unfold after. cbn [perform]. unfold store.
  destruct (fault sv (length (trace st))); cbn [fst snd]; [discriminate|].
  intros [= <-]. cbn [docs reports]. apply lookup_insert_eq.
Qed.

Lemma no_delete_app (p : string) (a b : list event) :
  ~ In (EDelete p) a -> ~ In (EDelete p) b -> ~ In (EDelete p) (a ++ b).
Proof. intros Ha Hb H. apply in_app_or in H. tauto. Qed.

Lemma no_delete_one (p : string) (e : event) :
  store_id e <> None -> ~ In (EDelete p) [e].
Proof. intros H [->|[]]. apply H. reflexivity. Qed.

(** X19.  No image is deleted before the report is in the store.
    Whatever the surroundings do, every deletion a run requests is that of
    a file of the job the message names, and at the end of such a run the
    store holds the report of the job. *)
Theorem images_are_deleted_behind_the_report (body : value) (st : state) (id : string) :
  carries E body id ->
  exists evs,
    trace (snd (run sv (handler E body) st)) = trace st ++ evs
    /\ forall p, In (EDelete p) evs ->
         (exists d, reports (docs (snd (run sv (handler E body) st))) !! id = Some d)
         /\ exists job, jobs (docs st) !! id = Some job
                        /\ In p (map path (files_or_empty (Job.files job))).
Proof.
  intros C.
  assert (V : forall s' evs,
             trace s' = trace st ++ evs -> (forall p, ~ In (EDelete p) evs) ->
             exists evs,
               trace s' = trace st ++ evs
               /\ forall p, In (EDelete p) evs ->
                    (exists d, reports (docs s') !! id = Some d)
                    /\ exists job, jobs (docs st) !! id = Some job
                                   /\ In p (map path (files_or_empty (Job.files job)))).
  { intros s' evs Ht Hn. exists evs. split; [exact Ht|]. intros p Hp. destruct (Hn p Hp). }
  assert (Rc : forall e s evs,
             trace s = trace st ++ evs -> (forall p, ~ In (EDelete p) evs) ->
             exists evs',
               trace (snd (run sv (recover E body e) s)) = trace st ++ evs'
               /\ forall p, ~ In (EDelete p) evs').
  { intros e s evs Ht Hn. rewrite (run_recover_carries E sv body id e s C). cbn [snd trace].
    exists (evs ++ [EJobUpdate id (failed e)]). rewrite Ht, <- app_assoc.
    split; [reflexivity|]. intros p. apply no_delete_app; [apply Hn|].
    apply no_delete_one. discriminate. }
  unfold handler. rewrite (main_carries E body id C). rewrite run_try_bind, run_await.
  destruct (after sv st (JobGet id)) as [[snap|e] s1] eqn:A1;
    destruct (after_JobGet_cases _ _ _ _ A1) as (T1 & D1 & S1).
  2:{ destruct (Rc e s1 [EJobGet id] T1) as (evs & Ht & Hn).
      { intros p. apply no_delete_one. discriminate. }
      exact (V _ evs Ht Hn). }
  specialize (S1 snap eq_refl). subst snap.
  destruct (jobs (docs st) !! id) as [job|] eqn:Hjob.
  2:{ cbn [try_catch run snd]. apply (V _ [EJobGet id] T1).
      intros p. apply no_delete_one. discriminate. }
  destruct (over_limit E job).
  { rewrite run_try_bind, run_await.
    destruct (after sv s1 (JobUpdate id _)) as [[[]|e] s2] eqn:A2;
      assert (T2 := after_step _ _ _ _ A2); cbn [event_of] in T2; rewrite T1, <- app_assoc in T2.
    - cbn [try_catch run snd]. apply (V _ _ T2).
      intros p. apply no_delete_app; apply no_delete_one; discriminate.
    - destruct (Rc e s2 _ T2) as (evs & Ht & Hn).
      { intros p. apply no_delete_app; apply no_delete_one; discriminate. }
      exact (V _ evs Ht Hn). }
  rewrite run_try_bind, run_await.
  destruct (after sv s1 (JobUpdate id processing)) as [[[]|e] s2] eqn:A2;
    assert (T2 := after_step _ _ _ _ A2); cbn [event_of] in T2; rewrite T1, <- app_assoc in T2.
  2:{ destruct (Rc e s2 _ T2) as (evs & Ht & Hn).
      { intros p. apply no_delete_app; apply no_delete_one; discriminate. }
      exact (V _ evs Ht Hn). }
  rewrite run_try_bind, run_ocr_files_events. cbn [app].
  rewrite run_try_bind, run_analyze_events. cbn [docs trace].
  set (text := if str_nonempty _ then _ else _).
  set (files := files_or_empty (Job.files job)).
  assert (N3 : forall p, ~ In (EDelete p)
                           (([EJobGet id] ++ [EJobUpdate id processing])
                              ++ ocr_events sv files ++ chat_events E text (Job.instructions job))).
  { intros p. apply no_delete_app; [apply no_delete_app; apply no_delete_one; discriminate|].
    apply no_delete_app; [apply ocr_events_no_delete|apply chat_events_no_delete]. }
  assert (T3 : trace st ++ ([EJobGet id] ++ [EJobUpdate id processing])
                 ++ ocr_events sv files ++ chat_events E text (Job.instructions job)
               = (trace s2 ++ ocr_events sv files) ++ chat_events E text (Job.instructions job)).
  { rewrite T2, <- !app_assoc. reflexivity. }
  destruct (classified E sv text (Job.instructions job)) as [rep|e].
  2:{ destruct (Rc e (mk_state (docs s2) ((trace s2 ++ ocr_events sv files)
                                            ++ chat_events E text (Job.instructions job)))
                  _ (eq_sym T3) N3) as (evs & Ht & Hn).
      exact (V _ evs Ht Hn). }
  rewrite run_try_bind, run_await.
  match goal with |- context [after sv ?s (ReportSet id ?d)] =>
    destruct (after sv s (ReportSet id d)) as [[[]|e] s4] eqn:A4;
      assert (T4 := after_step _ _ _ _ A4); cbn [event_of trace] in T4;
      rewrite <- T3, <- app_assoc in T4
  end.
  2:{ destruct (Rc e s4 _ T4) as (evs & Ht & Hn).
      { intros p. apply no_delete_app; [apply N3|]. apply no_delete_one. discriminate. }
      exact (V _ evs Ht Hn). }
  apply after_ReportSet_ok in A4.
  match goal with |- context [run sv ?p s4] =>
    destruct (awaits_only_run sv _ p s4 (awaits_only_behind_report E body id (Job.files job)))
      as (evs & Et & Fe);
    destruct (run_keeps_report sv p s4 id _ A4) as (d' & Hd')
  end.
  eexists. split; [rewrite Et, T4, <- app_assoc; reflexivity|].
  intros p Hp. split; [eauto|]. exists job. split; [reflexivity|].
  apply in_app_or in Hp. destruct Hp as [Hp|Hp].
  - exfalso. revert Hp. apply no_delete_app; [apply N3|]. apply no_delete_one. discriminate.
  - rewrite List.Forall_forall in Fe. exact (Fe _ Hp p eq_refl).
Qed.

End DeleteExtra.

Section NamelessExtras.

Variable E : env.
Variable sv : service.

(** X20.  A message that names no job is acknowledged and nothing else
    happens: no call is made, no document is read or written.  The answer
    is "no-message" when the body has no message or the message no data,
    and "ok" when the data does not decode to the identifier of a
    document. *)
Theorem nameless_message_is_acknowledged_without_a_call (body : value) (st : state) :
  (forall id, ~ carries E body id) ->
  run sv (handler E body) st
  = (Ok (mk_response 200 (if truthy (message_data body) then "ok" else "no-message")), st).
Proof.
  intros NC. unfold handler. rewrite run_try_catch. unfold main. fold (message_data body).
  destruct (truthy (message_data body)) eqn:T.
  - rewrite (data_truthy_message body T). cbn [negb orb].
    assert (R : forall e, run sv (recover E body e) st = (Ok (mk_response 200 "ok"), st)).
    { intros e. unfold recover. fold (message_data body). rewrite T.
      rewrite run_bind, run_try_catch.
      destruct (decode_jobId E (message_data body)) as [jobId|e'] eqn:D; cbn [lift pbind run];
        [|reflexivity].
      destruct (truthy jobId); cbn [run]; [|reflexivity].
      destruct (doc jobId) as [id|e'] eqn:Hd; cbn [lift pbind run]; [|reflexivity].
      apply doc_ok in Hd. destruct Hd as (-> & N).
      destruct (NC id). repeat split; assumption. }
    destruct (decode_jobId E (message_data body)) as [jobId|e] eqn:D; cbn [lift pbind run];
      [|apply R].
    destruct (doc jobId) as [id|e] eqn:Hd; cbn [lift pbind run]; [|apply R].
    apply doc_ok in Hd. destruct Hd as (-> & N).
    destruct (NC id). repeat split; assumption.
  - destruct (negb (truthy (get_opt body "message"))); reflexivity.
Qed.

(** X21.  A message that names a job the store does not hold, by an
    identifier of one path segment (no slash, so that the client library
    takes it for the path of a job document), is answered "job-not-found"
    after the one read, when that read is served: nothing is written. *)
Theorem unknown_job_is_acknowledged_after_one_read (body : value) (st : state) (id : string) :
  carries E body id ->
  plain_id id = true ->
  fault sv (length (trace st)) = None ->
  jobs (docs st) !! id = None ->
  run sv (handler E body) st
  = (Ok (mk_response 200 "job-not-found"), mk_state (docs st) (trace st ++ [EJobGet id])).
Proof.
  intros C _ F Hjob. unfold handler.
  rewrite run_try_catch, (run_main_carries E sv body id st C).
  rewrite (after_JobGet sv) by exact F. rewrite Hjob. reflexivity.
Qed.

End NamelessExtras.

Section ServedWitnesses.

Lemma carries_worker (id : string) :
  str_nonempty id = true -> carries worker_env (body_for id) id.
Proof.
  intros H. unfold carries, message_data, body_for. cbn. rewrite H. repeat split; reflexivity.
Qed.

Lemma carries_keyless (id : string) :
  str_nonempty id = true -> carries keyless_env (body_for id) id.
Proof.
  intros H. unfold carries, message_data, body_for. cbn. rewrite H. repeat split; reflexivity.
Qed.

Lemma served_run_calls_in_order_witness :
  exists st' d,
    run patchy_service (handler worker_env (body_for "job-1")) sample_state
    = (Ok (mk_response 200 "ok"), st')
    /\ trace st'
       = [ EJobGet "job-1"; EJobUpdate "job-1" processing;
           EPreprocess "a.png"; EOcr "a.png"; EPreprocess "gone.png";
           EChatCompletion "Return STRICT JSON only." (user_prompt "a.png");
           EReportSet "job-1" d;
           EDelete "a.png"; EDelete "gone.png";
           EJobUpdate "job-1" (complete "job-1" true); EReportUpdate "job-1" true ].
Proof.
  destruct (classified worker_env patchy_service (ocr_text worker_env patchy_service job_small)
              (Job.instructions job_small)) as [rep|e] eqn:Hc;
    [|vm_compute in Hc; discriminate].
  destruct (served_run_calls_in_order worker_env patchy_service
              (body_for "job-1") sample_state "job-1" job_small rep)
    as (st' & instr & R & Hi & T);
    [apply carries_worker; reflexivity|reflexivity|reflexivity|reflexivity|exact Hc|].
  vm_compute in Hi. injection Hi as <-.
  exists st', (ReportDoc.mk "job-1" VNull "job-1" rep false). split; [exact R|].
  rewrite T. reflexivity.
Defined.

Lemma failed_classification_keeps_the_images_witness :
  exists st' job',
    run sample_service (handler keyless_env (body_for "job-1")) sample_state
    = (Ok (mk_response 200 "ok"), st')
    /\ jobs (docs st') !! "job-1" = Some job'
    /\ Job.status job' = "error"
    /\ Job.error job' = Some (ErrorText "OPENAI_API_KEY not set")
    /\ reports (docs st') = reports (docs sample_state).
Proof.
  destruct (failed_classification_keeps_the_images keyless_env sample_service
              (body_for "job-1") sample_state "job-1" job_small
              (Exn "Error" "OPENAI_API_KEY not set"))
    as (st' & job' & evs & R & _ & _ & Hr & Hj & Hs & He & _);
    [apply carries_keyless; reflexivity|reflexivity|reflexivity|reflexivity|reflexivity|].
  exists st', job'. repeat split; assumption.
Defined.

Lemma served_job_is_never_left_unfinished_witness :
  exists st' job',
    run patchy_service (handler worker_env (body_for "job-2")) sample_state
    = (Ok (mk_response 200 "ok"), st')
    /\ jobs (docs st') !! "job-2" = Some job'
    /\ (Job.status job' = "complete" \/ Job.status job' = "error").
Proof.
  destruct (served_job_is_never_left_unfinished worker_env patchy_service
              (body_for "job-2") sample_state "job-2" job_big)
    as (st' & job' & R & Hj & Hs & _);
    [apply carries_worker; reflexivity|reflexivity|reflexivity|].
  exists st', job'. repeat split; assumption.
Defined.

Lemma images_are_deleted_behind_the_report_witness :
  exists evs d,
    trace (snd (run sample_service (handler worker_env (body_for "job-3")) sample_state))
    = trace sample_state ++ evs
    /\ In (EDelete "locked.png") evs
    /\ reports (docs (snd (run sample_service (handler worker_env (body_for "job-3"))
                             sample_state))) !! "job-3" = Some d.
Proof.
  destruct (images_are_deleted_behind_the_report worker_env sample_service
              (body_for "job-3") sample_state "job-3") as (evs & Et & H);
    [apply carries_worker; reflexivity|].
  assert (Hin : In (EDelete "locked.png") evs).
  { vm_compute in Et. subst evs. repeat first [left; reflexivity | right]. }
  destruct (H "locked.png" Hin) as ((d & Hd) & _).
  exists evs, d. repeat split; assumption.
Defined.

Lemma nameless_message_is_acknowledged_without_a_call_witness :
  run sample_service (handler worker_env (VObj [("message", VObj [("data", VStr "")])]))
      sample_state
  = (Ok (mk_response 200 "no-message"), sample_state)
  /\ run sample_service (handler worker_env (VObj [("message", VObj [("data", VNum (Fin 7))])]))
         sample_state
     = (Ok (mk_response 200 "ok"), sample_state).
Proof.
  split.
  - apply (nameless_message_is_acknowledged_without_a_call worker_env sample_service
             (VObj [("message", VObj [("data", VStr "")])]) sample_state).
    intros id (T & _). discriminate.
  - apply (nameless_message_is_acknowledged_without_a_call worker_env sample_service
             (VObj [("message", VObj [("data", VNum (Fin 7))])]) sample_state).
    intros id (_ & D & _). vm_compute in D. discriminate.
Defined.

Lemma unknown_job_is_acknowledged_after_one_read_witness :
  run sample_service (handler worker_env (body_for "job-9")) sample_state
  = (Ok (mk_response 200 "job-not-found"),
     mk_state (docs sample_state) (trace sample_state ++ [EJobGet "job-9"])).
Proof.
  apply (unknown_job_is_acknowledged_after_one_read worker_env sample_service
           (body_for "job-9") sample_state "job-9");
    [apply carries_worker; reflexivity|reflexivity|reflexivity|reflexivity].
Defined.

End ServedWitnesses.

Section ExtractExtras.

Variable E : env.

Lemma append_assoc3 (a b c : string) : (a +:+ b) +:+ c = a +:+ (b +:+ c).
Proof.
  induction a as [|x a IH]; [reflexivity|].
  change (String x ((a +:+ b) +:+ c) = String x (a +:+ b +:+ c)). rewrite IH. reflexivity.
Qed.

(** X22.  [extractJson] parses what stands between the first opening and
    the last closing brace of a text, braces included, and ignores what
    stands around: for a text [pre{mid}post] with no opening brace in [pre]
    and no closing brace in [post], the result is the value [JSON.parse]
    gives for [{mid}], and the empty object when that does not parse.  A
    text without an opening brace, or without a closing one, gives the
    empty object. *)
Theorem extractJson_reads_between_the_outer_braces :
  (forall pre mid post : string,
     indexOf "{"%char (chars pre) = None ->
     lastIndexOf "}"%char (chars post) = None ->
     extractJson E (pre +:+ "{" +:+ mid +:+ "}" +:+ post)
     = match JSON_parse E ("{" +:+ mid +:+ "}") with
       | Ok v => v
       | Throw _ => VObj []
       end)
  /\ (forall text : string,
        indexOf "{"%char (chars text) = None \/ lastIndexOf "}"%char (chars text) = None ->
        extractJson E text = VObj []).
Proof.
  split.
  - intros pre mid post Hpre Hpost. unfold extractJson.
    assert (C : chars (pre +:+ "{" +:+ mid +:+ "}" +:+ post)
                = chars pre ++ "{"%char :: chars mid ++ "}"%char :: chars post).
    { rewrite !chars_append. reflexivity. }
    rewrite C, (indexOf_app _ _ _ Hpre).
    replace (chars pre ++ "{"%char :: chars mid ++ "}"%char :: chars post)
      with ((chars pre ++ "{"%char :: chars mid) ++ "}"%char :: chars post)
      by (rewrite <- app_assoc; reflexivity).
    rewrite (lastIndexOf_app _ _ _ Hpost), length_app. cbn [length].
    rewrite !length_chars.
    assert (L : (String.length pre <? String.length pre + S (String.length mid))%nat = true)
      by (apply Nat.ltb_lt; lia).
    rewrite L.
    replace (String.length pre + S (String.length mid) + 1 - String.length pre)%nat
      with (String.length ("{" +:+ mid +:+ "}")) by (rewrite !length_append; simpl; lia).
    rewrite substring_skip.
    replace ("{" +:+ mid +:+ "}" +:+ post) with (("{" +:+ mid +:+ "}") +:+ post)
      by (rewrite !append_assoc3; reflexivity).
    rewrite substring_prefix. reflexivity.
  - intros text [H|H]; unfold extractJson; rewrite H; [reflexivity|].
    destruct (indexOf "{"%char (chars text)); reflexivity.
Qed.

End ExtractExtras.

Section EmptyReportExtra.

Variable E : env.
Variable sv : service.

(** X23.  A reply from which [extractJson] gets the empty object (it holds
    no braces, or what stands between them does not parse) yields the
    report of an empty classification, not an error: risk score 0, label
    "low", confidence 0.85, no tactic, no receipt. *)
Theorem reply_without_an_object_gives_the_empty_report
    (text : string) (instructions : value) (instr reply : string) (st : state) :
  openai E = true ->
  instructions_text E instructions = Ok instr ->
  chat sv instr (user_prompt text) = Ok (Some reply) ->
  reply <> "" ->
  extractJson E reply = VObj [] ->
  run sv (analyzeWithOpenAI E text instructions) st
  = (Ok empty_report,
     mk_state (docs st) (trace st ++ [EChatCompletion instr (user_prompt text)])).
Proof.
  intros K Hi Hc Hne Hx. rewrite run_analyze_events. unfold classified, chat_events.
  rewrite K, Hi. cbn [negb bind]. rewrite Hc. cbn [bind]. unfold raw_of_content.
  destruct reply as [|c r]; [congruence|]. cbn [str_nonempty]. rewrite Hx. reflexivity.
Qed.

End EmptyReportExtra.

Section EmptyReportWitness.

Lemma extractJson_reads_between_the_outer_braces_witness :
  extractJson sample_env "Here is the report: {x} Anything else?"
  = VObj [("jobId", VStr "{x}")].
Proof.
  apply (proj1 (extractJson_reads_between_the_outer_braces sample_env)
           "Here is the report: " "x" " Anything else?"); reflexivity.
Defined.


Lemma reply_without_an_object_gives_the_empty_report_witness :
  run (mk_service (fun _ => None) (fun p => Ok p) (fun b => Ok (Some b))
                  (fun _ _ => Ok (Some "I cannot help with that."))
                  (fun _ => Deleted))
      (analyzeWithOpenAI worker_env "hello" VUndefined) sample_state
  = (Ok empty_report,
     mk_state (docs sample_state)
              [EChatCompletion "Return STRICT JSON only." (user_prompt "hello")]).
Proof.
  apply (reply_without_an_object_gives_the_empty_report worker_env _ "hello" VUndefined
           "Return STRICT JSON only." "I cannot help with that." sample_state);
    try reflexivity.
  discriminate.
Defined.

End EmptyReportWitness.

Section ReceiptExtra.

(** X24.  The receipts of a returned report are the first thirty of the
    supplied ones, unchanged and in their order: those of [raw.receipts]
    when that is an array, else those of [raw.receipts.highlights] when
    that is one, and none otherwise. *)
Theorem receipts_are_the_first_thirty (raw : value) (out : Report.t) :
  normalizeReport raw = Ok out ->
  (forall l, prop raw "receipts" = VArr l ->
     Report.receipts out = firstn 30 l
     /\ exists rest, l = Report.receipts out ++ rest)
  /\ (forall l, isArray (prop raw "receipts") = false ->
        get_opt (prop raw "receipts") "highlights" = VArr l ->
        Report.receipts out = firstn 30 l
        /\ exists rest, l = Report.receipts out ++ rest)
  /\ (isArray (prop raw "receipts") = false ->
      isArray (get_opt (prop raw "receipts") "highlights") = false ->
      Report.receipts out = []).
Proof.
  intros H. apply normalizeReport_returns in H. destruct H as (_ & c & objs & _ & _ & ->).
  unfold assemble. cbn [Report.receipts]. unfold receipts_of.
  split; [|split].
  - intros l ->. split; [reflexivity|]. exists (skipn 30 l). symmetry. apply firstn_skipn.
  - intros l Hn Hh. destruct (prop raw "receipts"); try discriminate; rewrite Hh;
      (split; [reflexivity|]); exists (skipn 30 l); symmetry; apply firstn_skipn.
  - intros Hn Hh. destruct (prop raw "receipts"); try discriminate;
      destruct (get_opt _ "highlights"); try discriminate; reflexivity.
Qed.

Lemma receipts_are_the_first_thirty_witness :
  exists out,
    normalizeReport (VObj [("receipts", VObj [("highlights", VArr (repeat (VStr "q") 31))])])
    = Ok out
    /\ Report.receipts out = repeat (VStr "q") 30.
Proof.
  match goal with |- exists out, ?r = Ok out /\ _ => destruct r as [out|e] eqn:E end;
    [|vm_compute in E; discriminate].
  exists out. split; [reflexivity|].
  destruct (receipts_are_the_first_thirty _ out E) as (_ & H & _).
  destruct (H (repeat (VStr "q") 31) eq_refl eq_refl) as (-> & _). reflexivity.
Defined.

End ReceiptExtra.

Section StubExtra.

Variable E : env.
Variable sv : service.

(** X25.  When no file yields a text other than white space (no file at all,
    no file that could be read, or blank texts only), the model is asked
    about the text "NO_TEXT_EXTRACTED": in a run the store serves, with an
    API key and instructions in place, that is the request the handler
    makes. *)
Theorem images_without_text_send_the_stub
    (body : value) (st : state) (id : string) (job : Job.t) (instr : string) :
  carries E body id ->
  jobs (docs st) !! id = Some job ->
  over_limit E job = false ->
  (forall n, fault sv n = None) ->
  (forall s, cleanOcr E s = OcrHelpers.cleanOcr s) ->
  Forall (fun t => Forall (fun c => is_white c = true) (chars t))
         (flat_map (readable sv) (files_or_empty (Job.files job))) ->
  openai E = true ->
  instructions_text E (Job.instructions job) = Ok instr ->
  In (EChatCompletion instr (user_prompt "NO_TEXT_EXTRACTED"))
     (trace (snd (run sv (handler E body) st))).
Proof.
  intros C Hjob Hover Hf Hclean Hblank K Hi.
  assert (T : ocr_text E sv job = "NO_TEXT_EXTRACTED").
  { unfold ocr_text. rewrite extracted_readable. cbn [app]. rewrite Hclean.
    rewrite (cleanOcr_blank _ (join_blank _ Hblank)). reflexivity. }
  assert (R := run_handler_served E sv body st id job C Hjob Hover Hf).
  cbv zeta in R. rewrite R. clear R. rewrite T.
  assert (Hc : chat_events E "NO_TEXT_EXTRACTED" (Job.instructions job)
               = [EChatCompletion instr (user_prompt "NO_TEXT_EXTRACTED")]).
  { unfold chat_events. rewrite K, Hi. reflexivity. }
  rewrite Hc.
  assert (B : In (EChatCompletion instr (user_prompt "NO_TEXT_EXTRACTED"))
                 (trace st ++ [EJobGet id; EJobUpdate id processing]
                    ++ ocr_events sv (files_or_empty (Job.files job))
                    ++ [EChatCompletion instr (user_prompt "NO_TEXT_EXTRACTED")])).
  { apply in_or_app. right. cbn [app]. do 2 right. apply in_or_app. right. left. reflexivity. }
  destruct (classified E sv "NO_TEXT_EXTRACTED" (Job.instructions job)); cbn [snd trace];
    apply in_or_app; left; exact B.
Qed.

End StubExtra.

Section StubWitness.

Lemma images_without_text_send_the_stub_witness :
  In (EChatCompletion "Return STRICT JSON only." (user_prompt "NO_TEXT_EXTRACTED"))
     (trace (snd (run wordless_service (handler worker_env (body_for "job-1")) sample_state))).
Proof.
  apply (images_without_text_send_the_stub worker_env wordless_service (body_for "job-1")
           sample_state "job-1" job_small "Return STRICT JSON only.");
    try reflexivity.
  - apply carries_worker. reflexivity.
  - repeat constructor.
Defined.

End StubWitness.

Section AgainFacts.
Local Open Scope Q_scope.

Ltac qcases :=
  repeat (match goal with
          | |- context [Qle_bool ?a ?b] => destruct (Qle_bool a b) eqn:?
          | |- context [Qis_zero ?a] => destruct (Qis_zero a) eqn:?
          end; cbn [negb andb orb] in *);
  try reflexivity; try congruence;
  try (exfalso;
       repeat match goal with
              | H : Qis_zero _ = true |- _ => apply Qis_zero_true in H
              | H : Qis_zero _ = false |- _ => apply Qis_zero_false in H
              end;
       qbool; lra).

Lemma max_min_again (lo hi : Q) (x : number) :
  lo < hi -> Math_max (Fin lo) (Math_min (Fin hi) x) <> NaN ->
  Math_max (Fin lo) (Math_min (Fin hi) (Math_max (Fin lo) (Math_min (Fin hi) x)))
  = Math_max (Fin lo) (Math_min (Fin hi) x).
Proof.
  intros Hlh Hn.
  destruct x as [| | |q]; unfold Math_max, Math_min, num_leb in *; try congruence; qcases.
Qed.

Ltac clamp_again_tac :=
  let H := fresh "H" in let Hn := fresh "Hn" in let q := fresh "q" in
  intros H Hn;
  match goal with
  | |- clamp (VNum ?c) _ _ = _ =>
      match type of H with
      | clamp (VNum ?y) _ _ = _ =>
          destruct y as [| | |q];
          [vm_compute in H; injection H as <-; reflexivity ..|]
      end
  end;
  unfold clamp, or_else in H; cbn [truthy num_truthy] in H;
  destruct (Qis_zero q) eqn:?; cbn [negb ToNumber bind] in H;
  [vm_compute in H; injection H as <-; reflexivity|];
  unfold Math_max, Math_min, num_leb in H;
  repeat match type of H with
         | context [Qle_bool ?a ?b] => destruct (Qle_bool a b) eqn:?; cbn [negb] in H
         end;
  injection H as <-; try reflexivity;
  unfold clamp, or_else; cbn [truthy num_truthy];
  repeat match goal with
         | E : Qis_zero _ = _ |- _ => rewrite E
         end;
  cbn [negb ToNumber bind]; unfold Math_max, Math_min, num_leb;
  repeat match goal with
         | E : Qle_bool _ _ = _ |- _ => rewrite E
         end;
  try reflexivity.

(** [clamp] on a number it returned returns that number. *)
Lemma clamp_0_1_again (y c : number) :
  clamp (VNum y) (Fin 0) (Fin 1) = Ok c -> c <> NaN -> clamp (VNum c) (Fin 0) (Fin 1) = Ok c.
Proof. clamp_again_tac. Qed.

Lemma clamp_1_5_again (y c : number) :
  clamp (VNum y) (Fin 1) (Fin 5) = Ok c -> c <> NaN -> clamp (VNum c) (Fin 1) (Fin 5) = Ok c.
Proof. clamp_again_tac. Qed.


Lemma coalesce_VNum (a : value) (d : number) :
  numeric a = true -> exists y, coalesce a (VNum d) = VNum y.
Proof.
  intros H. destruct (numeric_cases a H) as [Hn | (x & -> & _)].
  - unfold coalesce. rewrite Hn. eauto.
  - cbn. eauto.
Qed.

Lemma output_id_fixed (i : string) :
  In i output_ids ->
  toLowerCase i = i
  /\ str_nonempty i = true
  /\ (if str_nonempty i && includes TACTIC_IDS i then i else "other") = i.
Proof.
  unfold output_ids, TACTIC_IDS. cbn [In].
  intros H. repeat (destruct H as [<-|H]; [repeat split; reflexivity|]). destruct H.
Qed.

Lemma firstn_firstn_same {A : Type} (n : nat) (l : list A) : firstn n (firstn n l) = firstn n l.
Proof. apply firstn_all2. apply firstn_length_le. Qed.

Lemma max_min_NaN_or_again (x : number) :
  Math_max (Fin 0) (Math_min (Fin 5) (Math_max (Fin 0) (Math_min (Fin 5) x)))
  = Math_max (Fin 0) (Math_min (Fin 5) x).
Proof.
  destruct x as [| | |q]; [reflexivity| | |]; apply max_min_again; try lra;
    unfold Math_max, Math_min, num_leb; qcases.
Qed.

(** An object that normalisation built is normalised to itself. *)
Lemma normalizeTactic_again (t0 : value) (o : Tactic.t) (cp : number) :
  typed_entry t0 = true ->
  normalizeTactic t0 = Ok o ->
  normalizeTactic (tactic_value (mk_tactic o cp)) = Ok o.
Proof.
  intros T H. pose proof H as H0.
  unfold typed_entry in T. split_andb.
  match goal with H : negb (nullish t0) = true |- _ => apply negb_true_iff in H; rename H into Hn end.
  unfold normalizeTactic in H. rewrite !(get_ok t0) in H by assumption. cbn [bind] in H.
  apply bind_returns in H. destruct H as (ids & _ & H).
  apply bind_returns in H. destruct H as (l & Hl & H).
  apply bind_returns in H. destruct H as (s & Hs & H).
  apply bind_returns in H. destruct H as (fn & _ & H).
  apply bind_returns in H. destruct H as (score & Hscore & H).
  apply (f_equal (fun r => match r with Ok x => x | Throw _ => o end)) in H.
  cbv beta iota in H. subst o.
  set (oid := if str_nonempty (toLowerCase ids) && includes TACTIC_IDS (toLowerCase ids)
              then toLowerCase ids else "other") in *.
  set (name := or_else (prop t0 "name") _) in *.
  assert (Hin : In oid output_ids) by exact (proj1 (normalizeTactic_id _ _ H0)).
  assert (Hname : truthy name = true) by exact (proj1 (normalizeTactic_name _ _ H0)).
  destruct (output_id_fixed _ Hin) as (Hlow & Hne & Hoid).
  clearbody oid name. clear H0.
  (* the numbers of the first pass *)
  destruct (coalesce_numeric (prop t0 "likelihood") (prop t0 "p") (Fin 0)) as (Hlp & _); auto.
  destruct (coalesce_VNum (coalesce (prop t0 "likelihood") (prop t0 "p")) (Fin 0) Hlp)
    as (yl & El).
  destruct (coalesce_VNum (prop t0 "severity") (Fin 3)) as (ys & Es); [assumption|].
  rewrite El in Hl. rewrite Es in Hs.
  assert (Nl : l <> NaN).
  { destruct (clamp_num_within yl 0 1) as (q & Hq & _); [lra|]. congruence. }
  assert (Ns : s <> NaN).
  { destruct (clamp_num_within ys 1 5) as (q & Hq & _); [lra|]. congruence. }
  (* the second pass *)
  unfold normalizeTactic, tactic_value.
  cbn [obj Tactic.id Tactic.name Tactic.likelihood Tactic.severity Tactic.frequency
       Tactic.examples Tactic.score contribution_pct].
  rewrite !get_ok by reflexivity. cbn [bind].
  change (prop (VObj _) "id") with (VStr oid).
  change (prop (VObj _) "name") with name.
  change (prop (VObj _) "likelihood") with (VNum l).
  change (prop (VObj _) "p") with VUndefined.
  change (prop (VObj _) "severity") with (VNum s).
  change (prop (VObj _) "frequency") with (VNum (Math_max (Fin 0) (Math_min (Fin 5) fn))).
  change (prop (VObj _) "examples")
    with (VArr (match prop t0 "examples" with VArr l0 => firstn 5 l0 | _ => [] end)).
  unfold or_else at 1 2. change (truthy (VStr oid)) with (str_nonempty oid).
  rewrite Hne. change (truthy (VStr oid)) with (str_nonempty oid).
  rewrite Hne. cbn [ToString bind]. rewrite Hlow, Hoid.
  cbn [coalesce nullish].
  rewrite (clamp_0_1_again yl l Hl Nl). cbn [bind].
  rewrite (clamp_1_5_again ys s Hs Ns). cbn [bind ToNumber].
  rewrite max_min_NaN_or_again.
  unfold or_else. rewrite Hname.
  replace (firstn 5 (match prop t0 "examples" with VArr l0 => firstn 5 l0 | _ => [] end))
    with (match prop t0 "examples" with VArr l0 => firstn 5 l0 | _ => [] end).
  2:{ destruct (prop t0 "examples"); try reflexivity. symmetry. apply firstn_firstn_same. }
  rewrite Hscore. reflexivity.
Qed.

End AgainFacts.

Section AgainReport.
Local Open Scope Q_scope.

Lemma or_else_again (a d : value) :
  truthy d = true -> or_else (or_else a d) d = or_else a d.
Proof.
  intros Hd. unfold or_else. destruct (truthy a) eqn:Ha.
  - rewrite Ha. reflexivity.
  - rewrite Hd. reflexivity.
Qed.

Lemma narrative_of_again (v : value) : narrative_of (narrative_of v) = narrative_of v.
Proof.
  destruct v; try reflexivity. unfold narrative_of.
  destruct (str_nonempty (trim s)) eqn:E; [rewrite E|]; reflexivity.
Qed.

Lemma receipts_of_again (v : value) : receipts_of (VArr (receipts_of v)) = receipts_of v.
Proof.
  unfold receipts_of at 1. apply firstn_all2. apply receipts_of_length.
Qed.

Lemma riskLabel_truthy (s : number) : truthy (VStr (riskLabel s)) = true.
Proof. destruct (riskLabel_cases s) as [-> | [-> | ->]]; reflexivity. Qed.

Lemma mapM_normalizeTactic_again (l : list value) (objs : list Tactic.t) (cp : Tactic.t -> number) :
  forallb typed_entry l = true ->
  mapM normalizeTactic l = Ok objs ->
  mapM normalizeTactic (map tactic_value (map (fun t => mk_tactic t (cp t)) objs)) = Ok objs.
Proof.
  intros T H. apply mapM_returns in H.
  induction H as [|t o l objs Ho _ IH]; [reflexivity|].
  cbn [forallb] in T. apply andb_true_iff in T. destruct T as (Tt & Tl).
  cbn [map mapM]. rewrite (normalizeTactic_again t o (cp o) Tt Ho). cbn [bind].
  rewrite (IH Tl). reflexivity.
Qed.

End AgainReport.

Section AgainTheorem.
Local Open Scope Q_scope.

(** X26.  Normalising is idempotent on typed input.  The report returned
    for a raw report whose fields have the types of the classification
    schema, written as the object the worker stores and normalised again,
    comes back unchanged. *)
Theorem normalizing_again_changes_nothing (raw : value) (out : Report.t) :
  typed_report raw = true ->
  normalizeReport raw = Ok out ->
  normalizeReport (report_value out) = Ok out.
Proof.
  intros T H.
  destruct (normalizeReport_returns raw out H) as (Hn & c & objs & Hc & Hobjs & ->).
  unfold typed_report in T. split_andb.
  destruct (coalesce_VNum (prop raw "confidence") (Fin 0.85)) as (y & Ey); [assumption|].
  rewrite Ey in Hc.
  assert (Nc : c <> NaN).
  { destruct (clamp_num_within y 0 1) as (q & Hq & _); [lra|]. congruence. }
  assert (Tl : forallb typed_entry (raw_entries raw) = true).
  { unfold raw_entries, typed_tactics in *. destruct (prop raw "tactics"); auto. }
  rewrite normalizeReport_unfold by reflexivity.
  change (prop (report_value (assemble raw c objs)) "confidence") with (VNum c).
  cbn [coalesce nullish]. rewrite (clamp_0_1_again y c Hc Nc). cbn [bind].
  change (raw_entries (report_value (assemble raw c objs)))
    with (map tactic_value
            (map (fun t => mk_tactic t
                             (contribution (sumWeightScore (overall (seen_entries objs))) t))
                 objs)).
  rewrite (mapM_normalizeTactic_again _ _ _ Tl Hobjs). cbn [bind].
  f_equal. unfold assemble.
  change (prop (report_value _) "risk_label")
    with (or_else (prop raw "risk_label")
            (VStr (riskLabel (overall_score (overall (seen_entries objs)))))).
  change (prop (report_value _) "receipts") with (VArr (receipts_of (prop raw "receipts"))).
  change (prop (report_value _) "kpis") with (or_else (prop raw "kpis") (VObj [])).
  change (prop (report_value _) "narrative_md") with (narrative_of (prop raw "narrative_md")).
  rewrite or_else_again by apply riskLabel_truthy.
  rewrite or_else_again by reflexivity.
  rewrite receipts_of_again, narrative_of_again. reflexivity.
Qed.

End AgainTheorem.

Section AgainWitness.

Lemma normalizing_again_changes_nothing_witness :
  typed_report sample_report = true
  /\ exists out, normalizeReport sample_report = Ok out
                 /\ normalizeReport (report_value out) = Ok out.
Proof.
  split; [reflexivity|].
  destruct (normalizeReport sample_report) as [out|e] eqn:E; [|vm_compute in E; discriminate].
  exists out. split; [reflexivity|].
  apply (normalizing_again_changes_nothing sample_report out); [reflexivity|exact E].
Defined.

End AgainWitness.

